(** * Fantasy league schedule generator: the constraint model and its consequences

    A shallow embedding of [FantasyScheduler/fantasy_scheduler_ortools.py]:
    the league tables, the boolean match variables, the linear constraints
    handed to the CP-SAT solver, the extraction of a schedule from the
    solver's values, and the validation summary printed afterwards.
    [Module Draft] embeds the pick bookkeeping of the live draft optimizer
    of [fantasyScript.py]. *)

From Stdlib Require Import List ZArith Bool Arith Lia String Ascii.
Import ListNotations.
Open Scope string_scope.
Open Scope list_scope.
Open Scope nat_scope.

(* ===================================================================== *)
(** ** Python runtime: exceptions, dictionaries, ranges                   *)
(* ===================================================================== *)

Inductive key : Type :=
| KStr (s : string)
| KInt (n : nat).

Inductive exn : Type :=
| KeyError (k : key)
| IndexError.

Inductive result (A : Type) : Type :=
| Ok (a : A)
| Raise (e : exn).
Arguments Ok {A} a.
Arguments Raise {A} e.

Definition bind {A B} (r : result A) (k : A -> result B) : result B :=
  match r with
  | Ok a => k a
  | Raise e => Raise e
  end.

Notation "x <- e ;; k" := (bind e (fun x => k))
  (at level 61, e at next level, right associativity).

(** [for x in xs: body], where the body appends to one list. *)
Fixpoint for_ {A B} (xs : list A) (body : A -> result (list B)) : result (list B) :=
  match xs with
  | [] => Ok []
  | x :: xs' => ys <- body x ;; zs <- for_ xs' body ;; Ok (ys ++ zs)
  end.

(** [[f(x) for x in xs]] *)
Fixpoint comprehension {A B} (xs : list A) (f : A -> result B) : result (list B) :=
  match xs with
  | [] => Ok []
  | x :: xs' => y <- f x ;; ys <- comprehension xs' f ;; Ok (y :: ys)
  end.

Definition range (n : nat) : list nat := seq 0 n.
Definition range2 (a b : nat) : list nat := seq a (b - a).

(** Insertion-ordered dictionaries. *)
Section Dict.
Context {K V : Type} (eqb : K -> K -> bool) (mk : K -> key).

Fixpoint dict_set (d : list (K * V)) (k : K) (v : V) : list (K * V) :=
  match d with
  | [] => [(k, v)]
  | (k', v') :: d' =>
      if eqb k k' then (k', v) :: d' else (k', v') :: dict_set d' k v
  end.

Definition dict_of (kvs : list (K * V)) : list (K * V) :=
  fold_left (fun d kv => dict_set d (fst kv) (snd kv)) kvs [].

Fixpoint dict_get (d : list (K * V)) (k : K) : result V :=
  match d with
  | [] => Raise (KeyError (mk k))
  | (k', v) :: d' => if eqb k k' then Ok v else dict_get d' k
  end.
End Dict.

Definition sdict_of {V} := @dict_of string V String.eqb.
Definition sdict_get {V} := @dict_get string V String.eqb KStr.
Definition ndict_of {V} := @dict_of nat V Nat.eqb.
Definition ndict_get {V} := @dict_get nat V Nat.eqb KInt.

Definition values {K V} (d : list (K * V)) : list V := map snd d.

Definition index {A} (l : list A) (i : nat) : result A :=
  match nth_error l i with
  | Some a => Ok a
  | None => Raise IndexError
  end.

Fixpoint enumerate_from {A} (n : nat) (l : list A) : list (nat * A) :=
  match l with
  | [] => []
  | a :: l' => (n, a) :: enumerate_from (S n) l'
  end.
Definition enumerate {A} (l : list A) := enumerate_from 0 l.

(* ===================================================================== *)
(** ** Team and division setup (module level)                             *)
(* ===================================================================== *)

Definition teams_by_div : list (string * list string) :=
  [ ("North", ["Thor"; "Blake"; "Abe"; "DTM"]);
    ("South", ["Samran"; "Nasties"; "Thomas"; "Shooter"]);
    ("East",  ["Emelie"; "AMO"; "Lukose"; "Sydney"]);
    ("West",  ["Nick"; "Rej"; "Saagar"; "Dino"]) ].

Definition div_of : list (string * string) :=
  sdict_of (flat_map (fun dts => map (fun t => (t, fst dts)) (snd dts)) teams_by_div).

Definition opposite : list (string * string) :=
  [ ("North", "South"); ("South", "North"); ("East", "West"); ("West", "East") ].

Definition teams : list string := flat_map (fun ts => ts) (values teams_by_div).

Definition T : nat := List.length teams.
Definition W : nat := 14.
Definition G : Z := 8%Z.

Definition idx : list (string * nat) :=
  sdict_of (map (fun it => (snd it, fst it)) (enumerate teams)).

Definition idx_to_team : list (nat * string) :=
  ndict_of (map (fun ti => (snd ti, fst ti)) idx).

Definition rivals : list (string * string) :=
  [ ("DTM", "Sydney");
    ("Thomas", "Emelie");
    ("Thor", "Nick");
    ("Blake", "Rej");
    ("Samran", "Dino");
    ("Abe", "Lukose");
    ("Nasties", "Saagar");
    ("Shooter", "AMO") ].

(* ===================================================================== *)
(** ** Decision variables and linear constraints                          *)
(* ===================================================================== *)

(** [matches[i][j][w]]: team [i] plays at home against team [j] in week [w].
    A variable is named by its three indices. *)
Definition var : Type := (nat * nat * nat)%type.

(** Subscripting the nested dictionary: the outer level has keys
    [range(T)], the middle level every [j <> i], the inner level [range(W)]. *)
Definition matches (i j w : nat) : result var :=
  if (i <? T) then
    if ((j <? T) && negb (i =? j)) then
      if (w <? W) then Ok (i, j, w) else Raise (KeyError (KInt w))
    else Raise (KeyError (KInt j))
  else Raise (KeyError (KInt i)).

(** [j in matches[i] and w in matches[i][j]] *)
Definition in_matches (i j w : nat) : result bool :=
  if (i <? T) then Ok (((j <? T) && negb (i =? j)) && (w <? W))
  else Raise (KeyError (KInt i)).

Inductive rel : Type := EQ | LE | GE.

(** [model.Add(sum(lhs) <op> rhs)] *)
Record constraint : Type := Add { lhs : list var; op : rel; rhs : Z }.
Arguments Add lhs op rhs%_Z.

(** The value the solver gives to each variable. *)
Definition assignment : Type := nat -> nat -> nat -> bool.

Definition value (m : assignment) (v : var) : Z :=
  let '(i, j, w) := v in Z.b2z (m i j w).

Fixpoint sumZ {A} (f : A -> Z) (l : list A) : Z :=
  match l with
  | [] => 0%Z
  | a :: l' => (f a + sumZ f l')%Z
  end.

Definition holds (m : assignment) (c : constraint) : bool :=
  match op c with
  | EQ => (sumZ (value m) (lhs c) =? rhs c)%Z
  | LE => (sumZ (value m) (lhs c) <=? rhs c)%Z
  | GE => (sumZ (value m) (lhs c) >=? rhs c)%Z
  end.

(** The opponents of team [i]: [[j for j in range(T) if j != i]]. *)
Definition others (i : nat) : list nat :=
  filter (fun j => negb (j =? i)) (range T).

(** [[idx[team] for team in div_teams]] *)
Definition indices_of (div_teams : list string) : result (list nat) :=
  comprehension div_teams (sdict_get idx).

(* ===================================================================== *)
(** ** The constraint families, in the order the script adds them         *)
(* ===================================================================== *)

(** Constraint 1: each team plays exactly once per week. *)
Definition constraint1 : result (list constraint) :=
  for_ (range W) (fun w =>
  for_ (range T) (fun i =>
    home_games <- comprehension (others i) (fun j => matches i j w) ;;
    away_games <- comprehension (others i) (fun j => matches j i w) ;;
    Ok [Add (home_games ++ away_games) EQ 1])).

(** Constraint 2: each week has exactly G games. *)
Definition constraint2 : result (list constraint) :=
  for_ (range W) (fun w =>
    total_games <- for_ (range T) (fun i =>
                     comprehension (others i) (fun j => matches i j w)) ;;
    Ok [Add total_games EQ G]).

(** The loop header shared by constraints 3, 5b and 7: every position pair
    [i < j] of every division. *)
Definition for_division_pairs (body : nat -> nat -> result (list constraint))
  : result (list constraint) :=
  for_ (values teams_by_div) (fun div_teams =>
    div_indices <- indices_of div_teams ;;
    for_ (range (List.length div_indices)) (fun i =>
    for_ (range2 (i + 1) (List.length div_indices)) (fun j =>
      team_i <- index div_indices i ;;
      team_j <- index div_indices j ;;
      body team_i team_j))).

(** Constraint 3: division double round-robin. *)
Definition constraint3 : result (list constraint) :=
  for_division_pairs (fun team_i team_j =>
    total_games <- for_ (range W) (fun w =>
                     a <- matches team_i team_j w ;;
                     b <- matches team_j team_i w ;;
                     Ok [a; b]) ;;
    Ok [Add total_games EQ 2]).

Definition opposite_pairs : list (string * string) :=
  [ ("North", "South"); ("East", "West") ].

(** Constraint 4: opposite division single round. *)
Definition constraint4 : result (list constraint) :=
  for_ opposite_pairs (fun d =>
    ts1 <- sdict_get teams_by_div (fst d) ;;
    div1_indices <- indices_of ts1 ;;
    ts2 <- sdict_get teams_by_div (snd d) ;;
    div2_indices <- indices_of ts2 ;;
    for_ div1_indices (fun team_i =>
    for_ div2_indices (fun team_j =>
      total_games <- for_ (range W) (fun w =>
                       a <- matches team_i team_j w ;;
                       b <- matches team_j team_i w ;;
                       Ok [a; b]) ;;
      Ok [Add total_games EQ 1]))).

(** Constraint 4b: opposite division home/away balance. *)
Definition constraint4b : result (list constraint) :=
  for_ opposite_pairs (fun d =>
    ts1 <- sdict_get teams_by_div (fst d) ;;
    div1_indices <- indices_of ts1 ;;
    ts2 <- sdict_get teams_by_div (snd d) ;;
    div2_indices <- indices_of ts2 ;;
    first <- for_ div1_indices (fun team_i =>
               home_games_vs_div2 <- for_ div2_indices (fun team_j =>
                 comprehension (range W) (fun w => matches team_i team_j w)) ;;
               Ok [Add home_games_vs_div2 EQ 2]) ;;
    second <- for_ div2_indices (fun team_j =>
               home_games_vs_div1 <- for_ div1_indices (fun team_i =>
                 comprehension (range W) (fun w => matches team_j team_i w)) ;;
               Ok [Add home_games_vs_div1 EQ 2]) ;;
    Ok (first ++ second)).

(** Constraint 5: home/away balance (7 home, 7 away per team). *)
Definition constraint5 : result (list constraint) :=
  for_ (range T) (fun i =>
    home_games <- for_ (range W) (fun w =>
                    comprehension (others i) (fun j => matches i j w)) ;;
    away_games <- for_ (range W) (fun w =>
                    comprehension (others i) (fun j => matches j i w)) ;;
    Ok [Add home_games EQ 7; Add away_games EQ 7]).

(** Constraint 5b: each divisional pair plays exactly once at each location. *)
Definition constraint5b : result (list constraint) :=
  for_division_pairs (fun team_i team_j =>
    home_games_i_vs_j <- comprehension (range W) (fun w => matches team_i team_j w) ;;
    home_games_j_vs_i <- comprehension (range W) (fun w => matches team_j team_i w) ;;
    Ok [Add home_games_i_vs_j EQ 1; Add home_games_j_vs_i EQ 1]).

(** Constraint 6: rivalry week (week 10, index 9). *)
Definition rivalry_week : nat := 9.

Definition constraint6 (rivals : list (string * string)) : result (list constraint) :=
  for_ rivals (fun r =>
    team1_idx <- sdict_get idx (fst r) ;;
    team2_idx <- sdict_get idx (snd r) ;;
    a <- matches team1_idx team2_idx rivalry_week ;;
    b <- matches team2_idx team1_idx rivalry_week ;;
    Ok [Add [a; b] EQ 1]).

(** [if cond: body] inside a loop that appends. *)
Definition when {B} (cond : result bool) (body : result (list B)) : result (list B) :=
  b <- cond ;; if b then body else Ok [].

(** [[x for x in xs if cond(x)]] *)
Fixpoint comprehension_if {A} (xs : list A) (cond : A -> result bool) : result (list A) :=
  match xs with
  | [] => Ok []
  | x :: xs' =>
      b <- cond x ;; ys <- comprehension_if xs' cond ;;
      Ok (if b then x :: ys else ys)
  end.

(** [if total_games: model.Add(...)] *)
Definition add_if_nonempty (vs : list var) (o : rel) (k : Z) : list constraint :=
  match vs with
  | [] => []
  | _ :: _ => [Add vs o k]
  end.

(** Constraint 7: minimum separation between the two games of a division pair. *)
Definition separation_weeks : nat := 3.

Definition constraint7 : result (list constraint) :=
  for_division_pairs (fun team_i team_j =>
    for_ (range W) (fun w1 =>
    for_ (range2 (w1 + 1) (Nat.min (w1 + separation_weeks) W)) (fun w2 =>
      a <- matches team_i team_j w1 ;;
      b <- matches team_j team_i w1 ;;
      c <- matches team_i team_j w2 ;;
      d <- matches team_j team_i w2 ;;
      Ok [Add [a; b; c; d] LE 1]))).

(** [[idx[teammate] for teammate in teams_by_div[div_of[idx_to_team[i]]]
      if teammate != idx_to_team[i]]] *)
Definition team_div_indices (i : nat) : result (list nat) :=
  name <- ndict_get idx_to_team i ;;
  d <- sdict_get div_of name ;;
  mates <- sdict_get teams_by_div d ;;
  kept <- comprehension_if mates (fun teammate =>
            me <- ndict_get idx_to_team i ;; Ok (negb (String.eqb teammate me))) ;;
  comprehension kept (sdict_get idx).

(** The variables of team [i]'s division games in the given weeks, in the
    order constraints 8 and 9 collect them. *)
Definition division_games_in (i : nat) (team_div_indices : list nat) (weeks : list nat)
  : result (list var) :=
  for_ weeks (fun w =>
  for_ team_div_indices (fun div_opponent =>
    home <- when (in_matches i div_opponent w)
              (v <- matches i div_opponent w ;; Ok [v]) ;;
    away <- when (in_matches div_opponent i w)
              (v <- matches div_opponent i w ;; Ok [v]) ;;
    Ok (home ++ away))).

(** Constraint 8: at most 2 division games in any 3 consecutive weeks. *)
Definition constraint8 : result (list constraint) :=
  for_ (range T) (fun i =>
    tdi <- team_div_indices i ;;
    for_ (range (W - 2)) (fun w1 =>
      division_games_in_3_weeks <- division_games_in i tdi [w1; w1 + 1; w1 + 2] ;;
      Ok (add_if_nonempty division_games_in_3_weeks LE 2))).

(** Constraint 9: at least 3 division games in the last 8 weeks. *)
Definition last_8_weeks : list nat := range2 6 14.

Definition constraint9 : result (list constraint) :=
  for_ (range T) (fun i =>
    tdi <- team_div_indices i ;;
    division_games_last_8 <- division_games_in i tdi last_8_weeks ;;
    Ok (add_if_nonempty division_games_last_8 GE 3)).

(** [[j for j in range(T) if j != i and div_of[idx_to_team[j]] != team_div]] *)
Definition non_division_teams (i : nat) : result (list nat) :=
  team_name <- ndict_get idx_to_team i ;;
  team_div <- sdict_get div_of team_name ;;
  comprehension_if (range T) (fun j =>
    if j =? i then Ok false
    else
      name_j <- ndict_get idx_to_team j ;;
      div_j <- sdict_get div_of name_j ;;
      Ok (negb (String.eqb div_j team_div))).

(** Constraint 10: no team plays any non-division opponent more than once. *)
Definition constraint10 : result (list constraint) :=
  for_ (range T) (fun i =>
    ndt <- non_division_teams i ;;
    for_ ndt (fun j =>
      total_games <- for_ (range W) (fun w =>
                       home <- when (in_matches i j w) (v <- matches i j w ;; Ok [v]) ;;
                       away <- when (in_matches j i w) (v <- matches j i w ;; Ok [v]) ;;
                       Ok (home ++ away)) ;;
      Ok (add_if_nonempty total_games LE 1))).

(** Constraint 11: all games in week 14 are divisional. *)
Definition final_week : nat := W - 1.

Definition constraint11 : result (list constraint) :=
  for_ (range T) (fun i =>
    ndt <- non_division_teams i ;;
    for_ ndt (fun j =>
      home <- when (in_matches i j final_week)
                (v <- matches i j final_week ;; Ok [Add [v] EQ 0]) ;;
      away <- when (in_matches j i final_week)
                (v <- matches j i final_week ;; Ok [Add [v] EQ 0]) ;;
      Ok (home ++ away))).

(** Constraint 12: no more than 3 consecutive home or away games. *)
Definition constraint12 : result (list constraint) :=
  for_ (range T) (fun i =>
    home <- for_ (range (W - 3)) (fun w1 =>
              home_games_in_4_weeks <-
                for_ [w1; w1 + 1; w1 + 2; w1 + 3] (fun w =>
                  comprehension (others i) (fun j => matches i j w)) ;;
              Ok [Add home_games_in_4_weeks LE 3]) ;;
    away <- for_ (range (W - 3)) (fun w1 =>
              away_games_in_4_weeks <-
                for_ [w1; w1 + 1; w1 + 2; w1 + 3] (fun w =>
                  comprehension (others i) (fun j => matches j i w)) ;;
              Ok [Add away_games_in_4_weeks LE 3]) ;;
    Ok (home ++ away)).

(** Everything the script adds before and after the rivalry constraint. *)
Definition constraints_1_to_5b : result (list constraint) :=
  c1 <- constraint1 ;; c2 <- constraint2 ;; c3 <- constraint3 ;;
  c4 <- constraint4 ;; c4b <- constraint4b ;; c5 <- constraint5 ;;
  c5b <- constraint5b ;;
  Ok (c1 ++ c2 ++ c3 ++ c4 ++ c4b ++ c5 ++ c5b).

Definition constraints_7_to_12 : result (list constraint) :=
  c7 <- constraint7 ;; c8 <- constraint8 ;; c9 <- constraint9 ;;
  c10 <- constraint10 ;; c11 <- constraint11 ;; c12 <- constraint12 ;;
  Ok (c7 ++ c8 ++ c9 ++ c10 ++ c11 ++ c12).

(** The model as it stands when [solver.Solve(model)] is reached, for a
    given rivalry table. *)
Definition build_model (rivals : list (string * string)) : result (list constraint) :=
  before <- constraints_1_to_5b ;;
  c6 <- constraint6 rivals ;;
  after <- constraints_7_to_12 ;;
  Ok (before ++ c6 ++ after).

(** An assignment satisfies the model when the script reaches the solver
    and every added constraint holds. *)
Definition satisfies (m : assignment) : Prop :=
  exists cs, build_model rivals = Ok cs /\ forallb (holds m) cs = true.

Definition is_ok {A} (r : result A) : bool :=
  match r with Ok _ => true | Raise _ => false end.

Definition payload {A} (r : result (list A)) : list A :=
  match r with
  | Ok cs => cs
  | Raise _ => []
  end.

(** The constraints handed to the solver. *)
Definition model_cs : list constraint := payload (build_model rivals).

(* ===================================================================== *)
(** ** A concrete feasible season                                         *)
(* ===================================================================== *)

(** One schedule the solver may return: for each week the (home, away)
    index pairs. *)
Definition season0 : list (list (nat * nat)) :=
  [ [(0, 1); (2, 3); (5, 4); (7, 6); (8, 9); (11, 10); (12, 13); (15, 14)];
    [(0, 4); (1, 5); (2, 6); (7, 3); (8, 12); (9, 13); (10, 14); (11, 15)];
    [(1, 12); (2, 8); (3, 15); (4, 11); (9, 5); (10, 7); (13, 6); (14, 0)];
    [(0, 2); (1, 3); (5, 7); (6, 4); (8, 10); (11, 9); (13, 15); (14, 12)];
    [(4, 3); (5, 0); (6, 1); (7, 2); (8, 13); (12, 11); (14, 9); (15, 10)];
    [(0, 3); (2, 1); (4, 7); (5, 6); (9, 10); (11, 8); (12, 15); (13, 14)];
    [(0, 9); (3, 13); (6, 11); (7, 14); (8, 4); (10, 1); (12, 5); (15, 2)];
    [(1, 7); (2, 4); (3, 5); (6, 0); (9, 15); (10, 12); (13, 11); (14, 8)];
    [(1, 0); (3, 2); (4, 5); (6, 7); (9, 8); (10, 11); (13, 12); (14, 15)];
    [(0, 12); (1, 13); (2, 10); (5, 14); (7, 9); (8, 6); (11, 3); (15, 4)];
    [(4, 10); (5, 8); (6, 15); (9, 1); (11, 7); (12, 2); (13, 0); (14, 3)];
    [(2, 0); (3, 1); (4, 6); (7, 5); (9, 11); (10, 8); (12, 14); (15, 13)];
    [(0, 7); (3, 6); (4, 1); (5, 2); (11, 14); (12, 9); (13, 10); (15, 8)];
    [(1, 2); (3, 0); (6, 5); (7, 4); (8, 11); (10, 9); (14, 13); (15, 12)] ].

Definition assignment_of (season : list (list (nat * nat))) : assignment :=
  fun i j w =>
    existsb (fun g => (fst g =? i) && (snd g =? j)) (nth w season []).

Definition m0 : assignment := assignment_of season0.

(* ===================================================================== *)
(** ** What the schedule of an assignment looks like                      *)
(* ===================================================================== *)

(** [div_of[idx_to_team[i]]] *)
Definition division (i : nat) : result string :=
  name <- ndict_get idx_to_team i ;; sdict_get div_of name.

(** [home_div == away_div] *)
Definition same_division (i j : nat) : bool :=
  match division i, division j with
  | Ok a, Ok b => String.eqb a b
  | _, _ => false
  end.

(** [away_div == opposite[home_div]] *)
Definition opposite_division (i j : nat) : bool :=
  match division i, division j with
  | Ok a, Ok b =>
      match sdict_get opposite a with
      | Ok o => String.eqb b o
      | Raise _ => false
      end
  | _, _ => false
  end.

(** The rivalry table by index. *)
Definition rival_indices : list (nat * nat) :=
  match comprehension rivals (fun r =>
          a <- sdict_get idx (fst r) ;; b <- sdict_get idx (snd r) ;; Ok (a, b)) with
  | Ok l => l
  | Raise _ => []
  end.

Definition is_rival (i j : nat) : bool :=
  existsb (fun r => ((fst r =? i) && (snd r =? j)) || ((fst r =? j) && (snd r =? i)))
          rival_indices.

(** The opponents of a team by kind, in the order in which the game type
    is decided: division first, then opposite division, then the rest. *)
Definition div_opps (i : nat) : list nat := filter (same_division i) (others i).
Definition non_div_opps (i : nat) : list nat :=
  filter (fun j => negb (same_division i j)) (others i).
Definition opp_opps (i : nat) : list nat :=
  filter (opposite_division i) (non_div_opps i).
Definition cross_opps (i : nat) : list nat :=
  filter (fun j => negb (opposite_division i j)) (non_div_opps i).

(** Games between [i] and [j] in week [w] (either venue). *)
Definition played (m : assignment) (i j w : nat) : Z :=
  (Z.b2z (m i j w) + Z.b2z (m j i w))%Z.

(** Meetings of [i] and [j] over the season. *)
Definition meetings (m : assignment) (i j : nat) : Z :=
  sumZ (fun w => played m i j w) (range W).

(** Games [i] hosts against [j] over the season. *)
Definition hosted (m : assignment) (i j : nat) : Z :=
  sumZ (fun w => Z.b2z (m i j w)) (range W).

(** Games of team [i] in week [w]. *)
Definition games_of (m : assignment) (i w : nat) : Z :=
  sumZ (fun j => played m i j w) (others i).

(** Games in week [w]. *)
Definition games_in_week (m : assignment) (w : nat) : Z :=
  sumZ (fun i => sumZ (fun j => Z.b2z (m i j w)) (others i)) (range T).

Definition home_games (m : assignment) (i : nat) : Z :=
  sumZ (fun w => sumZ (fun j => Z.b2z (m i j w)) (others i)) (range W).

Definition away_games (m : assignment) (i : nat) : Z :=
  sumZ (fun w => sumZ (fun j => Z.b2z (m j i w)) (others i)) (range W).

(** Division games of team [i] in week [w]. *)
Definition division_games (m : assignment) (i w : nat) : Z :=
  sumZ (fun j => played m i j w) (div_opps i).

(* ===================================================================== *)
(** ** The constraints one expects, in closed form                        *)
(* ===================================================================== *)

Definition both_venues (i j : nat) (weeks : list nat) : list var :=
  flat_map (fun w => [(i, j, w); (j, i, w)]) weeks.

Definition expect1 (i w : nat) : constraint :=
  Add (map (fun j => (i, j, w)) (others i) ++ map (fun j => (j, i, w)) (others i)) EQ 1.
Definition expect2 (w : nat) : constraint :=
  Add (flat_map (fun i => map (fun j => (i, j, w)) (others i)) (range T)) EQ G.
Definition expect3 (i j : nat) : constraint := Add (both_venues i j (range W)) EQ 2.
Definition expect4 (i j : nat) : constraint := Add (both_venues i j (range W)) EQ 1.
Definition expect5_home (i : nat) : constraint :=
  Add (flat_map (fun w => map (fun j => (i, j, w)) (others i)) (range W)) EQ 7.
Definition expect5_away (i : nat) : constraint :=
  Add (flat_map (fun w => map (fun j => (j, i, w)) (others i)) (range W)) EQ 7.
Definition expect5b (i j : nat) : constraint :=
  Add (map (fun w => (i, j, w)) (range W)) EQ 1.
Definition expect6 (i j : nat) : constraint :=
  Add [(i, j, rivalry_week); (j, i, rivalry_week)] EQ 1.
Definition expect7 (i j w1 w2 : nat) : constraint :=
  Add [(i, j, w1); (j, i, w1); (i, j, w2); (j, i, w2)] LE 1.
Definition division_vars (i : nat) (weeks : list nat) : list var :=
  flat_map (fun w => flat_map (fun o => [(i, o, w); (o, i, w)]) (div_opps i)) weeks.
Definition expect8 (i w1 : nat) : constraint :=
  Add (division_vars i [w1; w1 + 1; w1 + 2]) LE 2.
Definition expect9 (i : nat) : constraint :=
  Add (division_vars i last_8_weeks) GE 3.
Definition expect10 (i j : nat) : constraint := Add (both_venues i j (range W)) LE 1.
Definition expect11 (i j : nat) : constraint := Add [(i, j, final_week)] EQ 0.

(** Deciding whether a constraint is among those added. *)
Definition var_eqb (a b : var) : bool :=
  let '(i, j, w) := a in
  let '(i', j', w') := b in
  if i =? i' then if j =? j' then w =? w' else false else false.

Fixpoint vars_eqb (l1 l2 : list var) : bool :=
  match l1, l2 with
  | [], [] => true
  | a :: l1', b :: l2' => if var_eqb a b then vars_eqb l1' l2' else false
  | _, _ => false
  end.

Definition rel_eqb (r1 r2 : rel) : bool :=
  match r1, r2 with
  | EQ, EQ | LE, LE | GE, GE => true
  | _, _ => false
  end.

Definition constraint_eqb (c1 c2 : constraint) : bool :=
  if rel_eqb (op c1) (op c2)
  then if (rhs c1 =? rhs c2)%Z then vars_eqb (lhs c1) (lhs c2) else false
  else false.

Fixpoint added (cs : list constraint) (c : constraint) : bool :=
  match cs with
  | [] => false
  | c' :: cs' => if constraint_eqb c c' then true else added cs' c
  end.

(** Bounded quantification over teams and weeks. *)
Fixpoint all_in (l : list nat) (p : nat -> bool) : bool :=
  match l with
  | [] => true
  | x :: l' => if p x then all_in l' p else false
  end.
Definition for_all (n : nat) (p : nat -> bool) : bool := all_in (range n) p.
Definition for_all2 (n k : nat) (p : nat -> nat -> bool) : bool :=
  for_all n (fun i => for_all k (p i)).

(** Table checks used when reasoning by team. *)
Definition rival_ok (r : string * string) : bool :=
  match sdict_get idx (fst r), sdict_get idx (snd r) with
  | Ok a, Ok b =>
      (a <? T) && (b <? T) && negb (a =? b) && is_rival a b && negb (same_division a b)
  | _, _ => false
  end.

(** Games of team [i] over the season. *)
Definition season_games (m : assignment) (i : nat) : Z :=
  sumZ (fun w => games_of m i w) (range W).

(** [div_of[t1] == div_of[t2]] for two team names. *)
Definition same_division_names (t1 t2 : string) : bool :=
  match sdict_get div_of t1, sdict_get div_of t2 with
  | Ok a, Ok b => String.eqb a b
  | _, _ => false
  end.

(** A rivalry table with a pair whose two teams share a division. *)
Definition has_same_division_rivalry (rv : list (string * string)) : bool :=
  existsb (fun r => same_division_names (fst r) (snd r)) rv.

Definition rivals_within_north : list (string * string) := [ ("Thor", "Blake") ].

(** Every team name has an index below [T] that maps back to the name. *)
Definition team_indexed (t : string) : bool :=
  match sdict_get idx t with
  | Ok a =>
      (a <? T) && match ndict_get idx_to_team a with
                  | Ok t' => String.eqb t' t
                  | Raise _ => false
                  end
  | Raise _ => false
  end.

(* ===================================================================== *)
(** ** The solution branch: extracting the schedule                       *)
(* ===================================================================== *)

(** The four values of a game's ['Type'] and the two of its ['Venue']. *)
Inductive game_type : Type := Division | Opposite | Rivalry | CrossDivision.
Inductive venue : Type := Home | Away.

Definition game_type_eqb (a b : game_type) : bool :=
  match a, b with
  | Division, Division | Opposite, Opposite
  | Rivalry, Rivalry | CrossDivision, CrossDivision => true
  | _, _ => false
  end.

Definition venue_eqb (a b : venue) : bool :=
  match a, b with
  | Home, Home | Away, Away => true
  | _, _ => false
  end.

Definition pair_eqb (p q : string * string) : bool :=
  String.eqb (fst p) (fst q) && String.eqb (snd p) (snd q).

(** An element of [games_by_week]. *)
Record game_info : Type :=
  GameInfo { g_Week : nat; g_Away : string; g_Home : string; g_Type : game_type }.

(** An element of [team_schedules[team]]. *)
Record team_game : Type :=
  TeamGame { t_Week : nat; t_Opponent : string; t_Venue : venue; t_Type : game_type }.

Definition schedules : Type := list (string * list team_game).

(** [for x in xs: body], where the body updates the variables [s]. *)
Fixpoint for_state {A S} (xs : list A) (body : A -> S -> result S) (s : S) : result S :=
  match xs with
  | [] => Ok s
  | x :: xs' => s' <- body x s ;; for_state xs' body s'
  end.

(** [team_schedules[team].append(entry)] *)
Definition append_entry (team_schedules : schedules) (team : string) (entry : team_game)
  : result schedules :=
  sched <- sdict_get team_schedules team ;;
  Ok (dict_set String.eqb team_schedules team (sched ++ [entry])).

(** The [if / elif / elif / else] that names the game type. *)
Definition game_type_of (w : nat) (home_team away_team : string) : result game_type :=
  home_div <- sdict_get div_of home_team ;;
  away_div <- sdict_get div_of away_team ;;
  if String.eqb home_div away_div then Ok Division
  else
    opp <- sdict_get opposite home_div ;;
    if String.eqb away_div opp then Ok Opposite
    else if (w =? 9) &&
            existsb (fun rival => pair_eqb (home_team, away_team) rival
                                  || pair_eqb (away_team, home_team) rival) rivals
         then Ok Rivalry
         else Ok CrossDivision.

(** [games_by_week] and [team_schedules], the two variables the loop fills. *)
Definition extraction : Type := (list game_info * schedules)%type.

(** The body of the innermost loop. *)
Definition extract_game (m : assignment) (w i j : nat) (st : extraction)
  : result extraction :=
  if negb (i =? j) then
    v <- matches i j w ;;
    if (value m v =? 1)%Z then
      home_team <- ndict_get idx_to_team i ;;
      away_team <- ndict_get idx_to_team j ;;
      game_type <- game_type_of w home_team away_team ;;
      let games_by_week := fst st ++ [GameInfo (w + 1) away_team home_team game_type] in
      ts <- append_entry (snd st) home_team (TeamGame (w + 1) away_team Home game_type) ;;
      ts <- append_entry ts away_team (TeamGame (w + 1) home_team Away game_type) ;;
      Ok (games_by_week, ts)
    else Ok st
  else Ok st.

Definition extract (m : assignment) : result extraction :=
  for_state (range W) (fun w =>
  for_state (range T) (fun i =>
  for_state (range T) (fun j => extract_game m w i j)))
    ([], sdict_of (map (fun team => (team, [])) teams)).

(* ===================================================================== *)
(** ** The rows of the three CSV files                                    *)
(* ===================================================================== *)

Record team_row : Type :=
  TeamRow { r_Team : string; r_Division : string; r_Week : nat; r_Opponent : string;
            r_Opponent_Division : string; r_Venue : venue; r_Type : game_type }.

Definition team_rows (team_schedules : schedules) : result (list team_row) :=
  for_ teams (fun team =>
    sched <- sdict_get team_schedules team ;;
    comprehension sched (fun game =>
      d <- sdict_get div_of team ;;
      od <- sdict_get div_of (t_Opponent game) ;;
      Ok (TeamRow team d (t_Week game) (t_Opponent game) od (t_Venue game) (t_Type game)))).

(** One cell of the grid: the first game of that week, or ["BYE"]. *)
Definition grid_cell (sched : list team_game) (week : nat) : string :=
  match find (fun g => t_Week g =? week) sched with
  | Some game =>
      let venue := if venue_eqb (t_Venue game) Home then "vs" else "@" in
      String.append venue (String.append " " (t_Opponent game))
  | None => "BYE"
  end.

Record grid_row : Type :=
  GridRow { grid_Team : string; grid_Division : string; grid_Weeks : list string }.

Definition team_grid (team_schedules : schedules) : result (list grid_row) :=
  for_ teams (fun team =>
    d <- sdict_get div_of team ;;
    cells <- comprehension (range2 1 15) (fun week =>
               sched <- sdict_get team_schedules team ;;
               Ok (grid_cell sched week)) ;;
    Ok [GridRow team d cells]).

(* ===================================================================== *)
(** ** The validation summary                                             *)
(* ===================================================================== *)

(** The two marks a check prints: a green tick or a red cross. *)
Inductive mark : Type := Pass | Fail.

Definition status_of (b : bool) : mark := if b then Pass else Fail.

(** The printed lines that carry a mark, a count or a congratulation, each
    with the values interpolated into it; titles and layout are left out. *)
Inductive line : Type :=
| TotalBalance (team : string) (home away total : nat) (status_check : mark)
| DivisionalBalance (team : string) (home away total : nat) (status_check : mark)
| RivalryGame (home away : string)
| RivalryAll (n : nat)
| RivalryOnly (found n : nat)
| Hosts (team1 team2 : string) (team1_home team2_home : option nat)
| MissingBalance (team1 team2 : string)
| PerfectBalance (div : string)
| Separation (team1 team2 : string) (week0 week1 gap : nat) (status_check : mark)
| Density (team : string) (max_consecutive : nat) (status_check : mark)
    (violations : list (nat * nat))
| LastEight (team : string) (n : nat) (status_check : mark)
| FinalWeekGame (away home : string) (type : game_type) (status_check : mark)
| FinalWeekAll (divisional_count : nat)
| FinalWeekOnly (divisional_count : nat)
| Streaks (team : string) (max_home_streak max_away_streak : nat) (status_check : mark)
    (violations : list (nat * venue))
| StreaksAll
| NonDivision (team : string) (status_check : mark) (violations : list (string * nat))
| NonDivisionAll
| Breakdown (team : string) (div_games opp_games cross_games total : nat)
    (status_check : mark).

Definition is_home (g : team_game) : bool := venue_eqb (t_Venue g) Home.
Definition is_away (g : team_game) : bool := venue_eqb (t_Venue g) Away.
Definition is_type (ty : game_type) (g : team_game) : bool := game_type_eqb (t_Type g) ty.

(** [sorted(l, key=key)]: a stable insertion sort. *)
Fixpoint insert_sorted {A} (key : A -> nat) (x : A) (l : list A) : list A :=
  match l with
  | [] => [x]
  | y :: l' => if key x <=? key y then x :: y :: l' else y :: insert_sorted key x l'
  end.

Definition sorted {A} (key : A -> nat) (l : list A) : list A :=
  fold_right (insert_sorted key) [] l.

Definition abs_diff (a b : nat) : nat := if b <=? a then a - b else b - a.

(** Total home/away balance. *)
Definition check_total_balance (team_schedules : schedules) : result (list line) :=
  for_ teams (fun team =>
    home_sched <- sdict_get team_schedules team ;;
    let home_games := List.length (filter is_home home_sched) in
    away_sched <- sdict_get team_schedules team ;;
    let away_games := List.length (filter is_away away_sched) in
    let total_games := home_games + away_games in
    Ok [TotalBalance team home_games away_games total_games
          (status_of ((home_games =? 7) && (away_games =? 7)))]).

(** Divisional home/away balance. *)
Definition check_divisional_balance (team_schedules : schedules) : result (list line) :=
  for_ teams (fun team =>
    home_sched <- sdict_get team_schedules team ;;
    let div_home_games :=
      List.length (filter (fun g => is_home g && is_type Division g) home_sched) in
    away_sched <- sdict_get team_schedules team ;;
    let div_away_games :=
      List.length (filter (fun g => is_away g && is_type Division g) away_sched) in
    let div_total_games := div_home_games + div_away_games in
    Ok [DivisionalBalance team div_home_games div_away_games div_total_games
          (status_of ((div_home_games =? 3) && (div_away_games =? 3)))]).

(** Rivalry week: each week-10 game is matched against the rivalry table and
    reported at its first match. *)
Definition check_rivalry_week (games_by_week : list game_info) : list line :=
  let week_10_games := filter (fun g => g_Week g =? 10) games_by_week in
  let found :=
    flat_map (fun game =>
      let home := g_Home game in
      let away := g_Away game in
      match find (fun rival_pair => pair_eqb (home, away) rival_pair
                                    || pair_eqb (away, home) rival_pair) rivals with
      | Some rival_pair => [(rival_pair, RivalryGame home away)]
      | None => []
      end) week_10_games in
  let rivalry_found := map fst found in
  map snd found ++
  [ if List.length rivalry_found =? List.length rivals
    then RivalryAll (List.length rivals)
    else RivalryOnly (List.length rivalry_found) (List.length rivals) ].

(** Python truthiness of [None] or an integer. *)
Definition truthy (o : option nat) : bool :=
  match o with
  | Some (S _) => true
  | _ => false
  end.

(** [team1_home] and [team2_home] after the loop over [team_schedules[team1]]. *)
Definition host_weeks (sched : list team_game) (team2 : string)
  : option nat * option nat :=
  fold_left (fun acc game =>
    if String.eqb (t_Opponent game) team2 then
      if is_home game then (Some (t_Week game), snd acc)
      else (fst acc, Some (t_Week game))
    else acc) sched (None, None).

(** The loop header of the two per-division checks: [i < j] in [range(4)]. *)
Definition for_pairs_of {B} (div_teams : list string)
  (body : string -> string -> result (list B)) : result (list B) :=
  for_ (range 4) (fun i =>
  for_ (range2 (i + 1) 4) (fun j =>
    team1 <- index div_teams i ;;
    team2 <- index div_teams j ;;
    body team1 team2)).

(** Divisional matchup balance. *)
Definition check_matchup_balance (team_schedules : schedules) : result (list line) :=
  for_ teams_by_div (fun item =>
    let div := fst item in
    let div_teams := snd item in
    rows <- for_pairs_of div_teams (fun team1 team2 =>
              sched <- sdict_get team_schedules team1 ;;
              let hw := host_weeks sched team2 in
              if truthy (fst hw) && truthy (snd hw)
              then Ok [(true, Hosts team1 team2 (fst hw) (snd hw))]
              else Ok [(false, MissingBalance team1 team2)]) ;;
    let all_correct := forallb fst rows in
    Ok (map snd rows ++ (if all_correct then [PerfectBalance div] else []))).

(** Division game separation: printed only for pairs with exactly two games. *)
Definition check_separation (team_schedules : schedules) : result (list line) :=
  for_ teams_by_div (fun item =>
    let div_teams := snd item in
    for_pairs_of div_teams (fun team1 team2 =>
      sched <- sdict_get team_schedules team1 ;;
      let game_weeks :=
        sorted (fun w => w)
          (map t_Week (filter (fun game => String.eqb (t_Opponent game) team2) sched)) in
      match game_weeks with
      | [week0; week1] =>
          let separation := abs_diff week1 week0 in
          Ok [Separation team1 team2 week0 week1 separation
                (status_of (3 <=? separation))]
      | _ => Ok []
      end)).

(** Division games in every 3-week window. *)
Definition check_density (team_schedules : schedules) : result (list line) :=
  for_ teams (fun team =>
    sched <- sdict_get team_schedules team ;;
    let div_games := filter (is_type Division) sched in
    let div_weeks := sorted (fun w => w) (map t_Week div_games) in
    let windows :=
      map (fun w1 =>
             let window_weeks := [w1; w1 + 1; w1 + 2] in
             (w1, List.length (filter (fun w => existsb (Nat.eqb w) window_weeks) div_weeks)))
          (range2 1 13) in
    let max_consecutive := fold_left (fun acc c => Nat.max acc (snd c)) windows 0 in
    let violations :=
      map (fun c => (fst c, fst c + 2)) (filter (fun c => 2 <? snd c) windows) in
    Ok [Density team max_consecutive (status_of (max_consecutive <=? 2)) violations]).

(** Division games in the last 8 weeks. *)
Definition check_last_eight (team_schedules : schedules) : result (list line) :=
  for_ teams (fun team =>
    sched <- sdict_get team_schedules team ;;
    let last_8_div_games :=
      List.length (filter (fun g => is_type Division g && (7 <=? t_Week g)) sched) in
    Ok [LastEight team last_8_div_games (status_of (3 <=? last_8_div_games))]).

(** Week 14: every game is reported with its type. *)
Definition check_final_week (games_by_week : list game_info) : list line :=
  let week_14_games := filter (fun g => g_Week g =? 14) games_by_week in
  let divisional g := game_type_eqb (g_Type g) Division in
  let divisional_count := List.length (filter divisional week_14_games) in
  let all_divisional := forallb divisional week_14_games in
  map (fun game => FinalWeekGame (g_Away game) (g_Home game) (g_Type game)
                     (status_of (divisional game))) week_14_games ++
  [ if all_divisional then FinalWeekAll divisional_count
    else FinalWeekOnly divisional_count ].

(** The variables of the streak loop. *)
Record streak_state : Type :=
  StreakState { current_streak : nat; current_venue : venue;
                max_home_streak : nat; max_away_streak : nat;
                streak_violations : list (nat * venue) }.

(** Recording a finished streak (done at each change of venue and once more
    after the loop). *)
Definition record_streak (s : streak_state) : streak_state :=
  let mh := if venue_eqb (current_venue s) Home
            then Nat.max (max_home_streak s) (current_streak s)
            else max_home_streak s in
  let ma := if venue_eqb (current_venue s) Home
            then max_away_streak s
            else Nat.max (max_away_streak s) (current_streak s) in
  let vs := if 3 <? current_streak s
            then streak_violations s ++ [(current_streak s, current_venue s)]
            else streak_violations s in
  StreakState (current_streak s) (current_venue s) mh ma vs.

Definition streak_step (s : streak_state) (v : venue) : streak_state :=
  if venue_eqb v (current_venue s) then
    StreakState (current_streak s + 1) (current_venue s)
                (max_home_streak s) (max_away_streak s) (streak_violations s)
  else
    let s' := record_streak s in
    StreakState 1 v (max_home_streak s') (max_away_streak s') (streak_violations s').

(** The longest home and away streaks and the streaks longer than 3.  With no
    game at all [current_venue] is [None] and the final check books the initial
    streak of 1 as an away streak. *)
Definition streaks_of (venues : list venue) : nat * nat * list (nat * venue) :=
  match venues with
  | [] => (0, 1, [])
  | v0 :: rest =>
      let s := record_streak (fold_left streak_step rest (StreakState 1 v0 0 0 [])) in
      (max_home_streak s, max_away_streak s, streak_violations s)
  end.

Definition is_empty {A} (l : list A) : bool :=
  match l with
  | [] => true
  | _ :: _ => false
  end.

(** Consecutive home/away games. *)
Definition check_streaks (team_schedules : schedules) : result (list line) :=
  rows <- for_ teams (fun team =>
            sched <- sdict_get team_schedules team ;;
            let team_games := sorted t_Week sched in
            let venues := map t_Venue team_games in
            let '(mh, ma, violations) := streaks_of venues in
            Ok [(is_empty violations,
                 Streaks team mh ma (status_of (is_empty violations)) violations)]) ;;
  let all_valid := forallb fst rows in
  Ok (map snd rows ++ (if all_valid then [StreaksAll] else [])).

(** [d.get(k, default)] *)
Definition sdict_get_or {V} (d : list (string * V)) (k : string) (default : V) : V :=
  match sdict_get d k with
  | Ok v => v
  | Raise _ => default
  end.

Definition count_opponents (team_games : list team_game) : list (string * nat) :=
  fold_left (fun opponent_counts game =>
    let opponent := t_Opponent game in
    dict_set String.eqb opponent_counts opponent
      (sdict_get_or opponent_counts opponent 0 + 1)) team_games [].

(** Non-division opponents met more than once. *)
Definition check_non_division (team_schedules : schedules) : result (list line) :=
  rows <- for_ teams (fun team =>
            team_games <- sdict_get team_schedules team ;;
            let opponent_counts := count_opponents team_games in
            team_div <- sdict_get div_of team ;;
            violations <- for_ opponent_counts (fun oc =>
                            let opponent := fst oc in
                            let count := snd oc in
                            opponent_div <- sdict_get div_of opponent ;;
                            if negb (String.eqb opponent_div team_div) then
                              if 1 <? count then Ok [(opponent, count)] else Ok []
                            else Ok []) ;;
            Ok [(is_empty violations,
                 NonDivision team (status_of (is_empty violations)) violations)]) ;;
  let all_valid := forallb fst rows in
  Ok (map snd rows ++ (if all_valid then [NonDivisionAll] else [])).

(** Opponent breakdown. *)
Definition check_breakdown (team_schedules : schedules) : result (list line) :=
  for_ teams (fun team =>
    s1 <- sdict_get team_schedules team ;;
    let div_games := List.length (filter (is_type Division) s1) in
    s2 <- sdict_get team_schedules team ;;
    let opp_games := List.length (filter (is_type Opposite) s2) in
    s3 <- sdict_get team_schedules team ;;
    let cross_games :=
      List.length (filter (fun g => existsb (game_type_eqb (t_Type g))
                                      [CrossDivision; Rivalry]) s3) in
    Ok [Breakdown team div_games opp_games cross_games
          (div_games + opp_games + cross_games)
          (status_of ((div_games =? 6) && (opp_games =? 4) && (cross_games =? 4)))]).

(** The whole summary, check after check. *)
Definition validation (st : extraction) : result (list line) :=
  let games_by_week := fst st in
  let team_schedules := snd st in
  c1 <- check_total_balance team_schedules ;;
  c2 <- check_divisional_balance team_schedules ;;
  let c3 := check_rivalry_week games_by_week in
  c4 <- check_matchup_balance team_schedules ;;
  c5 <- check_separation team_schedules ;;
  c6 <- check_density team_schedules ;;
  c7 <- check_last_eight team_schedules ;;
  let c8 := check_final_week games_by_week in
  c9 <- check_streaks team_schedules ;;
  c10 <- check_non_division team_schedules ;;
  c11 <- check_breakdown team_schedules ;;
  Ok (c1 ++ c2 ++ c3 ++ c4 ++ c5 ++ c6 ++ c7 ++ c8 ++ c9 ++ c10 ++ c11).

(** What the script produces once the solver has returned values: the rows
    of the three files and the lines of the summary. *)
Record output : Type :=
  Output { schedule_by_week : list game_info;
           schedule_by_team : list team_row;
           team_schedule_grid : list grid_row;
           summary : list line }.

Definition solution_found (m : assignment) : result output :=
  st <- extract m ;;
  rows <- team_rows (snd st) ;;
  grid <- team_grid (snd st) ;;
  report <- validation st ;;
  Ok (Output (fst st) rows grid report).

(** Values with no game at all. *)
Definition no_games : assignment := fun _ _ _ => false.

(** The invariant of [team_schedules]: its keys are the teams, in order, and
    every opponent it names is a team. *)
Definition well_formed (team_schedules : schedules) : Prop :=
  map fst team_schedules = teams /\
  forall team sched game,
    In (team, sched) team_schedules -> In game sched -> In (t_Opponent game) teams.

Definition team_known (t : string) : bool :=
  match sdict_get div_of t with
  | Ok d => is_ok (sdict_get opposite d)
  | Raise _ => false
  end.

Definition member (t : string) (l : list string) : bool := existsb (String.eqb t) l.

(** Constraint 4b in closed form: the games [i] hosts against the teams of
    its opposite division. *)
Definition expect4b (i : nat) : constraint :=
  Add (flat_map (fun j => map (fun w => (i, j, w)) (range W)) (opp_opps i)) EQ 2.

(** Constraint 12 in closed form: home and away games in weeks [w1 .. w1+3]. *)
Definition expect12_home (i w1 : nat) : constraint :=
  Add (flat_map (fun w => map (fun j => (i, j, w)) (others i))
         [w1; w1 + 1; w1 + 2; w1 + 3]) LE 3.
Definition expect12_away (i w1 : nat) : constraint :=
  Add (flat_map (fun w => map (fun j => (j, i, w)) (others i))
         [w1; w1 + 1; w1 + 2; w1 + 3]) LE 3.

(** Home and away games of team [i] in week [w]. *)
Definition hosts_in_week (m : assignment) (i w : nat) : Z :=
  sumZ (fun j => Z.b2z (m i j w)) (others i).
Definition visits_in_week (m : assignment) (i w : nat) : Z :=
  sumZ (fun j => Z.b2z (m j i w)) (others i).

(* ===================================================================== *)
(** ** The extracted schedule in closed form                              *)
(* ===================================================================== *)

(** [idx_to_team[i]] and the game type, as total functions on indices. *)
Definition team_name (i : nat) : string :=
  match ndict_get idx_to_team i with
  | Ok t => t
  | Raise _ => EmptyString
  end.

Definition kind (w i j : nat) : game_type :=
  match game_type_of w (team_name i) (team_name j) with
  | Ok ty => ty
  | Raise _ => CrossDivision
  end.

(** A game [(w, i, j)]: in week index [w], team [i] hosts team [j]. *)
Definition game : Type := (nat * nat * nat)%type.

Definition game_row (g : game) : game_info :=
  let '(w, i, j) := g in GameInfo (w + 1) (team_name j) (team_name i) (kind w i j).

Definition home_entry (g : game) : team_game :=
  let '(w, i, j) := g in TeamGame (w + 1) (team_name j) Home (kind w i j).

Definition away_entry (g : game) : team_game :=
  let '(w, i, j) := g in TeamGame (w + 1) (team_name i) Away (kind w i j).

(** What game [g] adds to the schedule of team [t]. *)
Definition entries_for (t : nat) (g : game) : list team_game :=
  let '(w, i, j) := g in
  (if i =? t then [home_entry g] else []) ++ (if j =? t then [away_entry g] else []).

Definition sched_dict (f : nat -> list team_game) : schedules :=
  map (fun t => (team_name t, f t)) (range T).

Definition add_entry (i : nat) (e : team_game) (f : nat -> list team_game)
  : nat -> list team_game :=
  fun t => if i =? t then f t ++ [e] else f t.

(** The two variables of the extraction loop after the games [gs]. *)
Definition extraction_of (gs : list game) : extraction :=
  (map game_row gs, sched_dict (fun t => flat_map (entries_for t) gs)).

Definition selected (m : assignment) (w i j : nat) : list game :=
  if negb (i =? j) && m i j w then [(w, i, j)] else [].

(** The games with value 1, in the order the loop visits them. *)
Definition games_in (m : assignment) (w : nat) : list game :=
  flat_map (fun i => flat_map (fun j => selected m w i j) (range T)) (range T).

Definition games_played (m : assignment) : list game :=
  flat_map (games_in m) (range W).

(** [len([g for g in l if p(g)])], as an integer. *)
Definition how_many {A} (p : A -> bool) (l : list A) : Z :=
  Z.of_nat (List.length (filter p l)).

(** [team_schedules[idx_to_team[t]]] after the extraction, and its part for
    week index [w]. *)
Definition team_schedule (m : assignment) (t : nat) : list team_game :=
  flat_map (entries_for t) (games_played m).

Definition week_entries (m : assignment) (t w : nat) : list team_game :=
  flat_map (entries_for t) (games_in m w).

(** The game type against the division tables: ["Division"] inside a
    division, ["Opposite"] across opposite divisions, one of the two
    cross-division names otherwise. *)
Definition kind_agrees (w i j : nat) : bool :=
  Bool.eqb (game_type_eqb (kind w i j) Division) (same_division i j) &&
  Bool.eqb (game_type_eqb (kind w i j) Opposite)
           (negb (same_division i j) && opposite_division i j) &&
  Bool.eqb (existsb (game_type_eqb (kind w i j)) [CrossDivision; Rivalry])
           (negb (same_division i j) && negb (opposite_division i j)).

(** The entry of team [t] for week index [w] (the first one, should the
    values hold several). *)
Definition week_entry (m : assignment) (t w : nat) : team_game :=
  nth 0 (week_entries m t w) (TeamGame (w + 1) EmptyString Home Division).

(** Lines that report a failure: a red cross, or one of the three messages
    printed only on failure. *)
Definition failed (l : line) : bool :=
  match l with
  | TotalBalance _ _ _ _ Fail | DivisionalBalance _ _ _ _ Fail
  | Separation _ _ _ _ _ Fail | Density _ _ Fail _ | LastEight _ _ Fail
  | FinalWeekGame _ _ _ Fail | Streaks _ _ _ Fail _ | NonDivision _ Fail _
  | Breakdown _ _ _ _ _ Fail
  | RivalryOnly _ _ | MissingBalance _ _ | FinalWeekOnly _ => true
  | _ => false
  end.

(** The rivalry table read through team indices: a rival pair of indices is
    found, in one order or the other, by the week-10 check. *)
Definition rival_found (i j : nat) : bool :=
  match find (fun rival_pair => pair_eqb (team_name i, team_name j) rival_pair
                                || pair_eqb (team_name j, team_name i) rival_pair)
             rivals with
  | Some _ => true
  | None => false
  end.

(** Four equal venues, and lists of venues without four equal in a row. *)
Definition same4 (a b c d : venue) : bool :=
  venue_eqb a b && venue_eqb b c && venue_eqb c d.

Fixpoint no_run_of_four (l : list venue) : bool :=
  match l with
  | [] => true
  | a :: l' =>
      match l' with
      | b :: c :: d :: _ => negb (same4 a b c d) && no_run_of_four l'
      | _ => true
      end
  end.


Definition index_of_name (i : nat) : bool :=
  match sdict_get idx (team_name i) with
  | Ok a => a =? i
  | Raise _ => false
  end.


(** The ["Rivalry"] label against the rivalry table: in week index 9 it is
    given exactly to rivals, in another week to nobody. *)
Definition rivalry_label_ok (i j : nat) : bool :=
  Bool.eqb (game_type_eqb (kind 9 i j) Rivalry) (is_rival i j) &&
  negb (game_type_eqb (kind 0 i j) Rivalry).

(** Running one lookup of [team_schedules[team]] whose result is known. *)
Ltac lookup E := cbv beta zeta; rewrite E; cbn [bind].

(* ===================================================================== *)
(** ** fantasyScript.py: the live draft optimizer                         *)
(* ===================================================================== *)

Module Draft.

(** What the methods below can raise: a [KeyError] from a subscript, or the
    division by an empty draft order. *)
Inductive error : Type :=
| Lookup (e : exn)
| ZeroDivisionError.

(** A player of the pool: a dictionary with the keys ['name'], ['position']. *)
Definition player : Type := list (string * string).

(** [self.draft_state] *)
Record draft_state : Type := DraftState {
  picked_players : list string;
  available_players : list player;
  current_round : Z;
  current_pick : Z;
  your_roster : list string;
  other_rosters : list (string * list string);
  draft_order : list string }.

Record optimizer : Type := Optimizer {
  draft : draft_state;
  player_rankings : list (string * Z) }.

(** [LiveDraftOptimizer.__init__] *)
Definition new : optimizer := Optimizer (DraftState [] [] 1 1 [] [] []) [].

(** A method call leaves the object in some state and returns [None] or
    raises; what was assigned before an exception stays assigned. *)
Definition outcome : Type := (optimizer * option error)%type.

Definition set_picked_players (v : list string) (s : draft_state) : draft_state :=
  DraftState v (available_players s) (current_round s) (current_pick s)
             (your_roster s) (other_rosters s) (draft_order s).
Definition set_available_players (v : list player) (s : draft_state) : draft_state :=
  DraftState (picked_players s) v (current_round s) (current_pick s)
             (your_roster s) (other_rosters s) (draft_order s).
Definition set_current_round (v : Z) (s : draft_state) : draft_state :=
  DraftState (picked_players s) (available_players s) v (current_pick s)
             (your_roster s) (other_rosters s) (draft_order s).
Definition set_current_pick (v : Z) (s : draft_state) : draft_state :=
  DraftState (picked_players s) (available_players s) (current_round s) v
             (your_roster s) (other_rosters s) (draft_order s).
Definition set_other_rosters (v : list (string * list string)) (s : draft_state)
  : draft_state :=
  DraftState (picked_players s) (available_players s) (current_round s) (current_pick s)
             (your_roster s) v (draft_order s).
Definition set_draft_order (v : list string) (s : draft_state) : draft_state :=
  DraftState (picked_players s) (available_players s) (current_round s) (current_pick s)
             (your_roster s) (other_rosters s) v.

(** [s.add(x)] on a set kept as a list without repetition. *)
Definition set_add (x : string) (s : list string) : list string :=
  if existsb (String.eqb x) s then s else s ++ [x].

(** [advance_draft_position] *)
Definition advance_draft_position (o : optimizer) : outcome :=
  let picks_per_round := Z.of_nat (List.length (draft_order (draft o))) in
  let s := set_current_pick (current_pick (draft o) + 1)%Z (draft o) in
  if (picks_per_round =? 0)%Z
  then (Optimizer s (player_rankings o), Some ZeroDivisionError)
  else (Optimizer
          (set_current_round ((current_pick s - 1) / picks_per_round + 1)%Z s)
          (player_rankings o), None).

(** [p['name'] != player_name] *)
Definition other_name (player_name : string) (p : player) : result bool :=
  name <- sdict_get p "name" ;; Ok (negb (String.eqb name player_name)).

(** [record_pick] *)
Definition record_pick (player_name owner : string) (o : optimizer) : outcome :=
  let s := set_picked_players (set_add player_name (picked_players (draft o))) (draft o) in
  let s :=
    match sdict_get (other_rosters s) owner with
    | Ok roster =>
        set_other_rosters
          (dict_set String.eqb (other_rosters s) owner (roster ++ [player_name])) s
    | Raise _ => s
    end in
  match comprehension_if (available_players s) (other_name player_name) with
  | Ok remaining =>
      advance_draft_position
        (Optimizer (set_available_players remaining s) (player_rankings o))
  | Raise e => (Optimizer s (player_rankings o), Some (Lookup e))
  end.

(** The loop [for i, player in enumerate(player_pool)] of [initialize_draft]. *)
Fixpoint rank_players (l : list (nat * player)) (o : optimizer) : outcome :=
  match l with
  | [] => (o, None)
  | (i, p) :: l' =>
      match sdict_get p "name" with
      | Ok name =>
          rank_players l'
            (Optimizer (draft o)
               (dict_set String.eqb (player_rankings o) name (Z.of_nat i + 1)%Z))
      | Raise e => (o, Some (Lookup e))
      end
  end.

(** [initialize_draft]; [None] and the empty list are both false in
    [if player_pool:]. *)
Definition initialize_draft (order : list string) (player_pool : option (list player))
  (o : optimizer) : outcome :=
  let s := set_draft_order order (draft o) in
  let s := set_other_rosters (sdict_of (map (fun owner => (owner, [])) order)) s in
  match player_pool with
  | Some (p :: pool) =>
      rank_players (enumerate (p :: pool))
        (Optimizer (set_available_players (p :: pool) s) (player_rankings o))
  | _ => (Optimizer s (player_rankings o), None)
  end.

(** A run of [record_pick] calls, stopping at the first exception. *)
Fixpoint record_picks (picks : list (string * string)) (o : optimizer) : outcome :=
  match picks with
  | [] => (o, None)
  | (player_name, owner) :: rest =>
      match record_pick player_name owner o with
      | (o', None) => record_picks rest o'
      | failed => failed
      end
  end.

(** The three messages of [get_next_pick_strategy]. *)
Inductive urgency : Type := ConsiderRuns | Moderate | Patient.

(** [get_next_pick_strategy]: the number interpolated into the message and
    which message it is. *)
Definition get_next_pick_strategy (current_pick : Z) : Z * urgency :=
  let picks_until_next :=
    (if negb (current_pick mod 32 =? 0) then 32 - current_pick mod 32 else 32)%Z in
  if (picks_until_next <=? 5)%Z then (picks_until_next, ConsiderRuns)
  else if (picks_until_next <=? 10)%Z then (picks_until_next, Moderate)
  else (picks_until_next, Patient).

(** The name of a player of a well-formed pool. *)
Definition name_of (p : player) : string :=
  match sdict_get p "name" with
  | Ok name => name
  | Raise _ => EmptyString
  end.

Definition named (p : player) : Prop := exists name, sdict_get p "name" = Ok name.

(** A small draft used to try the statements below. *)
Definition sample_order : list string := ["Ann"; "Bob"].
Definition sample_pool : list player :=
  [[("name", "P1")]; [("name", "P2")]; [("name", "P3")]].
Definition sample_picks : list (string * string) :=
  [("P2", "Ann"); ("P1", "Bob"); ("P3", "Ann")].

End Draft.

(* ===================================================================== *)
(** ** The summary as a function of what was extracted                    *)
(* ===================================================================== *)

(** [team_schedules[team]] and [div_of[team]] where the key is present. *)
Definition schedule_in (team_schedules : schedules) (team : string) : list team_game :=
  match sdict_get team_schedules team with
  | Ok sched => sched
  | Raise _ => []
  end.

Definition division_name (team : string) : string :=
  match sdict_get div_of team with
  | Ok d => d
  | Raise _ => EmptyString
  end.

(** The line of each per-team check, from the schedule of the team. *)
Definition total_balance_line (team : string) (sched : list team_game) : line :=
  let home := List.length (filter is_home sched) in
  let away := List.length (filter is_away sched) in
  TotalBalance team home away (home + away) (status_of ((home =? 7) && (away =? 7))).

Definition divisional_balance_line (team : string) (sched : list team_game) : line :=
  let home := List.length (filter (fun g => is_home g && is_type Division g) sched) in
  let away := List.length (filter (fun g => is_away g && is_type Division g) sched) in
  DivisionalBalance team home away (home + away) (status_of ((home =? 3) && (away =? 3))).

(** The pairs of positions [i < j] among the four teams of a division. *)
Definition pairs_of (div_teams : list string) : list (string * string) :=
  flat_map (fun i =>
              map (fun j => (nth i div_teams EmptyString, nth j div_teams EmptyString))
                  (range2 (i + 1) 4))
           (range 4).

Definition matchup_row (sched_of : string -> list team_game) (pair : string * string)
  : bool * line :=
  let hw := host_weeks (sched_of (fst pair)) (snd pair) in
  if truthy (fst hw) && truthy (snd hw)
  then (true, Hosts (fst pair) (snd pair) (fst hw) (snd hw))
  else (false, MissingBalance (fst pair) (snd pair)).

Definition matchup_lines (sched_of : string -> list team_game)
  (item : string * list string) : list line :=
  let rows := map (matchup_row sched_of) (pairs_of (snd item)) in
  map snd rows ++ (if forallb fst rows then [PerfectBalance (fst item)] else []).

Definition separation_line (sched_of : string -> list team_game) (pair : string * string)
  : list line :=
  match sorted (fun w => w)
          (map t_Week (filter (fun game => String.eqb (t_Opponent game) (snd pair))
                         (sched_of (fst pair)))) with
  | [week0; week1] =>
      [Separation (fst pair) (snd pair) week0 week1 (abs_diff week1 week0)
         (status_of (3 <=? abs_diff week1 week0))]
  | _ => []
  end.

Definition separation_lines (sched_of : string -> list team_game)
  (item : string * list string) : list line :=
  flat_map (separation_line sched_of) (pairs_of (snd item)).

Definition window_count (sched : list team_game) (w1 : nat) : nat :=
  List.length
    (filter (fun w => existsb (Nat.eqb w) [w1; w1 + 1; w1 + 2])
       (sorted (fun w => w) (map t_Week (filter (is_type Division) sched)))).

Definition density_line (team : string) (sched : list team_game) : line :=
  let windows := map (fun w1 => (w1, window_count sched w1)) (range2 1 13) in
  let max_consecutive := fold_left (fun acc c => Nat.max acc (snd c)) windows 0 in
  Density team max_consecutive (status_of (max_consecutive <=? 2))
    (map (fun c => (fst c, fst c + 2)) (filter (fun c => 2 <? snd c) windows)).

Definition last_eight_line (team : string) (sched : list team_game) : line :=
  let n := List.length (filter (fun g => is_type Division g && (7 <=? t_Week g)) sched) in
  LastEight team n (status_of (3 <=? n)).

Definition long_streaks (sched : list team_game) : list (nat * venue) :=
  snd (streaks_of (map t_Venue (sorted t_Week sched))).

Definition streak_line (team : string) (sched : list team_game) : line :=
  let r := streaks_of (map t_Venue (sorted t_Week sched)) in
  Streaks team (fst (fst r)) (snd (fst r)) (status_of (is_empty (long_streaks sched)))
    (long_streaks sched).

(** The opponents of another division met more than once. *)
Definition repeated_outsiders (team : string) (sched : list team_game)
  : list (string * nat) :=
  filter (fun oc => negb (String.eqb (division_name (fst oc)) (division_name team))
                    && (1 <? snd oc))
         (count_opponents sched).

Definition non_division_line (team : string) (sched : list team_game) : line :=
  NonDivision team (status_of (is_empty (repeated_outsiders team sched)))
    (repeated_outsiders team sched).

Definition breakdown_line (team : string) (sched : list team_game) : line :=
  let d := List.length (filter (is_type Division) sched) in
  let o := List.length (filter (is_type Opposite) sched) in
  let c := List.length (filter (fun g => existsb (game_type_eqb (t_Type g))
                                           [CrossDivision; Rivalry]) sched) in
  Breakdown team d o c (d + o + c) (status_of ((d =? 6) && (o =? 4) && (c =? 4))).

(** The lines of the eleven checks, in the order they are printed. *)
Definition summary_lines (games_by_week : list game_info)
  (sched_of : string -> list team_game) : list line :=
  map (fun team => total_balance_line team (sched_of team)) teams ++
  map (fun team => divisional_balance_line team (sched_of team)) teams ++
  check_rivalry_week games_by_week ++
  flat_map (matchup_lines sched_of) teams_by_div ++
  flat_map (separation_lines sched_of) teams_by_div ++
  map (fun team => density_line team (sched_of team)) teams ++
  map (fun team => last_eight_line team (sched_of team)) teams ++
  check_final_week games_by_week ++
  (map (fun team => streak_line team (sched_of team)) teams ++
   (if forallb (fun team => is_empty (long_streaks (sched_of team))) teams
    then [StreaksAll] else [])) ++
  (map (fun team => non_division_line team (sched_of team)) teams ++
   (if forallb (fun team => is_empty (repeated_outsiders team (sched_of team))) teams
    then [NonDivisionAll] else [])) ++
  map (fun team => breakdown_line team (sched_of team)) teams.

(** A constraint the script has added to the model. *)
Inductive emitted (c : constraint) : Prop :=
| Emitted (H : added model_cs c = true).

(* ===================================================================== *)
(** ** The script reaches the solver                                      *)
(* ===================================================================== *)

Lemma Ok_inj {A} (a b : A) : Ok a = Ok b -> a = b.
Proof. intros H. change (match Ok b with Ok x => a = x | Raise _ => False end).
  rewrite <- H. reflexivity. Qed.

Lemma build_model_ok : build_model rivals = Ok model_cs.
Proof.
  assert (H : is_ok (build_model rivals) = true) by (vm_compute; reflexivity).
  unfold model_cs, payload. destruct (build_model rivals); [reflexivity | discriminate H].
Qed.

Lemma satisfies_iff (m : assignment) :
  satisfies m <-> forallb (holds m) model_cs = true.
Proof.
  unfold satisfies. split.
  - intros [cs [E H]]. rewrite build_model_ok in E.
    apply Ok_inj in E. rewrite E. exact H.
  - intros H. exists model_cs. split; [apply build_model_ok | exact H].
Qed.

Lemma m0_satisfies : satisfies m0.
Proof. apply satisfies_iff. vm_compute. reflexivity. Qed.

Lemma T_eq : T = 16.
Proof. reflexivity. Qed.

Lemma model_covers1 :
  for_all2 T W (fun i w => added model_cs (expect1 i w)) = true.
Proof. vm_compute. reflexivity. Qed.

Lemma model_covers2 :
  for_all W (fun w => added model_cs (expect2 w)) = true.
Proof. vm_compute. reflexivity. Qed.

Lemma model_covers3 :
  for_all2 T T (fun i j =>
    if same_division i j && negb (i =? j)
    then if added model_cs (expect3 i j) then true else added model_cs (expect3 j i)
    else true) = true.
Proof. vm_compute. reflexivity. Qed.

Lemma model_covers4 :
  for_all2 T T (fun i j =>
    if opposite_division i j
    then if added model_cs (expect4 i j) then true else added model_cs (expect4 j i)
    else true) = true.
Proof. vm_compute. reflexivity. Qed.

Lemma model_covers5 :
  for_all T (fun i =>
    if added model_cs (expect5_home i) then added model_cs (expect5_away i) else false) = true.
Proof. vm_compute. reflexivity. Qed.

Lemma model_covers5b :
  for_all2 T T (fun i j =>
    if same_division i j && negb (i =? j) then added model_cs (expect5b i j) else true) = true.
Proof. vm_compute. reflexivity. Qed.

Lemma model_covers6 :
  for_all2 T T (fun i j =>
    if is_rival i j
    then if added model_cs (expect6 i j) then true else added model_cs (expect6 j i)
    else true) = true.
Proof. vm_compute. reflexivity. Qed.

Lemma model_covers7 :
  for_all2 T T (fun i j =>
    if same_division i j && negb (i =? j)
    then for_all2 W W (fun w1 w2 =>
           if (w1 <? w2) && (w2 <? w1 + separation_weeks)
           then if added model_cs (expect7 i j w1 w2) then true
                else added model_cs (expect7 j i w1 w2)
           else true)
    else true) = true.
Proof. vm_compute. reflexivity. Qed.

Lemma model_covers8 :
  for_all2 T (W - 2) (fun i w1 => added model_cs (expect8 i w1)) = true.
Proof. vm_compute. reflexivity. Qed.

Lemma model_covers9 :
  for_all T (fun i => added model_cs (expect9 i)) = true.
Proof. vm_compute. reflexivity. Qed.

Lemma model_covers10 :
  for_all2 T T (fun i j =>
    if negb (same_division i j) && negb (i =? j)
    then added model_cs (expect10 i j) else true) = true.
Proof. vm_compute. reflexivity. Qed.

Lemma model_covers11 :
  for_all2 T T (fun i j =>
    if negb (same_division i j) && negb (i =? j)
    then added model_cs (expect11 i j) else true) = true.
Proof. vm_compute. reflexivity. Qed.


(* ===================================================================== *)
(** ** Sums over lists                                                    *)
(* ===================================================================== *)

Local Open Scope Z_scope.

Lemma sumZ_app {A} (f : A -> Z) (l1 l2 : list A) :
  sumZ f (l1 ++ l2) = sumZ f l1 + sumZ f l2.
Proof. induction l1 as [|a l1 IH]; simpl; [reflexivity | rewrite IH; ring]. Qed.

Lemma sumZ_map {A B} (f : B -> Z) (g : A -> B) (l : list A) :
  sumZ f (map g l) = sumZ (fun a => f (g a)) l.
Proof. induction l as [|a l IH]; simpl; [reflexivity | rewrite IH; reflexivity]. Qed.

Lemma sumZ_flat_map {A B} (f : B -> Z) (g : A -> list B) (l : list A) :
  sumZ f (flat_map g l) = sumZ (fun a => sumZ f (g a)) l.
Proof.
  induction l as [|a l IH]; simpl; [reflexivity|].
  rewrite sumZ_app, IH. reflexivity.
Qed.

Lemma sumZ_ext {A} (f g : A -> Z) (l : list A) :
  (forall a, In a l -> f a = g a) -> sumZ f l = sumZ g l.
Proof.
  induction l as [|a l IH]; simpl; intros H; [reflexivity|].
  rewrite (H a), IH; auto.
Qed.

Lemma sumZ_plus {A} (f g : A -> Z) (l : list A) :
  sumZ (fun a => f a + g a) l = sumZ f l + sumZ g l.
Proof. induction l as [|a l IH]; simpl; [reflexivity | rewrite IH; ring]. Qed.

Lemma sumZ_zero {A} (l : list A) : sumZ (fun _ => 0) l = 0.
Proof. induction l as [|a l IH]; simpl; [reflexivity | exact IH]. Qed.

Lemma sumZ_swap {A B} (f : A -> B -> Z) (la : list A) (lb : list B) :
  sumZ (fun a => sumZ (fun b => f a b) lb) la =
  sumZ (fun b => sumZ (fun a => f a b) la) lb.
Proof.
  induction la as [|a la IH]; simpl.
  - symmetry. apply sumZ_zero.
  - rewrite IH, <- sumZ_plus. reflexivity.
Qed.

Lemma sumZ_filter_split {A} (f : A -> Z) (p : A -> bool) (l : list A) :
  sumZ f l = sumZ f (filter p l) + sumZ f (filter (fun a => negb (p a)) l).
Proof.
  induction l as [|a l IH]; simpl; [reflexivity|].
  destruct (p a); simpl; rewrite IH; ring.
Qed.

Lemma sumZ_const {A} (f : A -> Z) (k : Z) (l : list A) :
  (forall a, In a l -> f a = k) -> sumZ f l = k * Z.of_nat (List.length l).
Proof.
  induction l as [|a l IH]; intros H.
  - simpl. ring.
  - cbn [sumZ List.length]. rewrite Nat2Z.inj_succ.
    rewrite (H a) by (left; reflexivity).
    rewrite IH by (intros b Hb; apply H; right; exact Hb).
    ring.
Qed.

Lemma sumZ_nonneg {A} (f : A -> Z) (l : list A) :
  (forall a, In a l -> 0 <= f a) -> 0 <= sumZ f l.
Proof.
  induction l as [|a l IH]; simpl; intros H; [lia|].
  assert (0 <= f a) by auto. assert (0 <= sumZ f l) by auto. lia.
Qed.

Lemma sumZ_ge_member {A} (f : A -> Z) (l : list A) (x : A) :
  (forall a, In a l -> 0 <= f a) -> In x l -> f x <= sumZ f l.
Proof.
  induction l as [|a l IH]; simpl; intros H Hx; [contradiction|].
  assert (0 <= f a) by auto.
  assert (0 <= sumZ f l) by (apply sumZ_nonneg; auto).
  destruct Hx as [<- | Hx]; [lia|].
  assert (f x <= sumZ f l) by auto. lia.
Qed.

(** Two different members of a duplicate-free list both count. *)
Lemma sumZ_ge_two {A} (f : A -> Z) (l : list A) (x y : A) :
  (forall a, In a l -> 0 <= f a) -> NoDup l ->
  In x l -> In y l -> x <> y -> f x + f y <= sumZ f l.
Proof.
  induction l as [|a l IH]; simpl; intros H ND Hx Hy Hxy; [contradiction|].
  inversion ND as [|? ? Hnotin ND']; subst.
  assert (0 <= f a) by auto.
  assert (Hl : forall b, In b l -> 0 <= f b) by auto.
  destruct Hx as [<- | Hx], Hy as [<- | Hy].
  - congruence.
  - pose proof (sumZ_ge_member f l y Hl Hy). lia.
  - pose proof (sumZ_ge_member f l x Hl Hx). lia.
  - pose proof (IH Hl ND' Hx Hy Hxy). lia.
Qed.

(** A sum of zeros and ones counts the ones. *)
Lemma sumZ_count {A} (f : A -> Z) (l : list A) :
  (forall a, In a l -> f a = 0 \/ f a = 1) ->
  sumZ f l = Z.of_nat (List.length (filter (fun a => f a =? 1) l)).
Proof.
  induction l as [|a l IH]; intros H; [reflexivity|].
  cbn [sumZ filter]. rewrite IH by (intros b Hb; apply H; right; exact Hb).
  pose proof (H a (or_introl eq_refl)) as Ha.
  destruct (f a =? 1) eqn:E.
  - apply Z.eqb_eq in E. cbn [List.length]. lia.
  - apply Z.eqb_neq in E. lia.
Qed.
Local Close Scope Z_scope.

Lemma b2z_range (b : bool) : (0 <= Z.b2z b <= 1)%Z.
Proof. destruct b; simpl; lia. Qed.

Lemma played_range (m : assignment) (i j w : nat) : (0 <= played m i j w <= 2)%Z.
Proof.
  unfold played. pose proof (b2z_range (m i j w)). pose proof (b2z_range (m j i w)). lia.
Qed.

Lemma played_sym (m : assignment) (i j w : nat) : played m i j w = played m j i w.
Proof. unfold played. lia. Qed.

Lemma meetings_sym (m : assignment) (i j : nat) : meetings m i j = meetings m j i.
Proof. unfold meetings. apply sumZ_ext. intros w _. apply played_sym. Qed.

Lemma meetings_hosted (m : assignment) (i j : nat) :
  meetings m i j = (hosted m i j + hosted m j i)%Z.
Proof. unfold meetings, hosted, played. apply sumZ_plus. Qed.

Lemma sum_both_venues (m : assignment) (i j : nat) (weeks : list nat) :
  sumZ (value m) (both_venues i j weeks) = sumZ (fun w => played m i j w) weeks.
Proof.
  unfold both_venues. rewrite sumZ_flat_map. apply sumZ_ext.
  intros w _. unfold played. simpl. lia.
Qed.

Lemma sum_division_vars (m : assignment) (i : nat) (weeks : list nat) :
  sumZ (value m) (division_vars i weeks) = sumZ (fun w => division_games m i w) weeks.
Proof.
  unfold division_vars, division_games. rewrite sumZ_flat_map. apply sumZ_ext.
  intros w _. rewrite sumZ_flat_map. apply sumZ_ext.
  intros o _. unfold played. simpl. lia.
Qed.

(* ===================================================================== *)
(** ** From the added constraints to facts about an assignment            *)
(* ===================================================================== *)

Lemma all_in_spec (l : list nat) (p : nat -> bool) :
  all_in l p = true -> forall x, In x l -> p x = true.
Proof.
  induction l as [|a l IH]; simpl; intros H x Hx; [contradiction|].
  destruct (p a) eqn:E; [|discriminate].
  destruct Hx as [<- | Hx]; auto.
Qed.

Lemma for_all_spec (n : nat) (p : nat -> bool) :
  for_all n p = true -> forall i, i < n -> p i = true.
Proof.
  intros H i Hi. apply (all_in_spec _ _ H). unfold range. apply in_seq. lia.
Qed.

Lemma for_all2_spec (n k : nat) (p : nat -> nat -> bool) :
  for_all2 n k p = true -> forall i j, i < n -> j < k -> p i j = true.
Proof.
  intros H i j Hi Hj. unfold for_all2 in H.
  apply (for_all_spec k (p i)); [|exact Hj].
  apply (for_all_spec n (fun i => for_all k (p i)) H i Hi).
Qed.

Lemma var_eqb_eq (a b : var) : var_eqb a b = true -> a = b.
Proof.
  destruct a as [[i j] w], b as [[i' j'] w']. unfold var_eqb.
  destruct (i =? i') eqn:Ei; [|discriminate].
  destruct (j =? j') eqn:Ej; [|discriminate].
  intros Ew. apply Nat.eqb_eq in Ei, Ej, Ew. congruence.
Qed.

Lemma vars_eqb_eq (l1 l2 : list var) : vars_eqb l1 l2 = true -> l1 = l2.
Proof.
  revert l2. induction l1 as [|a l1 IH]; destruct l2 as [|b l2]; simpl;
    try discriminate; [reflexivity|].
  destruct (var_eqb a b) eqn:E; [|discriminate].
  intros H. apply var_eqb_eq in E. apply IH in H. congruence.
Qed.

Lemma constraint_eqb_eq (c1 c2 : constraint) : constraint_eqb c1 c2 = true -> c1 = c2.
Proof.
  destruct c1 as [l1 o1 k1], c2 as [l2 o2 k2]. unfold constraint_eqb. cbn [lhs op rhs].
  destruct (rel_eqb o1 o2) eqn:Eo; [|discriminate].
  destruct (k1 =? k2)%Z eqn:Ek; [|discriminate].
  intros El. apply vars_eqb_eq in El. apply Z.eqb_eq in Ek.
  destruct o1, o2; try discriminate; congruence.
Qed.

Lemma added_In (cs : list constraint) (c : constraint) : added cs c = true -> In c cs.
Proof.
  induction cs as [|c' cs IH]; simpl; [discriminate|].
  destruct (constraint_eqb c c') eqn:E.
  - intros _. left. symmetry. apply constraint_eqb_eq. exact E.
  - intros H. right. auto.
Qed.

Lemma satisfies_emitted (m : assignment) (c : constraint) :
  satisfies m -> emitted c -> holds m c = true.
Proof.
  intros Hm [Hc]. apply satisfies_iff in Hm.
  rewrite forallb_forall in Hm. apply Hm. apply added_In. exact Hc.
Qed.

Lemma either_emitted (c c' : constraint) :
  (if added model_cs c then true else added model_cs c') = true ->
  emitted c \/ emitted c'.
Proof.
  destruct (added model_cs c) eqn:E; intros H.
  - left. constructor. exact E.
  - right. constructor. exact H.
Qed.

Lemma for_all2_if (n k : nat) (c p : nat -> nat -> bool) :
  for_all2 n k (fun i j => if c i j then p i j else true) = true ->
  forall i j, i < n -> j < k -> c i j = true -> p i j = true.
Proof.
  intros H i j Hi Hj Hc.
  pose proof (for_all2_spec n k _ H i j Hi Hj) as H'. cbv beta in H'.
  rewrite Hc in H'. exact H'.
Qed.

Lemma distinct_same_division (i j : nat) :
  i <> j -> same_division i j = true -> same_division i j && negb (i =? j) = true.
Proof. intros Hij ->. apply Nat.eqb_neq in Hij. rewrite Hij. reflexivity. Qed.

Lemma distinct_other_division (i j : nat) :
  i <> j -> same_division i j = false ->
  negb (same_division i j) && negb (i =? j) = true.
Proof. intros Hij ->. apply Nat.eqb_neq in Hij. rewrite Hij. reflexivity. Qed.

Lemma holds_EQ (m : assignment) (vs : list var) (k : Z) :
  holds m (Add vs EQ k) = true -> sumZ (value m) vs = k.
Proof. unfold holds. cbn [lhs op rhs]. apply Z.eqb_eq. Qed.

Lemma holds_LE (m : assignment) (vs : list var) (k : Z) :
  holds m (Add vs LE k) = true -> (sumZ (value m) vs <= k)%Z.
Proof. unfold holds. cbn [lhs op rhs]. apply Z.leb_le. Qed.

Lemma holds_GE (m : assignment) (vs : list var) (k : Z) :
  holds m (Add vs GE k) = true -> (sumZ (value m) vs >= k)%Z.
Proof. unfold holds. cbn [lhs op rhs]. intros H. apply Z.geb_le in H. lia. Qed.


(* ===================================================================== *)
(** ** The constraints the script adds, family by family                  *)
(* ===================================================================== *)

Lemma emitted1 (i w : nat) : i < T -> w < W -> emitted (expect1 i w).
Proof.
  intros Hi Hw. constructor.
  exact (for_all2_spec T W (fun i w => added model_cs (expect1 i w))
           model_covers1 i w Hi Hw).
Qed.

Lemma emitted2 (w : nat) : w < W -> emitted (expect2 w).
Proof.
  intros Hw. constructor.
  exact (for_all_spec W (fun w => added model_cs (expect2 w)) model_covers2 w Hw).
Qed.

Lemma emitted3 (i j : nat) :
  i < T -> j < T -> i <> j -> same_division i j = true ->
  emitted (expect3 i j) \/ emitted (expect3 j i).
Proof.
  intros Hi Hj Hij Hd. apply either_emitted.
  exact (for_all2_if T T (fun i j => same_division i j && negb (i =? j))
           (fun i j => if added model_cs (expect3 i j) then true
                       else added model_cs (expect3 j i))
           model_covers3 i j Hi Hj (distinct_same_division i j Hij Hd)).
Qed.

Lemma emitted4 (i j : nat) :
  i < T -> j < T -> opposite_division i j = true ->
  emitted (expect4 i j) \/ emitted (expect4 j i).
Proof.
  intros Hi Hj Ho. apply either_emitted.
  exact (for_all2_if T T opposite_division
           (fun i j => if added model_cs (expect4 i j) then true
                       else added model_cs (expect4 j i))
           model_covers4 i j Hi Hj Ho).
Qed.

Lemma emitted5 (i : nat) :
  i < T -> emitted (expect5_home i) /\ emitted (expect5_away i).
Proof.
  intros Hi.
  pose proof (for_all_spec T
                (fun i => if added model_cs (expect5_home i)
                          then added model_cs (expect5_away i) else false)
                model_covers5 i Hi) as H.
  cbv beta in H.
  destruct (added model_cs (expect5_home i)) eqn:E; [|discriminate H].
  split; constructor; assumption.
Qed.

Lemma emitted5b (i j : nat) :
  i < T -> j < T -> i <> j -> same_division i j = true -> emitted (expect5b i j).
Proof.
  intros Hi Hj Hij Hd. constructor.
  exact (for_all2_if T T (fun i j => same_division i j && negb (i =? j))
           (fun i j => added model_cs (expect5b i j))
           model_covers5b i j Hi Hj (distinct_same_division i j Hij Hd)).
Qed.

Lemma emitted6 (i j : nat) :
  i < T -> j < T -> is_rival i j = true ->
  emitted (expect6 i j) \/ emitted (expect6 j i).
Proof.
  intros Hi Hj Hr. apply either_emitted.
  exact (for_all2_if T T is_rival
           (fun i j => if added model_cs (expect6 i j) then true
                       else added model_cs (expect6 j i))
           model_covers6 i j Hi Hj Hr).
Qed.

Lemma emitted7 (i j w1 w2 : nat) :
  i < T -> j < T -> i <> j -> same_division i j = true ->
  w1 < w2 -> w2 < w1 + separation_weeks -> w2 < W ->
  emitted (expect7 i j w1 w2) \/ emitted (expect7 j i w1 w2).
Proof.
  intros Hi Hj Hij Hd H12 H21 Hw2. apply either_emitted.
  assert (Hw1 : w1 < W) by lia.
  assert (Hc : (w1 <? w2) && (w2 <? w1 + separation_weeks) = true).
  { apply andb_true_intro. split; apply Nat.ltb_lt; assumption. }
  refine (for_all2_if W W (fun w1 w2 => (w1 <? w2) && (w2 <? w1 + separation_weeks))
            (fun w1 w2 => if added model_cs (expect7 i j w1 w2) then true
                          else added model_cs (expect7 j i w1 w2))
            _ w1 w2 Hw1 Hw2 Hc).
  exact (for_all2_if T T (fun i j => same_division i j && negb (i =? j))
           (fun i j => for_all2 W W (fun w1 w2 =>
              if (w1 <? w2) && (w2 <? w1 + separation_weeks)
              then if added model_cs (expect7 i j w1 w2) then true
                   else added model_cs (expect7 j i w1 w2)
              else true))
           model_covers7 i j Hi Hj (distinct_same_division i j Hij Hd)).
Qed.

Lemma emitted8 (i w1 : nat) : i < T -> w1 < W - 2 -> emitted (expect8 i w1).
Proof.
  intros Hi Hw. constructor.
  exact (for_all2_spec T (W - 2) (fun i w1 => added model_cs (expect8 i w1))
           model_covers8 i w1 Hi Hw).
Qed.

Lemma emitted9 (i : nat) : i < T -> emitted (expect9 i).
Proof.
  intros Hi. constructor.
  exact (for_all_spec T (fun i => added model_cs (expect9 i)) model_covers9 i Hi).
Qed.

Lemma emitted10 (i j : nat) :
  i < T -> j < T -> i <> j -> same_division i j = false -> emitted (expect10 i j).
Proof.
  intros Hi Hj Hij Hd. constructor.
  exact (for_all2_if T T (fun i j => negb (same_division i j) && negb (i =? j))
           (fun i j => added model_cs (expect10 i j))
           model_covers10 i j Hi Hj (distinct_other_division i j Hij Hd)).
Qed.

Lemma emitted11 (i j : nat) :
  i < T -> j < T -> i <> j -> same_division i j = false -> emitted (expect11 i j).
Proof.
  intros Hi Hj Hij Hd. constructor.
  exact (for_all2_if T T (fun i j => negb (same_division i j) && negb (i =? j))
           (fun i j => added model_cs (expect11 i j))
           model_covers11 i j Hi Hj (distinct_other_division i j Hij Hd)).
Qed.

(* ===================================================================== *)
(** ** What each constraint family says about a satisfying assignment     *)
(* ===================================================================== *)

Section Families.
Variable m : assignment.
Hypothesis Hm : satisfies m.
Local Open Scope Z_scope.

Lemma one_game_per_week (i w : nat) :
  (i < T)%nat -> (w < W)%nat -> games_of m i w = 1.
Proof.
  intros Hi Hw.
  pose proof (satisfies_emitted m _ Hm (emitted1 i w Hi Hw)) as H.
  apply holds_EQ in H. rewrite sumZ_app, !sumZ_map in H.
  unfold games_of, played. rewrite sumZ_plus. exact H.
Qed.

Lemma games_per_week (w : nat) : (w < W)%nat -> games_in_week m w = G.
Proof.
  intros Hw.
  pose proof (satisfies_emitted m _ Hm (emitted2 w Hw)) as H.
  apply holds_EQ in H. rewrite sumZ_flat_map in H. unfold games_in_week.
  rewrite <- H. apply sumZ_ext. intros i _. rewrite sumZ_map. reflexivity.
Qed.

Lemma home_away_balance (i : nat) :
  (i < T)%nat -> home_games m i = 7 /\ away_games m i = 7.
Proof.
  intros Hi. destruct (emitted5 i Hi) as [Eh Ea].
  apply (satisfies_emitted m _ Hm), holds_EQ in Eh, Ea.
  rewrite sumZ_flat_map in Eh, Ea. unfold home_games, away_games. split.
  - rewrite <- Eh. apply sumZ_ext. intros w _. rewrite sumZ_map. reflexivity.
  - rewrite <- Ea. apply sumZ_ext. intros w _. rewrite sumZ_map. reflexivity.
Qed.

Lemma division_pair_twice (i j : nat) :
  (i < T)%nat -> (j < T)%nat -> i <> j -> same_division i j = true ->
  meetings m i j = 2.
Proof.
  intros Hi Hj Hij Hd.
  destruct (emitted3 i j Hi Hj Hij Hd) as [H | H];
    apply (satisfies_emitted m _ Hm), holds_EQ in H; rewrite sum_both_venues in H.
  - exact H.
  - rewrite meetings_sym. exact H.
Qed.

Lemma division_pair_host_once (i j : nat) :
  (i < T)%nat -> (j < T)%nat -> i <> j -> same_division i j = true ->
  hosted m i j = 1.
Proof.
  intros Hi Hj Hij Hd.
  pose proof (satisfies_emitted m _ Hm (emitted5b i j Hi Hj Hij Hd)) as H.
  apply holds_EQ in H. rewrite sumZ_map in H. exact H.
Qed.

Lemma opposite_pair_once (i j : nat) :
  (i < T)%nat -> (j < T)%nat -> opposite_division i j = true ->
  meetings m i j = 1.
Proof.
  intros Hi Hj Ho.
  destruct (emitted4 i j Hi Hj Ho) as [H | H];
    apply (satisfies_emitted m _ Hm), holds_EQ in H; rewrite sum_both_venues in H.
  - exact H.
  - rewrite meetings_sym. exact H.
Qed.

Lemma rivals_meet_in_rivalry_week (i j : nat) :
  (i < T)%nat -> (j < T)%nat -> is_rival i j = true ->
  played m i j rivalry_week = 1.
Proof.
  intros Hi Hj Hr.
  destruct (emitted6 i j Hi Hj Hr) as [H | H];
    apply (satisfies_emitted m _ Hm), holds_EQ in H;
    cbn [sumZ value] in H; unfold played; lia.
Qed.

Lemma division_legs_apart (i j w1 w2 : nat) :
  (i < T)%nat -> (j < T)%nat -> i <> j -> same_division i j = true ->
  (w1 < w2)%nat -> (w2 < w1 + separation_weeks)%nat -> (w2 < W)%nat ->
  played m i j w1 + played m i j w2 <= 1.
Proof.
  intros Hi Hj Hij Hd H12 H21 Hw2.
  destruct (emitted7 i j w1 w2 Hi Hj Hij Hd H12 H21 Hw2) as [H | H];
    apply (satisfies_emitted m _ Hm), holds_LE in H;
    cbn [sumZ value] in H; unfold played; lia.
Qed.

Lemma division_density_cap (i w1 : nat) :
  (i < T)%nat -> (w1 + 2 < W)%nat ->
  division_games m i w1 + division_games m i (w1 + 1) + division_games m i (w1 + 2) <= 2.
Proof.
  intros Hi Hw.
  assert (Hw' : (w1 < W - 2)%nat) by (unfold W in *; lia).
  pose proof (satisfies_emitted m _ Hm (emitted8 i w1 Hi Hw')) as H.
  apply holds_LE in H. rewrite sum_division_vars in H. cbn [sumZ] in H. lia.
Qed.

Lemma division_density_floor (i : nat) :
  (i < T)%nat -> sumZ (fun w => division_games m i w) last_8_weeks >= 3.
Proof.
  intros Hi.
  pose proof (satisfies_emitted m _ Hm (emitted9 i Hi)) as H.
  apply holds_GE in H. rewrite sum_division_vars in H. exact H.
Qed.

Lemma non_division_at_most_once (i j : nat) :
  (i < T)%nat -> (j < T)%nat -> i <> j -> same_division i j = false ->
  meetings m i j <= 1.
Proof.
  intros Hi Hj Hij Hd.
  pose proof (satisfies_emitted m _ Hm (emitted10 i j Hi Hj Hij Hd)) as H.
  apply holds_LE in H. rewrite sum_both_venues in H. exact H.
Qed.

Lemma final_week_no_cross (i j : nat) :
  (i < T)%nat -> (j < T)%nat -> i <> j -> same_division i j = false ->
  m i j final_week = false.
Proof.
  intros Hi Hj Hij Hd.
  pose proof (satisfies_emitted m _ Hm (emitted11 i j Hi Hj Hij Hd)) as H.
  apply holds_EQ in H. cbn [sumZ value] in H.
  destruct (m i j final_week); [discriminate H | reflexivity].
Qed.
End Families.

(* ===================================================================== *)
(** ** Facts about the league tables                                      *)
(* ===================================================================== *)

Lemma same_division_sym (i j : nat) : same_division i j = same_division j i.
Proof.
  unfold same_division. destruct (division i), (division j); try reflexivity.
  apply String.eqb_sym.
Qed.

Lemma others_In (i j : nat) : In j (others i) <-> j < T /\ j <> i.
Proof.
  unfold others, range. rewrite filter_In, in_seq, negb_true_iff, Nat.eqb_neq. lia.
Qed.

Lemma div_opps_In (i j : nat) :
  In j (div_opps i) <-> (j < T /\ j <> i) /\ same_division i j = true.
Proof. unfold div_opps. rewrite filter_In, others_In. tauto. Qed.

Lemma non_div_opps_In (i j : nat) :
  In j (non_div_opps i) <-> (j < T /\ j <> i) /\ same_division i j = false.
Proof. unfold non_div_opps. rewrite filter_In, others_In, negb_true_iff. tauto. Qed.

Lemma opp_opps_In (i j : nat) :
  In j (opp_opps i) <->
  ((j < T /\ j <> i) /\ same_division i j = false) /\ opposite_division i j = true.
Proof. unfold opp_opps. rewrite filter_In, non_div_opps_In. tauto. Qed.

Lemma cross_opps_In (i j : nat) :
  In j (cross_opps i) <->
  ((j < T /\ j <> i) /\ same_division i j = false) /\ opposite_division i j = false.
Proof. unfold cross_opps. rewrite filter_In, non_div_opps_In, negb_true_iff. tauto. Qed.

Lemma opponents_by_kind :
  for_all T (fun i =>
    (List.length (div_opps i) =? 3) && (List.length (opp_opps i) =? 4)
    && (List.length (cross_opps i) =? 8)
    && existsb (is_rival i) (cross_opps i)) = true.
Proof. vm_compute. reflexivity. Qed.

Lemma rivals_ok : forallb rival_ok rivals = true.
Proof. vm_compute. reflexivity. Qed.

Lemma range_NoDup (n : nat) : NoDup (range n).
Proof. apply seq_NoDup. Qed.

Lemma range_In (n w : nat) : In w (range n) <-> w < n.
Proof. unfold range. rewrite in_seq. lia. Qed.

Lemma meetings_nonneg (m : assignment) (i j : nat) : (0 <= meetings m i j)%Z.
Proof.
  unfold meetings. apply sumZ_nonneg. intros w _. apply played_range.
Qed.

(* ===================================================================== *)
(** ** Consequences for every satisfying assignment                       *)
(* ===================================================================== *)

Lemma played_at_most_once (m : assignment) (i j w : nat) :
  satisfies m -> i < T -> j < T -> i <> j -> w < W -> (played m i j w <= 1)%Z.
Proof.
  intros Hm Hi Hj Hij Hw.
  rewrite <- (one_game_per_week m Hm i w Hi Hw). unfold games_of.
  apply (sumZ_ge_member (fun j => played m i j w)).
  - intros a _. apply played_range.
  - apply others_In. split; [exact Hj | congruence].
Qed.

Lemma rival_pair_once (m : assignment) (a b : nat) :
  satisfies m -> a < T -> b < T -> a <> b ->
  is_rival a b = true -> same_division a b = false ->
  (meetings m a b = 1%Z /\ played m a b rivalry_week = 1%Z /\
   forall w, w < W -> w <> rivalry_week -> played m a b w = 0%Z).
Proof.
  intros Hm Ha Hb Hab Hr Hd.
  pose proof (rivals_meet_in_rivalry_week m Hm a b Ha Hb Hr) as H9.
  pose proof (non_division_at_most_once m Hm a b Ha Hb Hab Hd) as H1.
  assert (Hnn : forall w, In w (range W) -> (0 <= played m a b w)%Z)
    by (intros w _; apply played_range).
  assert (Hin : In rivalry_week (range W)) by (apply range_In; unfold rivalry_week, W; lia).
  pose proof (sumZ_ge_member (fun w => played m a b w) (range W) rivalry_week Hnn Hin) as Hge.
  fold (meetings m a b) in Hge. cbv beta in Hge.
  repeat split; [lia | exact H9 |].
  intros w Hw Hne.
  assert (Hin' : In w (range W)) by (apply range_In; exact Hw).
  pose proof (sumZ_ge_two (fun w => played m a b w) (range W) w rivalry_week
                Hnn (range_NoDup W) Hin' Hin Hne) as H2.
  fold (meetings m a b) in H2. cbv beta in H2.
  pose proof (played_range m a b w). lia.
Qed.

(** C3: each of the 8 rivalry pairs meets exactly once over the whole
    season, in the rivalry week (week 10, index 9), and in no other week. *)
Theorem C3_rivalry_pairs_meet_once_in_week_10 (m : assignment) :
  satisfies m ->
  List.length rivals = 8 /\ rivalry_week = 9 /\
  forall t1 t2, In (t1, t2) rivals ->
    exists a b,
      sdict_get idx t1 = Ok a /\ sdict_get idx t2 = Ok b /\
      (meetings m a b = 1%Z /\ played m a b rivalry_week = 1%Z /\
       forall w, w < W -> w <> rivalry_week -> played m a b w = 0%Z).
Proof.
  intros Hm. split; [reflexivity|]. split; [reflexivity|].
  intros t1 t2 Hin.
  pose proof rivals_ok as Hok. rewrite forallb_forall in Hok.
  specialize (Hok (t1, t2) Hin). unfold rival_ok in Hok. cbn [fst snd] in Hok.
  destruct (sdict_get idx t1) as [a|] eqn:Ea; [|discriminate].
  destruct (sdict_get idx t2) as [b|] eqn:Eb; [|discriminate].
  rewrite !andb_true_iff, !negb_true_iff, !Nat.ltb_lt, Nat.eqb_neq in Hok.
  destruct Hok as [[[[Ha Hb] Hab] Hr] Hd].
  exists a, b. split; [reflexivity|]. split; [reflexivity|].
  apply rival_pair_once; assumption.
Qed.

Lemma C3_witness :
  satisfies m0 /\ In ("Thor", "Nick") rivals /\
  exists a b,
    sdict_get idx "Thor" = Ok a /\ sdict_get idx "Nick" = Ok b /\
    (meetings m0 a b = 1%Z /\ played m0 a b rivalry_week = 1%Z /\
     forall w, w < W -> w <> rivalry_week -> played m0 a b w = 0%Z).
Proof.
  split; [exact m0_satisfies|].
  split; [simpl; tauto|].
  apply (proj2 (proj2 (C3_rivalry_pairs_meet_once_in_week_10 m0 m0_satisfies))).
  simpl; tauto.
Defined.

(** C4: the two legs of a division pair never fall in two weeks less than
    the separation (3 weeks) apart, nor in the same week, so the two weeks in
    which the pair meets differ by at least 3. *)
Theorem C4_division_legs_three_weeks_apart (m : assignment) :
  satisfies m ->
  forall i j, i < T -> j < T -> i <> j -> same_division i j = true ->
    separation_weeks = 3 /\
    (forall w1 w2, w1 < w2 -> w2 < w1 + separation_weeks -> w2 < W ->
       (played m i j w1 + played m i j w2 <= 1)%Z) /\
    (forall w, w < W -> (played m i j w <= 1)%Z) /\
    (forall w1 w2, w1 < W -> w2 < W -> w1 <> w2 ->
       played m i j w1 = 1%Z -> played m i j w2 = 1%Z ->
       w1 + separation_weeks <= w2 \/ w2 + separation_weeks <= w1).
Proof.
  intros Hm i j Hi Hj Hij Hd. split; [reflexivity|].
  assert (Hclose : forall w1 w2, w1 < w2 -> w2 < w1 + separation_weeks -> w2 < W ->
                     (played m i j w1 + played m i j w2 <= 1)%Z).
  { intros w1 w2. apply division_legs_apart; assumption. }
  split; [exact Hclose|]. split.
  - intros w Hw. apply played_at_most_once; assumption.
  - intros w1 w2 Hw1 Hw2 Hne E1 E2.
    destruct (Nat.lt_ge_cases w1 w2) as [Hlt | Hge].
    + destruct (Nat.lt_ge_cases w2 (w1 + separation_weeks)) as [Hc | Hf]; [|left; exact Hf].
      pose proof (Hclose w1 w2 Hlt Hc Hw2). lia.
    + assert (Hlt : w2 < w1) by lia.
      destruct (Nat.lt_ge_cases w1 (w2 + separation_weeks)) as [Hc | Hf]; [|right; exact Hf].
      pose proof (Hclose w2 w1 Hlt Hc Hw1). lia.
Qed.

Lemma C4_witness :
  satisfies m0 /\ 0 < T /\ 1 < T /\ 0 <> 1 /\ same_division 0 1 = true /\
  (separation_weeks = 3 /\
   (forall w1 w2, w1 < w2 -> w2 < w1 + separation_weeks -> w2 < W ->
      (played m0 0 1 w1 + played m0 0 1 w2 <= 1)%Z) /\
   (forall w, w < W -> (played m0 0 1 w <= 1)%Z) /\
   (forall w1 w2, w1 < W -> w2 < W -> w1 <> w2 ->
      played m0 0 1 w1 = 1%Z -> played m0 0 1 w2 = 1%Z ->
      w1 + separation_weeks <= w2 \/ w2 + separation_weeks <= w1)).
Proof.
  split; [exact m0_satisfies|].
  split; [vm_compute; lia|]. split; [vm_compute; lia|].
  split; [lia|]. split; [reflexivity|].
  apply (C4_division_legs_three_weeks_apart m0 m0_satisfies 0 1);
    [vm_compute; lia | vm_compute; lia | lia | reflexivity].
Defined.

(** C5: every team plays exactly one game in each of the 14 weeks (14 games,
    no byes), every week has exactly 8 games, and every team has exactly 7
    home and 7 away games. *)
Theorem C5_one_game_a_week_eight_games_seven_home (m : assignment) :
  satisfies m ->
  W = 14 /\
  (forall i w, i < T -> w < W -> games_of m i w = 1%Z) /\
  (forall i, i < T -> season_games m i = 14%Z) /\
  (forall w, w < W -> games_in_week m w = 8%Z) /\
  (forall i, i < T -> home_games m i = 7%Z /\ away_games m i = 7%Z).
Proof.
  intros Hm. split; [reflexivity|]. split; [|split; [|split]].
  - intros i w. apply one_game_per_week. exact Hm.
  - intros i Hi. unfold season_games.
    rewrite (sumZ_const (fun w => games_of m i w) 1%Z).
    + reflexivity.
    + intros w Hw. apply one_game_per_week; [exact Hm | exact Hi |].
      apply range_In. exact Hw.
  - intros w Hw. apply (games_per_week m Hm w Hw).
  - intros i. apply home_away_balance. exact Hm.
Qed.

Lemma C5_witness :
  satisfies m0 /\
  (W = 14 /\
   (forall i w, i < T -> w < W -> games_of m0 i w = 1%Z) /\
   (forall i, i < T -> season_games m0 i = 14%Z) /\
   (forall w, w < W -> games_in_week m0 w = 8%Z) /\
   (forall i, i < T -> home_games m0 i = 7%Z /\ away_games m0 i = 7%Z)).
Proof.
  split; [exact m0_satisfies|].
  exact (C5_one_game_a_week_eight_games_seven_home m0 m0_satisfies).
Defined.

(** C6: every pair of teams of one division meets exactly twice, and each of
    the two hosts exactly one of the two meetings. *)
Theorem C6_division_pairs_twice_once_each_home (m : assignment) :
  satisfies m ->
  forall i j, i < T -> j < T -> i <> j -> same_division i j = true ->
    (meetings m i j = 2 /\ hosted m i j = 1 /\ hosted m j i = 1)%Z.
Proof.
  intros Hm i j Hi Hj Hij Hd. split; [|split].
  - apply division_pair_twice; assumption.
  - apply division_pair_host_once; assumption.
  - apply division_pair_host_once; try assumption.
    + congruence.
    + rewrite same_division_sym. exact Hd.
Qed.

Lemma C6_witness :
  satisfies m0 /\ 4 < T /\ 7 < T /\ 4 <> 7 /\ same_division 4 7 = true /\
  (meetings m0 4 7 = 2 /\ hosted m0 4 7 = 1 /\ hosted m0 7 4 = 1)%Z.
Proof.
  split; [exact m0_satisfies|].
  split; [vm_compute; lia|]. split; [vm_compute; lia|].
  split; [lia|]. split; [reflexivity|].
  apply (C6_division_pairs_twice_once_each_home m0 m0_satisfies 4 7);
    [vm_compute; lia | vm_compute; lia | lia | reflexivity].
Defined.

(** C7: two teams of opposite divisions (North/South, East/West) meet exactly
    once; any two teams of different divisions meet at most once. *)
Theorem C7_opposite_once_other_cross_at_most_once (m : assignment) :
  satisfies m ->
  forall i j, i < T -> j < T -> i <> j ->
    (opposite_division i j = true -> meetings m i j = 1%Z) /\
    (same_division i j = false -> (meetings m i j <= 1)%Z).
Proof.
  intros Hm i j Hi Hj Hij. split.
  - intros Ho. apply opposite_pair_once; assumption.
  - intros Hd. apply non_division_at_most_once; assumption.
Qed.

Lemma C7_witness :
  satisfies m0 /\ 0 < T /\ 4 < T /\ 0 <> 4 /\
  ((opposite_division 0 4 = true -> meetings m0 0 4 = 1%Z) /\
   (same_division 0 4 = false -> (meetings m0 0 4 <= 1)%Z)).
Proof.
  split; [exact m0_satisfies|].
  split; [vm_compute; lia|]. split; [vm_compute; lia|]. split; [lia|].
  apply (C7_opposite_once_other_cross_at_most_once m0 m0_satisfies 0 4);
    [vm_compute; lia | vm_compute; lia | lia].
Defined.

(** C8: every game of the final week (week 14, index 13) is between two
    teams of the same division. *)
Theorem C8_final_week_divisional (m : assignment) :
  satisfies m ->
  final_week = 13 /\
  forall i j, i < T -> j < T -> i <> j ->
    m i j final_week = true -> same_division i j = true.
Proof.
  intros Hm. split; [reflexivity|].
  intros i j Hi Hj Hij Hg.
  destruct (same_division i j) eqn:Hd; [reflexivity|].
  rewrite (final_week_no_cross m Hm i j Hi Hj Hij Hd) in Hg. discriminate Hg.
Qed.

Lemma C8_witness :
  satisfies m0 /\
  (final_week = 13 /\
   forall i j, i < T -> j < T -> i <> j ->
     m0 i j final_week = true -> same_division i j = true).
Proof.
  split; [exact m0_satisfies|].
  exact (C8_final_week_divisional m0 m0_satisfies).
Defined.

(** C9: every team plays at most 2 division games in any 3 consecutive weeks
    and at least 3 division games in weeks 7 through 14. *)
Theorem C9_division_density (m : assignment) :
  satisfies m ->
  last_8_weeks = [6; 7; 8; 9; 10; 11; 12; 13] /\
  forall i, i < T ->
    (forall w1, w1 + 2 < W ->
       (division_games m i w1 + division_games m i (w1 + 1)
        + division_games m i (w1 + 2) <= 2)%Z) /\
    (sumZ (fun w => division_games m i w) last_8_weeks >= 3)%Z.
Proof.
  intros Hm. split; [reflexivity|]. intros i Hi. split.
  - intros w1 Hw. apply division_density_cap; assumption.
  - apply division_density_floor; assumption.
Qed.

Lemma C9_witness :
  satisfies m0 /\
  (last_8_weeks = [6; 7; 8; 9; 10; 11; 12; 13] /\
   forall i, i < T ->
     (forall w1, w1 + 2 < W ->
        (division_games m0 i w1 + division_games m0 i (w1 + 1)
         + division_games m0 i (w1 + 2) <= 2)%Z) /\
     (sumZ (fun w => division_games m0 i w) last_8_weeks >= 3)%Z).
Proof.
  split; [exact m0_satisfies|].
  exact (C9_division_density m0 m0_satisfies).
Defined.

Lemma season_games_by_opponent (m : assignment) (i : nat) :
  season_games m i = sumZ (fun j => meetings m i j) (others i).
Proof.
  unfold season_games, games_of, meetings.
  apply (sumZ_swap (fun w j => played m i j w)).
Qed.

Lemma opponents_split (f : nat -> Z) (i : nat) :
  sumZ f (others i)
  = (sumZ f (div_opps i) + sumZ f (opp_opps i) + sumZ f (cross_opps i))%Z.
Proof.
  rewrite (sumZ_filter_split f (same_division i) (others i)).
  fold (div_opps i). fold (non_div_opps i).
  rewrite (sumZ_filter_split f (opposite_division i) (non_div_opps i)).
  fold (opp_opps i). fold (cross_opps i). ring.
Qed.

Lemma opponents_counts (i : nat) :
  i < T ->
  List.length (div_opps i) = 3 /\ List.length (opp_opps i) = 4 /\
  List.length (cross_opps i) = 8 /\ existsb (is_rival i) (cross_opps i) = true.
Proof.
  intros Hi. pose proof (for_all_spec _ _ opponents_by_kind i Hi) as H.
  cbv beta in H. rewrite !andb_true_iff, !Nat.eqb_eq in H. tauto.
Qed.

(** C10: each team's 14 games are 6 games against its 3 division opponents,
    4 against the 4 teams of the opposite division, and 4 against 4 distinct
    teams of the two other divisions, one of which is its rival. *)
Theorem C10_opponent_breakdown (m : assignment) :
  satisfies m ->
  forall i, i < T ->
    season_games m i = 14%Z /\
    sumZ (fun j => meetings m i j) (div_opps i) = 6%Z /\
    sumZ (fun j => meetings m i j) (opp_opps i) = 4%Z /\
    sumZ (fun j => meetings m i j) (cross_opps i) = 4%Z /\
    (forall j, In j (cross_opps i) -> meetings m i j = 0%Z \/ meetings m i j = 1%Z) /\
    List.length (filter (fun j => (meetings m i j =? 1)%Z) (cross_opps i)) = 4 /\
    exists r, In r (cross_opps i) /\ is_rival i r = true /\ meetings m i r = 1%Z.
Proof.
  intros Hm i Hi.
  destruct (opponents_counts i Hi) as [Ld [Lo [_ Hr]]].
  assert (H14 : season_games m i = 14%Z).
  { unfold season_games. rewrite (sumZ_const (fun w => games_of m i w) 1%Z).
    - reflexivity.
    - intros w Hw. apply one_game_per_week; [exact Hm | exact Hi |].
      apply range_In. exact Hw. }
  assert (Hdiv : sumZ (fun j => meetings m i j) (div_opps i) = 6%Z).
  { rewrite (sumZ_const (fun j => meetings m i j) 2%Z), Ld; [reflexivity|].
    intros j Hj. apply div_opps_In in Hj. destruct Hj as [[Hj Hne] Hd].
    apply division_pair_twice; try assumption. congruence. }
  assert (Hopp : sumZ (fun j => meetings m i j) (opp_opps i) = 4%Z).
  { rewrite (sumZ_const (fun j => meetings m i j) 1%Z), Lo; [reflexivity|].
    intros j Hj. apply opp_opps_In in Hj. destruct Hj as [[[Hj Hne] Hd] Ho].
    apply opposite_pair_once; assumption. }
  assert (Hcross : sumZ (fun j => meetings m i j) (cross_opps i) = 4%Z).
  { pose proof (season_games_by_opponent m i) as E.
    rewrite opponents_split in E. lia. }
  assert (H01 : forall j, In j (cross_opps i) ->
                  meetings m i j = 0%Z \/ meetings m i j = 1%Z).
  { intros j Hj. apply cross_opps_In in Hj. destruct Hj as [[[Hj Hne] Hd] _].
    assert (i <> j) by congruence.
    pose proof (non_division_at_most_once m Hm i j Hi Hj H Hd).
    pose proof (meetings_nonneg m i j). lia. }
  repeat split; try assumption.
  - pose proof (sumZ_count (fun j => meetings m i j) (cross_opps i) H01) as Hc.
    cbv beta in Hc. lia.
  - apply existsb_exists in Hr. destruct Hr as [r [Hin Hriv]].
    exists r. split; [exact Hin|]. split; [exact Hriv|].
    apply cross_opps_In in Hin. destruct Hin as [[[Hj Hne] Hd] _].
    assert (i <> r) by congruence.
    apply (rival_pair_once m i r Hm Hi Hj H Hriv Hd).
Qed.

Lemma C10_witness :
  satisfies m0 /\ 5 < T /\
  (season_games m0 5 = 14%Z /\
   sumZ (fun j => meetings m0 5 j) (div_opps 5) = 6%Z /\
   sumZ (fun j => meetings m0 5 j) (opp_opps 5) = 4%Z /\
   sumZ (fun j => meetings m0 5 j) (cross_opps 5) = 4%Z /\
   (forall j, In j (cross_opps 5) -> meetings m0 5 j = 0%Z \/ meetings m0 5 j = 1%Z) /\
   List.length (filter (fun j => (meetings m0 5 j =? 1)%Z) (cross_opps 5)) = 4 /\
   exists r, In r (cross_opps 5) /\ is_rival 5 r = true /\ meetings m0 5 r = 1%Z).
Proof.
  split; [exact m0_satisfies|].
  split; [vm_compute; lia|].
  apply (C10_opponent_breakdown m0 m0_satisfies 5). vm_compute; lia.
Defined.

(* ===================================================================== *)
(** ** Model construction for an arbitrary rivalry table                  *)
(* ===================================================================== *)

Lemma is_ok_Ok {A} (r : result A) : is_ok r = true -> exists a, r = Ok a.
Proof. destruct r as [a|e]; [exists a; reflexivity | discriminate]. Qed.

Lemma constraints_1_to_5b_ok : exists cs, constraints_1_to_5b = Ok cs.
Proof. apply is_ok_Ok. vm_compute. reflexivity. Qed.

Lemma constraints_7_to_12_ok : exists cs, constraints_7_to_12 = Ok cs.
Proof. apply is_ok_Ok. vm_compute. reflexivity. Qed.

Lemma teams_indexed : forallb team_indexed teams = true.
Proof. vm_compute. reflexivity. Qed.

Lemma team_index (t : string) :
  In t teams ->
  exists a, sdict_get idx t = Ok a /\ a < T /\ ndict_get idx_to_team a = Ok t.
Proof.
  intros Hin. pose proof teams_indexed as H. rewrite forallb_forall in H.
  specialize (H t Hin). unfold team_indexed in H.
  destruct (sdict_get idx t) as [a|]; [|discriminate].
  apply andb_true_iff in H. destruct H as [Ha Hb].
  destruct (ndict_get idx_to_team a) as [t'|] eqn:Hn; [|discriminate].
  apply String.eqb_eq in Hb. subst t'.
  exists a. split; [reflexivity|]. split; [|exact Hn].
  apply Nat.ltb_lt. exact Ha.
Qed.

Lemma matches_Ok (i j w : nat) :
  i < T -> j < T -> i <> j -> w < W -> matches i j w = Ok (i, j, w).
Proof.
  intros Hi Hj Hij Hw. unfold matches.
  rewrite (proj2 (Nat.ltb_lt i T) Hi), (proj2 (Nat.ltb_lt j T) Hj).
  rewrite (proj2 (Nat.eqb_neq i j) Hij), (proj2 (Nat.ltb_lt w W) Hw).
  reflexivity.
Qed.

Lemma constraint6_Ok (rv : list (string * string)) :
  (forall r, In r rv -> In (fst r) teams /\ In (snd r) teams /\ fst r <> snd r) ->
  exists c6, constraint6 rv = Ok c6 /\
    forall r, In r rv ->
      exists a b, sdict_get idx (fst r) = Ok a /\ sdict_get idx (snd r) = Ok b /\
                  In (expect6 a b) c6.
Proof.
  induction rv as [|r rv IH]; intros H.
  - exists []. split; [reflexivity | intros r []].
  - destruct (H r (or_introl eq_refl)) as [H1 [H2 Hne]].
    destruct (team_index _ H1) as [a [Ea [Ha Ra]]].
    destruct (team_index _ H2) as [b [Eb [Hb Rb]]].
    assert (Hab : a <> b).
    { intros E. subst b. rewrite Ra in Rb. apply Ok_inj in Rb. contradiction. }
    destruct IH as [c6 [E6 Hc6]]; [intros r' Hr'; apply H; right; exact Hr'|].
    assert (Hrw : rivalry_week < W) by (unfold rivalry_week, W; lia).
    exists (expect6 a b :: c6). split.
    + unfold constraint6 in *. cbn [for_]. rewrite E6. unfold bind at 1.
      rewrite Ea. unfold bind at 1. rewrite Eb. unfold bind at 1.
      rewrite (matches_Ok a b _ Ha Hb Hab Hrw). unfold bind at 1.
      rewrite (matches_Ok b a _ Hb Ha (not_eq_sym Hab) Hrw). reflexivity.
    + intros r' [<- | Hr'].
      * exists a, b. repeat split; try assumption. left. reflexivity.
      * destruct (Hc6 r' Hr') as [a' [b' [E1 [E2 Hin]]]].
        exists a', b'. repeat split; try assumption. right. exact Hin.
Qed.

(** C1, as the claim states it, fails: a rivalry table pairing two teams of
    the North division is accepted, the model is built and handed to the
    solver. *)
Lemma C1_counterexample :
  has_same_division_rivalry rivals_within_north = true /\
  is_ok (build_model rivals_within_north) = true.
Proof. split; vm_compute; reflexivity. Qed.

(** C1, amended: the setup validates nothing.  For every rivalry table whose
    pairs name two different teams of the league, in the same division or
    not, all constraints are built and the solver is reached, with the
    rivalry-week constraint added for every listed pair. *)
Theorem C1_rivalry_table_is_not_validated (rv : list (string * string)) :
  (forall r, In r rv -> In (fst r) teams /\ In (snd r) teams /\ fst r <> snd r) ->
  exists cs, build_model rv = Ok cs /\
    forall r, In r rv ->
      exists a b, sdict_get idx (fst r) = Ok a /\ sdict_get idx (snd r) = Ok b /\
                  In (expect6 a b) cs.
Proof.
  intros H.
  destruct constraints_1_to_5b_ok as [before Eb].
  destruct constraints_7_to_12_ok as [after Ea].
  destruct (constraint6_Ok rv H) as [c6 [E6 Hc6]].
  exists (before ++ c6 ++ after). split.
  - unfold build_model. rewrite Eb, E6, Ea. reflexivity.
  - intros r Hr. destruct (Hc6 r Hr) as [a [b [E1 [E2 Hin]]]].
    exists a, b. repeat split; try assumption.
    apply in_or_app. right. apply in_or_app. left. exact Hin.
Qed.

Lemma C1_witness :
  (forall r, In r rivals_within_north ->
     In (fst r) teams /\ In (snd r) teams /\ fst r <> snd r) /\
  exists cs, build_model rivals_within_north = Ok cs /\
    forall r, In r rivals_within_north ->
      exists a b, sdict_get idx (fst r) = Ok a /\ sdict_get idx (snd r) = Ok b /\
                  In (expect6 a b) cs.
Proof.
  assert (H : forall r, In r rivals_within_north ->
                In (fst r) teams /\ In (snd r) teams /\ fst r <> snd r).
  { intros r [<- | []]. simpl. repeat split; [tauto | tauto | discriminate]. }
  split; [exact H|].
  exact (C1_rivalry_table_is_not_validated rivals_within_north H).
Defined.

(* ===================================================================== *)
(** ** The solution branch never raises                                   *)
(* ===================================================================== *)

Lemma for_state_inv {A S} (P : S -> Prop) (xs : list A) (body : A -> S -> result S) :
  (forall x s, In x xs -> P s -> exists s', body x s = Ok s' /\ P s') ->
  forall s, P s -> exists s', for_state xs body s = Ok s' /\ P s'.
Proof.
  induction xs as [|a xs IH]; intros H s Hs.
  - exists s. split; [reflexivity | exact Hs].
  - destruct (H a s (or_introl eq_refl) Hs) as [s1 [E1 P1]].
    cbn [for_state]. rewrite E1. cbn [bind].
    apply IH; [|exact P1]. intros x s0 Hx. apply H. right. exact Hx.
Qed.

Lemma for_ok {A B} (xs : list A) (body : A -> result (list B)) :
  (forall x, In x xs -> exists ys, body x = Ok ys) ->
  exists zs, for_ xs body = Ok zs /\
    forall x ys, In x xs -> body x = Ok ys -> incl ys zs.
Proof.
  induction xs as [|a xs IH]; intros H.
  - exists []. split; [reflexivity | intros x ys []].
  - destruct (H a (or_introl eq_refl)) as [ys Ea].
    destruct IH as [zs [Ez Hz]]; [intros x Hx; apply H; right; exact Hx|].
    exists (ys ++ zs). split.
    + cbn [for_]. rewrite Ea, Ez. reflexivity.
    + intros x ys' [<- | Hx] E.
      * rewrite Ea in E. apply Ok_inj in E. subst ys'. apply incl_appl, incl_refl.
      * apply incl_appr. exact (Hz x ys' Hx E).
Qed.

Lemma comprehension_ok {A B} (xs : list A) (f : A -> result B) :
  (forall x, In x xs -> exists y, f x = Ok y) ->
  exists ys, comprehension xs f = Ok ys.
Proof.
  induction xs as [|a xs IH]; intros H.
  - exists []. reflexivity.
  - destruct (H a (or_introl eq_refl)) as [y Ea].
    destruct IH as [ys Ey]; [intros x Hx; apply H; right; exact Hx|].
    exists (y :: ys). cbn [comprehension]. rewrite Ea, Ey. reflexivity.
Qed.

Lemma for_total {A B} (xs : list A) (body : A -> result (list B)) :
  (forall x, In x xs -> exists ys, body x = Ok ys) ->
  exists zs, for_ xs body = Ok zs.
Proof.
  intros H. destruct (for_ok xs body H) as [zs [E _]]. exists zs. exact E.
Qed.

Lemma bind_ok {A B} (r : result A) (k : A -> result B) :
  (exists a, r = Ok a) -> (forall a, exists b, k a = Ok b) ->
  exists b, bind r k = Ok b.
Proof. intros [a E] H. rewrite E. cbn [bind]. apply H. Qed.

Lemma sdict_get_In {V} (d : list (string * V)) (k : string) :
  In k (map fst d) -> exists v, sdict_get d k = Ok v /\ In (k, v) d.
Proof.
  unfold sdict_get. induction d as [|[k' v'] d IH]; cbn [map fst In dict_get]; intros H.
  - contradiction.
  - destruct (String.eqb k k') eqn:E.
    + apply String.eqb_eq in E. subst k'. exists v'. split; [reflexivity | left; reflexivity].
    + destruct H as [H | H].
      * subst k'. rewrite String.eqb_refl in E. discriminate.
      * destruct (IH H) as [v [E1 I1]]. exists v. split; [exact E1 | right; exact I1].
Qed.

Lemma dict_set_keys {V} (d : list (string * V)) (k : string) (v : V) :
  In k (map fst d) -> map fst (dict_set String.eqb d k v) = map fst d.
Proof.
  induction d as [|[k' v'] d IH]; cbn [map fst In dict_set]; intros H.
  - contradiction.
  - destruct (String.eqb k k') eqn:E; [reflexivity|].
    cbn [map fst]. f_equal. apply IH. destruct H as [H | H]; [|exact H].
    subst k'. rewrite String.eqb_refl in E. discriminate.
Qed.

Lemma dict_set_In {V} (d : list (string * V)) (k k' : string) (v v' : V) :
  In (k', v') (dict_set String.eqb d k v) -> In (k', v') d \/ (k' = k /\ v' = v).
Proof.
  induction d as [|[k0 v0] d IH]; cbn [dict_set In]; intros H.
  - destruct H as [H | []]. inversion H. right. split; reflexivity.
  - destruct (String.eqb k k0) eqn:E.
    + destruct H as [H | H].
      * inversion H. subst. apply String.eqb_eq in E. right. split; [symmetry; exact E | reflexivity].
      * left. right. exact H.
    + destruct H as [H | H].
      * left. left. exact H.
      * destruct (IH H) as [H1 | H1]; [left; right; exact H1 | right; exact H1].
Qed.

Lemma member_In (t : string) (l : list string) : member t l = true -> In t l.
Proof.
  unfold member. intros H. apply existsb_exists in H.
  destruct H as [x [Hx E]]. apply String.eqb_eq in E. subst x. exact Hx.
Qed.

Lemma teams_known : forallb team_known teams = true.
Proof. vm_compute. reflexivity. Qed.

Lemma division_known (t : string) :
  In t teams ->
  exists d o, sdict_get div_of t = Ok d /\ sdict_get opposite d = Ok o.
Proof.
  intros Hin. pose proof teams_known as H. rewrite forallb_forall in H.
  specialize (H t Hin). unfold team_known in H.
  destruct (sdict_get div_of t) as [d|]; [|discriminate].
  apply is_ok_Ok in H. destruct H as [o Ho]. exists d, o. split; [reflexivity | exact Ho].
Qed.

Lemma indices_named :
  for_all T (fun i => match ndict_get idx_to_team i with
                      | Ok t => member t teams
                      | Raise _ => false
                      end) = true.
Proof. vm_compute. reflexivity. Qed.

Lemma idx_to_team_ok (i : nat) :
  i < T -> exists t, ndict_get idx_to_team i = Ok t /\ In t teams.
Proof.
  intros Hi. pose proof (for_all_spec _ _ indices_named i Hi) as H. cbv beta in H.
  destruct (ndict_get idx_to_team i) as [t|]; [|discriminate].
  exists t. split; [reflexivity | apply member_In; exact H].
Qed.

Lemma division_positions :
  forallb (fun item =>
             forallb (fun i => match index (snd item) i with
                               | Ok t => member t teams
                               | Raise _ => false
                               end) (range 4)) teams_by_div = true.
Proof. vm_compute. reflexivity. Qed.

Lemma division_position (item : string * list string) (i : nat) :
  In item teams_by_div -> i < 4 ->
  exists t, index (snd item) i = Ok t /\ In t teams.
Proof.
  intros Hitem Hi. pose proof division_positions as H.
  rewrite forallb_forall in H. specialize (H item Hitem). cbv beta in H.
  rewrite forallb_forall in H. specialize (H i (proj2 (range_In 4 i) Hi)). cbv beta in H.
  destruct (index (snd item) i) as [t|]; [|discriminate].
  exists t. split; [reflexivity | apply member_In; exact H].
Qed.

Lemma schedule_of (ts : schedules) (team : string) :
  well_formed ts -> In team teams ->
  exists sched, sdict_get ts team = Ok sched /\ In (team, sched) ts.
Proof.
  intros [K _] Hin. apply sdict_get_In. rewrite K. exact Hin.
Qed.

Lemma append_entry_ok (ts : schedules) (team : string) (entry : team_game) :
  well_formed ts -> In team teams -> In (t_Opponent entry) teams ->
  exists ts', append_entry ts team entry = Ok ts' /\ well_formed ts'.
Proof.
  intros Hwf Hin Hopp.
  destruct (schedule_of ts team Hwf Hin) as [sched [E Hs]].
  destruct Hwf as [K O].
  exists (dict_set String.eqb ts team (sched ++ [entry])). split.
  - unfold append_entry. rewrite E. reflexivity.
  - split.
    + rewrite dict_set_keys; [exact K | rewrite K; exact Hin].
    + intros team' sched' game H Hg. apply dict_set_In in H.
      destruct H as [H | [_ H]]; [exact (O team' sched' game H Hg)|].
      subst sched'. apply in_app_or in Hg. destruct Hg as [Hg | [<- | []]].
      * exact (O team sched game Hs Hg).
      * exact Hopp.
Qed.

Lemma game_type_of_ok (w : nat) (home_team away_team : string) :
  In home_team teams -> In away_team teams ->
  exists ty, game_type_of w home_team away_team = Ok ty.
Proof.
  intros Hh Ha.
  destruct (division_known _ Hh) as [hd [ho [Eh Eo]]].
  destruct (division_known _ Ha) as [ad [ao [Ea _]]].
  unfold game_type_of. rewrite Eh, Ea. cbn [bind].
  destruct (String.eqb hd ad); [eexists; reflexivity|].
  rewrite Eo. cbn [bind].
  destruct (String.eqb ad ho); [eexists; reflexivity|].
  match goal with |- context [if ?b then _ else _] => destruct b end;
    eexists; reflexivity.
Qed.

Lemma extract_game_ok (m : assignment) (w i j : nat) (st : extraction) :
  w < W -> i < T -> j < T -> well_formed (snd st) ->
  exists st', extract_game m w i j st = Ok st' /\ well_formed (snd st').
Proof.
  intros Hw Hi Hj Hwf. unfold extract_game.
  destruct (i =? j) eqn:Eij; cbn [negb].
  - exists st. split; [reflexivity | exact Hwf].
  - apply Nat.eqb_neq in Eij. rewrite (matches_Ok i j w Hi Hj Eij Hw). cbn [bind].
    destruct (value m (i, j, w) =? 1)%Z.
    + destruct (idx_to_team_ok i Hi) as [h [Eh Hh]].
      destruct (idx_to_team_ok j Hj) as [a [Ea Ha]].
      rewrite Eh, Ea. cbn [bind].
      destruct (game_type_of_ok w h a Hh Ha) as [ty Ety]. rewrite Ety. cbn [bind].
      destruct (append_entry_ok (snd st) h (TeamGame (w + 1) a Home ty) Hwf Hh Ha)
        as [ts1 [E1 W1]].
      rewrite E1. cbn [bind].
      destruct (append_entry_ok ts1 a (TeamGame (w + 1) h Away ty) W1 Ha Hh)
        as [ts2 [E2 W2]].
      rewrite E2. cbn [bind].
      eexists. split; [reflexivity | exact W2].
    + exists st. split; [reflexivity | exact Hwf].
Qed.

Lemma empty_schedules :
  forallb (fun kv => is_empty (snd kv))
          (sdict_of (map (fun team => (team, @nil team_game)) teams)) = true.
Proof. vm_compute. reflexivity. Qed.

Lemma initial_well_formed :
  well_formed (sdict_of (map (fun team => (team, @nil team_game)) teams)).
Proof.
  split.
  - vm_compute. reflexivity.
  - intros team sched game H Hg. pose proof empty_schedules as E.
    rewrite forallb_forall in E. specialize (E _ H). cbn [snd] in E.
    destruct sched; [contradiction | discriminate].
Qed.

Lemma extract_ok (m : assignment) :
  exists st, extract m = Ok st /\ well_formed (snd st).
Proof.
  unfold extract.
  apply (for_state_inv (fun st : extraction => well_formed (snd st)));
    [|exact initial_well_formed].
  intros w st Hw Hst. apply range_In in Hw.
  apply (for_state_inv (fun st : extraction => well_formed (snd st))); [|exact Hst].
  intros i st1 Hi Hst1. apply range_In in Hi.
  apply (for_state_inv (fun st : extraction => well_formed (snd st))); [|exact Hst1].
  intros j st2 Hj Hst2. apply range_In in Hj.
  apply extract_game_ok; assumption.
Qed.

Lemma check_total_balance_ok (ts : schedules) :
  well_formed ts ->
  exists c, check_total_balance ts = Ok c /\
    forall team, In team teams ->
      exists h a, In (TotalBalance team h a (h + a)
                        (status_of ((h =? 7) && (a =? 7)))) c.
Proof.
  intros Hwf.
  destruct (for_ok teams (fun team =>
    home_sched <- sdict_get ts team ;;
    let home_games := List.length (filter is_home home_sched) in
    away_sched <- sdict_get ts team ;;
    let away_games := List.length (filter is_away away_sched) in
    let total_games := home_games + away_games in
    Ok [TotalBalance team home_games away_games total_games
          (status_of ((home_games =? 7) && (away_games =? 7)))])) as [c [Ec Hc]].
  - intros team Hin. destruct (schedule_of ts team Hwf Hin) as [sched [E _]].
    lookup E. eexists. reflexivity.
  - exists c. split; [exact Ec|].
    intros team Hin. destruct (schedule_of ts team Hwf Hin) as [sched [E _]].
    exists (List.length (filter is_home sched)), (List.length (filter is_away sched)).
    refine (Hc team [_] Hin _ _ (or_introl eq_refl)). lookup E. reflexivity.
Qed.

Lemma check_divisional_balance_ok (ts : schedules) :
  well_formed ts -> exists c, check_divisional_balance ts = Ok c.
Proof.
  intros Hwf. unfold check_divisional_balance.
  apply for_total.
  intros team Hin. destruct (schedule_of ts team Hwf Hin) as [sched [E _]].
  lookup E. eexists. reflexivity.
Qed.

Lemma for_pairs_of_ok {B} (item : string * list string)
  (body : string -> string -> result (list B)) :
  In item teams_by_div ->
  (forall team1 team2, In team1 teams -> In team2 teams ->
     exists ys, body team1 team2 = Ok ys) ->
  exists rows, for_pairs_of (snd item) body = Ok rows.
Proof.
  intros Hitem Hbody. unfold for_pairs_of.
  apply for_total.
  intros i Hi. apply range_In in Hi.
  apply for_total.
  intros j Hj. unfold range2 in Hj. apply in_seq in Hj.
  destruct (division_position item i Hitem Hi) as [t1 [E1 H1]].
  destruct (division_position item j Hitem) as [t2 [E2 H2]]; [lia|].
  rewrite E1, E2. cbn [bind]. apply Hbody; assumption.
Qed.

Lemma check_matchup_balance_ok (ts : schedules) :
  well_formed ts -> exists c, check_matchup_balance ts = Ok c.
Proof.
  intros Hwf. unfold check_matchup_balance.
  apply for_total.
  intros item Hitem. cbv zeta.
  apply bind_ok; [|intros rows; eexists; reflexivity].
  apply (for_pairs_of_ok item); [exact Hitem|].
  intros team1 team2 H1 _. destruct (schedule_of ts team1 Hwf H1) as [sched [E _]].
  lookup E. match goal with |- context [if ?b then _ else _] => destruct b end;
    eexists; reflexivity.
Qed.

Lemma check_separation_ok (ts : schedules) :
  well_formed ts -> exists c, check_separation ts = Ok c.
Proof.
  intros Hwf. unfold check_separation.
  apply for_total.
  intros item Hitem. cbv zeta.
  apply (for_pairs_of_ok item); [exact Hitem|].
  intros team1 team2 H1 _. destruct (schedule_of ts team1 Hwf H1) as [sched [E _]].
  lookup E.
  match goal with |- context [match ?l with _ => _ end] => destruct l as [|? [|? [|? ?]]] end;
    eexists; reflexivity.
Qed.

Lemma check_density_ok (ts : schedules) :
  well_formed ts -> exists c, check_density ts = Ok c.
Proof.
  intros Hwf. unfold check_density.
  apply for_total.
  intros team Hin. destruct (schedule_of ts team Hwf Hin) as [sched [E _]].
  lookup E. eexists. reflexivity.
Qed.

Lemma check_last_eight_ok (ts : schedules) :
  well_formed ts -> exists c, check_last_eight ts = Ok c.
Proof.
  intros Hwf. unfold check_last_eight.
  apply for_total.
  intros team Hin. destruct (schedule_of ts team Hwf Hin) as [sched [E _]].
  lookup E. eexists. reflexivity.
Qed.

Lemma check_streaks_ok (ts : schedules) :
  well_formed ts -> exists c, check_streaks ts = Ok c.
Proof.
  intros Hwf. unfold check_streaks.
  apply bind_ok; [|intros rows; eexists; reflexivity]. apply for_total.
  intros team Hin. destruct (schedule_of ts team Hwf Hin) as [sched [E _]].
  lookup E. destruct (streaks_of (map t_Venue (sorted t_Week sched))) as [[mh ma] vs].
  eexists. reflexivity.
Qed.

Lemma count_opponents_keys (team_games : list team_game) (P : string -> Prop) :
  (forall game, In game team_games -> P (t_Opponent game)) ->
  forall oc, In oc (count_opponents team_games) -> P (fst oc).
Proof.
  unfold count_opponents.
  assert (G : forall acc : list (string * nat),
             (forall oc, In oc acc -> P (fst oc)) ->
             (forall game, In game team_games -> P (t_Opponent game)) ->
             forall oc,
               In oc (fold_left (fun opponent_counts game =>
                        let opponent := t_Opponent game in
                        dict_set String.eqb opponent_counts opponent
                          (sdict_get_or opponent_counts opponent 0 + 1))
                        team_games acc) -> P (fst oc)).
  { induction team_games as [|g gs IH]; intros acc Hacc Hg oc Hoc.
    - exact (Hacc oc Hoc).
    - cbn [fold_left] in Hoc. revert Hoc. apply IH.
      + intros [k v] H. cbv zeta in H. apply dict_set_In in H.
        destruct H as [H | [H _]]; [exact (Hacc _ H)|].
        cbn [fst]. rewrite H. apply Hg. left. reflexivity.
      + intros game Hin. apply Hg. right. exact Hin. }
  intros H. apply G; [intros oc [] | exact H].
Qed.

Lemma check_non_division_ok (ts : schedules) :
  well_formed ts -> exists c, check_non_division ts = Ok c.
Proof.
  intros Hwf. unfold check_non_division.
  apply bind_ok; [|intros rows; eexists; reflexivity]. apply for_total.
  intros team Hin. destruct (schedule_of ts team Hwf Hin) as [sched [E Hs]].
  lookup E. cbv zeta.
  destruct (division_known team Hin) as [d [o [Ed _]]]. rewrite Ed. cbn [bind].
  apply bind_ok; [|intros vs; eexists; reflexivity]. apply for_total.
  intros oc Hoc. cbv zeta.
  assert (Hopp : In (fst oc) teams).
  { apply (count_opponents_keys sched (fun t => In t teams)); [|exact Hoc].
    intros game Hg. destruct Hwf as [_ O]. exact (O team sched game Hs Hg). }
  destruct (division_known _ Hopp) as [od [oo [Eod _]]]. rewrite Eod. cbn [bind].
  destruct (negb (String.eqb od d)); [destruct (1 <? snd oc)|]; eexists; reflexivity.
Qed.

Lemma check_breakdown_ok (ts : schedules) :
  well_formed ts ->
  exists c, check_breakdown ts = Ok c /\
    forall team, In team teams ->
      exists d o x,
        In (Breakdown team d o x (d + o + x)
              (status_of ((d =? 6) && (o =? 4) && (x =? 4)))) c.
Proof.
  intros Hwf.
  destruct (for_ok teams (fun team =>
    s1 <- sdict_get ts team ;;
    let div_games := List.length (filter (is_type Division) s1) in
    s2 <- sdict_get ts team ;;
    let opp_games := List.length (filter (is_type Opposite) s2) in
    s3 <- sdict_get ts team ;;
    let cross_games :=
      List.length (filter (fun g => existsb (game_type_eqb (t_Type g))
                                      [CrossDivision; Rivalry]) s3) in
    Ok [Breakdown team div_games opp_games cross_games
          (div_games + opp_games + cross_games)
          (status_of ((div_games =? 6) && (opp_games =? 4) && (cross_games =? 4)))]))
    as [c [Ec Hc]].
  - intros team Hin. destruct (schedule_of ts team Hwf Hin) as [sched [E _]].
    lookup E. eexists. reflexivity.
  - exists c. split; [exact Ec|].
    intros team Hin. destruct (schedule_of ts team Hwf Hin) as [sched [E _]].
    exists (List.length (filter (is_type Division) sched)),
           (List.length (filter (is_type Opposite) sched)),
           (List.length (filter (fun g => existsb (game_type_eqb (t_Type g))
                                            [CrossDivision; Rivalry]) sched)).
    refine (Hc team [_] Hin _ _ (or_introl eq_refl)). lookup E. reflexivity.
Qed.

Lemma validation_ok (st : extraction) :
  well_formed (snd st) ->
  exists report, validation st = Ok report /\
    forall team, In team teams ->
      (exists h a, In (TotalBalance team h a (h + a)
                         (status_of ((h =? 7) && (a =? 7)))) report) /\
      (exists d o x, In (Breakdown team d o x (d + o + x)
                           (status_of ((d =? 6) && (o =? 4) && (x =? 4)))) report).
Proof.
  intros Hwf. unfold validation. cbv zeta.
  destruct (check_total_balance_ok _ Hwf) as [c1 [E1 H1]].
  destruct (check_divisional_balance_ok _ Hwf) as [c2 E2].
  destruct (check_matchup_balance_ok _ Hwf) as [c4 E4].
  destruct (check_separation_ok _ Hwf) as [c5 E5].
  destruct (check_density_ok _ Hwf) as [c6 E6].
  destruct (check_last_eight_ok _ Hwf) as [c7 E7].
  destruct (check_streaks_ok _ Hwf) as [c9 E9].
  destruct (check_non_division_ok _ Hwf) as [c10 E10].
  destruct (check_breakdown_ok _ Hwf) as [c11 [E11 H11]].
  rewrite E1, E2, E4, E5, E6, E7, E9, E10, E11. cbn [bind].
  eexists. split; [reflexivity|].
  intros team Hin. split.
  - destruct (H1 team Hin) as [h [a H]]. exists h, a.
    apply in_or_app. left. exact H.
  - destruct (H11 team Hin) as [d [o [x H]]]. exists d, o, x.
    repeat (apply in_or_app; right). exact H.
Qed.

Lemma team_rows_ok (ts : schedules) :
  well_formed ts -> exists rows, team_rows ts = Ok rows.
Proof.
  intros Hwf. unfold team_rows.
  apply for_total.
  intros team Hin. destruct (schedule_of ts team Hwf Hin) as [sched [E Hs]].
  lookup E. apply comprehension_ok. intros game Hg.
  destruct (division_known team Hin) as [d [o [Ed _]]]. rewrite Ed. cbn [bind].
  assert (Hopp : In (t_Opponent game) teams).
  { destruct Hwf as [_ O]. exact (O team sched game Hs Hg). }
  destruct (division_known _ Hopp) as [od [oo [Eod _]]]. rewrite Eod. cbn [bind].
  eexists. reflexivity.
Qed.

Lemma team_grid_ok (ts : schedules) :
  well_formed ts -> exists grid, team_grid ts = Ok grid.
Proof.
  intros Hwf. unfold team_grid.
  apply for_total.
  intros team Hin. destruct (schedule_of ts team Hwf Hin) as [sched [E Hs]].
  destruct (division_known team Hin) as [d [o [Ed _]]]. rewrite Ed. cbn [bind].
  apply bind_ok; [|intros cells; eexists; reflexivity]. apply comprehension_ok.
  intros week _. lookup E. eexists. reflexivity.
Qed.

(** C2, as the claim states it, fails: with values that schedule no game at
    all nearly every family is violated, yet nothing is raised.  The run
    returns normally; the summary merely carries the failure marks. *)
Lemma C2_counterexample :
  exists o, solution_found no_games = Ok o /\
    In (TotalBalance "Thor" 0 0 0 Fail) (summary o) /\
    In (RivalryOnly 0 8) (summary o) /\
    In (Breakdown "Dino" 0 0 0 0 Fail) (summary o).
Proof.
  eexists. split; [vm_compute; reflexivity|].
  cbn [summary]. repeat split; repeat (first [left; reflexivity | right]).
Qed.

(* ===================================================================== *)
(** ** Constraints 4b and 12                                              *)
(* ===================================================================== *)

Lemma model_covers4b :
  for_all T (fun i => added model_cs (expect4b i)) = true.
Proof. vm_compute. reflexivity. Qed.

Lemma model_covers12 :
  for_all2 T (W - 3) (fun i w1 =>
    if added model_cs (expect12_home i w1)
    then added model_cs (expect12_away i w1) else false) = true.
Proof. vm_compute. reflexivity. Qed.

Lemma emitted4b (i : nat) : i < T -> emitted (expect4b i).
Proof.
  intros Hi. constructor.
  exact (for_all_spec T (fun i => added model_cs (expect4b i)) model_covers4b i Hi).
Qed.

Lemma emitted12 (i w1 : nat) :
  i < T -> w1 < W - 3 -> emitted (expect12_home i w1) /\ emitted (expect12_away i w1).
Proof.
  intros Hi Hw.
  pose proof (for_all2_spec T (W - 3)
                (fun i w1 => if added model_cs (expect12_home i w1)
                             then added model_cs (expect12_away i w1) else false)
                model_covers12 i w1 Hi Hw) as H.
  cbv beta in H.
  destruct (added model_cs (expect12_home i w1)) eqn:E1; [|discriminate].
  split; constructor; assumption.
Qed.

(** Constraint 4b with its consequence: of its four games against the
    opposite division, every team plays two at home and two away. *)
Theorem opposite_division_two_home_two_away (m : assignment) (i : nat) :
  satisfies m -> i < T ->
  sumZ (fun j => hosted m i j) (opp_opps i) = 2%Z /\
  sumZ (fun j => hosted m j i) (opp_opps i) = 2%Z.
Proof.
  intros Hm Hi.
  pose proof (satisfies_emitted m _ Hm (emitted4b i Hi)) as H.
  apply holds_EQ in H. cbn [lhs rhs expect4b] in H. rewrite sumZ_flat_map in H.
  assert (Hh : sumZ (fun j => hosted m i j) (opp_opps i) = 2%Z).
  { rewrite <- H. apply sumZ_ext. intros j _. rewrite sumZ_map. reflexivity. }
  split; [exact Hh|].
  assert (Hall : sumZ (fun j => meetings m i j) (opp_opps i) = 4%Z).
  { rewrite (sumZ_const _ 1%Z).
    - rewrite (proj1 (proj2 (opponents_counts i Hi))). reflexivity.
    - intros j Hj. apply opp_opps_In in Hj. destruct Hj as [[[Hj _] _] Ho].
      apply (opposite_pair_once m Hm); assumption. }
  assert (Hsplit : sumZ (fun j => meetings m i j) (opp_opps i) =
                   (sumZ (fun j => hosted m i j) (opp_opps i) +
                    sumZ (fun j => hosted m j i) (opp_opps i))%Z).
  { rewrite <- sumZ_plus. apply sumZ_ext. intros j _. apply meetings_hosted. }
  lia.
Qed.

Lemma opposite_division_two_home_two_away_witness :
  satisfies m0 /\ 3 < T /\
  sumZ (fun j => hosted m0 3 j) (opp_opps 3) = 2%Z /\
  sumZ (fun j => hosted m0 j 3) (opp_opps 3) = 2%Z.
Proof.
  split; [exact m0_satisfies|]. split; [rewrite T_eq; lia|].
  apply (opposite_division_two_home_two_away m0 3 m0_satisfies).
  rewrite T_eq. lia.
Defined.

(** The two window sums of constraint 12, for use below. *)
Lemma home_away_windows (m : assignment) (i w1 : nat) :
  satisfies m -> i < T -> w1 + 3 < W ->
  (hosts_in_week m i w1 + hosts_in_week m i (w1 + 1) +
   hosts_in_week m i (w1 + 2) + hosts_in_week m i (w1 + 3) <= 3)%Z /\
  (visits_in_week m i w1 + visits_in_week m i (w1 + 1) +
   visits_in_week m i (w1 + 2) + visits_in_week m i (w1 + 3) <= 3)%Z.
Proof.
  intros Hm Hi Hw.
  assert (Hw' : w1 < W - 3) by (unfold W in *; lia).
  destruct (emitted12 i w1 Hi Hw') as [Eh Ea].
  apply (satisfies_emitted m _ Hm), holds_LE in Eh, Ea.
  cbn [lhs rhs expect12_home expect12_away] in Eh, Ea.
  rewrite sumZ_flat_map in Eh, Ea. cbn [sumZ] in Eh, Ea.
  assert (Hh : forall w, sumZ (value m) (map (fun j => (i, j, w)) (others i)) =
                         hosts_in_week m i w)
    by (intros w; rewrite sumZ_map; reflexivity).
  assert (Ha : forall w, sumZ (value m) (map (fun j => (j, i, w)) (others i)) =
                         visits_in_week m i w)
    by (intros w; rewrite sumZ_map; reflexivity).
  rewrite !Hh in Eh. rewrite !Ha in Ea. split; lia.
Qed.

(** Constraint 12: in any four consecutive weeks a team plays at most three
    home games and at most three away games. *)
Theorem no_four_home_or_away_in_a_row (m : assignment) (i w1 : nat) :
  satisfies m -> i < T -> w1 + 3 < W ->
  (hosts_in_week m i w1 + hosts_in_week m i (w1 + 1) +
   hosts_in_week m i (w1 + 2) + hosts_in_week m i (w1 + 3) <= 3)%Z /\
  (visits_in_week m i w1 + visits_in_week m i (w1 + 1) +
   visits_in_week m i (w1 + 2) + visits_in_week m i (w1 + 3) <= 3)%Z.
Proof.
  intros Hm Hi Hw.
  assert (Hw' : w1 < W - 3) by (unfold W in *; lia).
  destruct (emitted12 i w1 Hi Hw') as [Eh Ea].
  apply (satisfies_emitted m _ Hm), holds_LE in Eh, Ea.
  cbn [lhs rhs expect12_home expect12_away] in Eh, Ea.
  rewrite sumZ_flat_map in Eh, Ea. cbn [sumZ] in Eh, Ea.
  assert (Hh : forall w, sumZ (value m) (map (fun j => (i, j, w)) (others i)) =
                         hosts_in_week m i w)
    by (intros w; rewrite sumZ_map; reflexivity).
  assert (Ha : forall w, sumZ (value m) (map (fun j => (j, i, w)) (others i)) =
                         visits_in_week m i w)
    by (intros w; rewrite sumZ_map; reflexivity).
  rewrite !Hh in Eh. rewrite !Ha in Ea. split; lia.
Qed.

Lemma no_four_home_or_away_in_a_row_witness :
  satisfies m0 /\ 2 < T /\ 5 + 3 < W /\
  (hosts_in_week m0 2 5 + hosts_in_week m0 2 (5 + 1) +
   hosts_in_week m0 2 (5 + 2) + hosts_in_week m0 2 (5 + 3) <= 3)%Z /\
  (visits_in_week m0 2 5 + visits_in_week m0 2 (5 + 1) +
   visits_in_week m0 2 (5 + 2) + visits_in_week m0 2 (5 + 3) <= 3)%Z.
Proof.
  split; [exact m0_satisfies|]. split; [rewrite T_eq; lia|].
  split; [unfold W; lia|].
  apply (no_four_home_or_away_in_a_row m0 2 5 m0_satisfies);
    [rewrite T_eq; lia | unfold W; lia].
Defined.

(* ===================================================================== *)
(** ** Which rivalry tables the script accepts                            *)
(* ===================================================================== *)

Lemma sdict_get_Ok_In {V} (d : list (string * V)) (k : string) (v : V) :
  sdict_get d k = Ok v -> In k (map fst d).
Proof.
  unfold sdict_get. induction d as [|[k' v'] d IH]; cbn [dict_get map fst In]; intros H.
  - discriminate.
  - destruct (String.eqb k k') eqn:E.
    + left. symmetry. apply String.eqb_eq. exact E.
    + right. exact (IH H).
Qed.

Lemma sdict_get_Raise {V} (d : list (string * V)) (k : string) (e : exn) :
  sdict_get d k = Raise e -> e = KeyError (KStr k).
Proof.
  unfold sdict_get. induction d as [|[k' v'] d IH]; cbn [dict_get]; intros H.
  - inversion H. reflexivity.
  - destruct (String.eqb k k'); [discriminate | exact (IH H)].
Qed.

Lemma idx_keys : map fst idx = teams.
Proof. vm_compute. reflexivity. Qed.

Lemma matches_Raise (i j w : nat) (e : exn) :
  matches i j w = Raise e -> exists n, e = KeyError (KInt n).
Proof.
  unfold matches. intros H.
  destruct (i <? T); [|inversion H; eexists; reflexivity].
  destruct ((j <? T) && negb (i =? j)); [|inversion H; eexists; reflexivity].
  destruct (w <? W); [discriminate | inversion H; eexists; reflexivity].
Qed.

Lemma matches_Ok_distinct (i j w : nat) (v : var) : matches i j w = Ok v -> i <> j.
Proof.
  unfold matches. intros H E. subst j. rewrite Nat.eqb_refl in H.
  destruct (i <? T); [|discriminate].
  rewrite andb_false_r in H. discriminate.
Qed.

(** The body of the rivalry loop for one pair either adds its constraint,
    and then the pair names two different teams, or stops on a KeyError. *)
Lemma rivalry_pair_cases (r : string * string) :
  let body :=
    team1_idx <- sdict_get idx (fst r) ;;
    team2_idx <- sdict_get idx (snd r) ;;
    a <- matches team1_idx team2_idx rivalry_week ;;
    b <- matches team2_idx team1_idx rivalry_week ;;
    Ok [Add [a; b] EQ 1] in
  ((exists c, body = Ok c) /\ In (fst r) teams /\ In (snd r) teams /\ fst r <> snd r) \/
  ((exists k, body = Raise (KeyError k)) /\
   ~ (In (fst r) teams /\ In (snd r) teams /\ fst r <> snd r)).
Proof.
  cbv zeta.
  destruct (sdict_get idx (fst r)) as [a|e] eqn:E1; cbn [bind].
  2:{ right. split.
      - apply sdict_get_Raise in E1. subst e. eexists. reflexivity.
      - intros [H _]. rewrite <- idx_keys in H.
        destruct (sdict_get_In idx (fst r) H) as [v [E _]]. congruence. }
  destruct (sdict_get idx (snd r)) as [b|e] eqn:E2; cbn [bind].
  2:{ right. split.
      - apply sdict_get_Raise in E2. subst e. eexists. reflexivity.
      - intros [_ [H _]]. rewrite <- idx_keys in H.
        destruct (sdict_get_In idx (snd r) H) as [v [E _]]. congruence. }
  destruct (matches a b rivalry_week) as [v1|e] eqn:M1; cbn [bind].
  2:{ right. split.
      - apply matches_Raise in M1. destruct M1 as [n ->]. eexists. reflexivity.
      - intros [H1 [H2 Hne]].
        destruct (team_index _ H1) as [a' [Ea [Ha Ra]]].
        destruct (team_index _ H2) as [b' [Eb [Hb Rb]]].
        rewrite E1 in Ea. rewrite E2 in Eb. apply Ok_inj in Ea, Eb. subst a' b'.
        assert (Hab : a <> b).
        { intros E. subst b. rewrite Ra in Rb. apply Ok_inj in Rb. contradiction. }
        rewrite (matches_Ok a b rivalry_week Ha Hb Hab) in M1; [discriminate|].
        unfold rivalry_week, W. lia. }
  destruct (matches b a rivalry_week) as [v2|e] eqn:M2; cbn [bind].
  2:{ right. split.
      - apply matches_Raise in M2. destruct M2 as [n ->]. eexists. reflexivity.
      - intros [H1 [H2 Hne]].
        destruct (team_index _ H1) as [a' [Ea [Ha Ra]]].
        destruct (team_index _ H2) as [b' [Eb [Hb Rb]]].
        rewrite E1 in Ea. rewrite E2 in Eb. apply Ok_inj in Ea, Eb. subst a' b'.
        assert (Hab : b <> a).
        { intros E. subst b. rewrite Ra in Rb. apply Ok_inj in Rb. contradiction. }
        rewrite (matches_Ok b a rivalry_week Hb Ha Hab) in M2; [discriminate|].
        unfold rivalry_week, W. lia. }
  left. split; [eexists; reflexivity|].
  pose proof (sdict_get_Ok_In _ _ _ E1) as H1. pose proof (sdict_get_Ok_In _ _ _ E2) as H2.
  rewrite idx_keys in H1, H2. repeat split; try assumption.
  intros E. rewrite E in E1. rewrite E1 in E2. apply Ok_inj in E2.
  exact (matches_Ok_distinct _ _ _ _ M1 E2).
Qed.

Lemma constraint6_cases (rv : list (string * string)) :
  ((exists c, constraint6 rv = Ok c) /\
   forall r, In r rv -> In (fst r) teams /\ In (snd r) teams /\ fst r <> snd r) \/
  ((exists k, constraint6 rv = Raise (KeyError k)) /\
   ~ forall r, In r rv -> In (fst r) teams /\ In (snd r) teams /\ fst r <> snd r).
Proof.
  induction rv as [|r rv IH].
  - left. split; [exists []; reflexivity | intros r []].
  - unfold constraint6 in *. cbn [for_].
    destruct (rivalry_pair_cases r) as [[[c Ec] Hr] | [[k Ek] Hr]]; cbv zeta in *.
    + rewrite Ec. cbn [bind].
      destruct IH as [[[c' Ec'] Hrv] | [[k Ek] Hrv]].
      * left. rewrite Ec'. cbn [bind]. split; [eexists; reflexivity|].
        intros r' [<- | Hr']; [exact Hr | exact (Hrv r' Hr')].
      * right. rewrite Ek. cbn [bind]. split; [eexists; reflexivity|].
        intros H. apply Hrv. intros r' Hr'. apply H. right. exact Hr'.
    + right. rewrite Ek. cbn [bind]. split; [eexists; reflexivity|].
      intros H. apply Hr. apply H. left. reflexivity.
Qed.

(** The only way the model building can stop is a [KeyError] from the
    rivalry table: the model is built exactly when every rivalry pair names
    two different teams of the league, and otherwise the script stops with a
    [KeyError] (an unknown name, or a team paired with itself, for which no
    match variable exists). *)
Theorem build_model_accepts_exactly_distinct_league_pairs (rv : list (string * string)) :
  ((exists cs, build_model rv = Ok cs) /\
   forall r, In r rv -> In (fst r) teams /\ In (snd r) teams /\ fst r <> snd r) \/
  ((exists k, build_model rv = Raise (KeyError k)) /\
   ~ forall r, In r rv -> In (fst r) teams /\ In (snd r) teams /\ fst r <> snd r).
Proof.
  destruct constraints_1_to_5b_ok as [before Eb].
  destruct constraints_7_to_12_ok as [after Ea].
  unfold build_model. rewrite Eb, Ea. cbn [bind].
  destruct (constraint6_cases rv) as [[[c Ec] H] | [[k Ek] H]].
  - left. rewrite Ec. cbn [bind]. split; [eexists; reflexivity | exact H].
  - right. rewrite Ek. cbn [bind]. split; [eexists; reflexivity | exact H].
Qed.

(* ===================================================================== *)
(** ** The extraction loop computes the closed form                       *)
(* ===================================================================== *)

Lemma team_name_ok (i : nat) :
  i < T -> ndict_get idx_to_team i = Ok (team_name i) /\ In (team_name i) teams.
Proof.
  intros Hi. destruct (idx_to_team_ok i Hi) as [t [E Hin]].
  unfold team_name. rewrite E. split; [reflexivity | exact Hin].
Qed.

Lemma kind_ok (w i j : nat) :
  i < T -> j < T -> game_type_of w (team_name i) (team_name j) = Ok (kind w i j).
Proof.
  intros Hi Hj.
  destruct (game_type_of_ok w _ _ (proj2 (team_name_ok i Hi)) (proj2 (team_name_ok j Hj)))
    as [ty E].
  unfold kind. rewrite E. reflexivity.
Qed.

Lemma append_entry_sched_dict (f : nat -> list team_game) (i : nat) (e : team_game) :
  i < T ->
  append_entry (sched_dict f) (team_name i) e = Ok (sched_dict (add_entry i e f)).
Proof.
  intros Hi. rewrite T_eq in Hi.
  do 16 (destruct i as [|i]; [vm_compute; reflexivity|]). lia.
Qed.

Lemma sched_dict_ext (f g : nat -> list team_game) :
  (forall t, f t = g t) -> sched_dict f = sched_dict g.
Proof.
  intros H. unfold sched_dict. apply map_ext. intros t. rewrite H. reflexivity.
Qed.

Lemma extract_game_spec (m : assignment) (w i j : nat) (gs : list game) :
  w < W -> i < T -> j < T ->
  extract_game m w i j (extraction_of gs) = Ok (extraction_of (gs ++ selected m w i j)).
Proof.
  intros Hw Hi Hj. unfold extract_game, selected.
  destruct (i =? j) eqn:Eij; cbn [negb andb].
  - rewrite app_nil_r. reflexivity.
  - apply Nat.eqb_neq in Eij. rewrite (matches_Ok i j w Hi Hj Eij Hw). cbn [bind value].
    destruct (m i j w); cbn [Z.b2z Z.eqb Pos.eqb].
    + rewrite (proj1 (team_name_ok i Hi)), (proj1 (team_name_ok j Hj)). cbn [bind].
      rewrite (kind_ok w i j Hi Hj). unfold extraction_of. cbn [bind fst snd].
      rewrite (append_entry_sched_dict _ i _ Hi). cbn [bind].
      rewrite (append_entry_sched_dict _ j _ Hj). cbn [bind].
      rewrite map_app. cbn [map game_row]. f_equal. f_equal.
      apply sched_dict_ext. intros t. unfold add_entry.
      rewrite flat_map_app. cbn [flat_map entries_for home_entry away_entry].
      rewrite app_nil_r.
      destruct (i =? t), (j =? t); cbn [app];
        rewrite ?app_nil_r, <- ?app_assoc; reflexivity.
    + rewrite app_nil_r. reflexivity.
Qed.

Lemma for_state_collect {X} (sel : X -> list game)
  (body : X -> extraction -> result extraction) (xs : list X) :
  (forall x gs, In x xs -> body x (extraction_of gs) = Ok (extraction_of (gs ++ sel x))) ->
  forall gs,
    for_state xs body (extraction_of gs) = Ok (extraction_of (gs ++ flat_map sel xs)).
Proof.
  induction xs as [|x xs IH]; intros H gs.
  - cbn [for_state flat_map]. rewrite app_nil_r. reflexivity.
  - cbn [for_state flat_map]. rewrite (H x gs (or_introl eq_refl)). cbn [bind].
    rewrite IH; [|intros y gs' Hy; apply H; right; exact Hy].
    rewrite app_assoc. reflexivity.
Qed.

Lemma initial_extraction :
  (@nil game_info, sdict_of (map (fun team => (team, @nil team_game)) teams))
  = extraction_of [].
Proof. vm_compute. reflexivity. Qed.

(** The loop with its dictionary lookups yields, without raising, the list
    comprehension over the games with value 1. *)
Lemma extract_spec (m : assignment) :
  extract m = Ok (extraction_of (games_played m)).
Proof.
  unfold extract. rewrite initial_extraction.
  unfold games_played, games_in.
  rewrite (for_state_collect (fun w =>
             flat_map (fun i => flat_map (fun j => selected m w i j) (range T)) (range T)));
    [reflexivity|].
  intros w gs Hw. apply range_In in Hw.
  apply (for_state_collect (fun i => flat_map (fun j => selected m w i j) (range T))).
  intros i gs1 Hi. apply range_In in Hi.
  apply (for_state_collect (fun j => selected m w i j)).
  intros j gs2 Hj. apply range_In in Hj.
  apply extract_game_spec; assumption.
Qed.

(* ===================================================================== *)
(** ** Counting entries of the extracted schedule                         *)
(* ===================================================================== *)

Lemma how_many_nil {A} (p : A -> bool) : how_many p [] = 0%Z.
Proof. reflexivity. Qed.

Lemma how_many_one {A} (p : A -> bool) (x : A) : how_many p [x] = Z.b2z (p x).
Proof. unfold how_many. cbn [filter]. destruct (p x); reflexivity. Qed.

Lemma how_many_app {A} (p : A -> bool) (l1 l2 : list A) :
  how_many p (l1 ++ l2) = (how_many p l1 + how_many p l2)%Z.
Proof. unfold how_many. rewrite filter_app, length_app. lia. Qed.

Lemma how_many_flat_map {A B} (p : B -> bool) (f : A -> list B) (l : list A) :
  how_many p (flat_map f l) = sumZ (fun x => how_many p (f x)) l.
Proof.
  induction l as [|a l IH]; [reflexivity|].
  cbn [flat_map sumZ]. rewrite how_many_app, IH. reflexivity.
Qed.

Lemma how_many_nonneg {A} (p : A -> bool) (l : list A) : (0 <= how_many p l)%Z.
Proof. unfold how_many. lia. Qed.

Lemma flat_map_flat_map {A B C} (f : B -> list C) (g : A -> list B) (l : list A) :
  flat_map f (flat_map g l) = flat_map (fun x => flat_map f (g x)) l.
Proof.
  induction l as [|a l IH]; [reflexivity|].
  cbn [flat_map]. rewrite flat_map_app, IH. reflexivity.
Qed.

Lemma team_schedule_by_week (m : assignment) (t : nat) :
  team_schedule m t = flat_map (week_entries m t) (range W).
Proof. unfold team_schedule, games_played. apply flat_map_flat_map. Qed.

Lemma sumZ_filter_if {A} (f : A -> Z) (q : A -> bool) (l : list A) :
  sumZ f (filter q l) = sumZ (fun x => if q x then f x else 0%Z) l.
Proof.
  induction l as [|a l IH]; [reflexivity|].
  cbn [filter sumZ]. destruct (q a); cbn [sumZ]; rewrite IH; reflexivity.
Qed.

Lemma sumZ_pick_absent (g : nat -> Z) (t : nat) (l : list nat) :
  ~ In t l -> sumZ (fun i => if i =? t then g i else 0%Z) l = 0%Z.
Proof.
  induction l as [|a l IH]; intros H; [reflexivity|].
  cbn [sumZ]. rewrite IH by (intros Hin; apply H; right; exact Hin).
  destruct (a =? t) eqn:E; [|reflexivity].
  apply Nat.eqb_eq in E. exfalso. apply H. left. exact E.
Qed.

Lemma sumZ_pick (g : nat -> Z) (t : nat) (l : list nat) :
  NoDup l -> In t l -> sumZ (fun i => if i =? t then g i else 0%Z) l = g t.
Proof.
  induction l as [|a l IH]; intros Hnd Hin; [contradiction|].
  inversion Hnd as [|a' l' Hna Hnd']; subst. cbn [sumZ].
  destruct Hin as [-> | Hin].
  - rewrite Nat.eqb_refl, sumZ_pick_absent by exact Hna. lia.
  - rewrite IH by assumption.
    destruct (a =? t) eqn:E; [|reflexivity].
    apply Nat.eqb_eq in E. subst a. contradiction.
Qed.

Lemma sumZ_pick_range (g : nat -> Z) (t n : nat) :
  t < n -> sumZ (fun i => if i =? t then g i else 0%Z) (range n) = g t.
Proof.
  intros Ht. apply sumZ_pick; [apply range_NoDup | apply range_In; exact Ht].
Qed.

Lemma sumZ_others (f : nat -> Z) (t : nat) :
  sumZ f (others t) = sumZ (fun j => if negb (j =? t) then f j else 0%Z) (range T).
Proof. unfold others. apply sumZ_filter_if. Qed.

(** What one visited pair [(i, j)] of week [w] contributes to a count over
    the schedule of [t]. *)
Lemma how_many_selected (m : assignment) (p : team_game -> bool) (t w i j : nat) :
  sumZ (fun g => how_many p (entries_for t g)) (selected m w i j) =
  ((if (i =? t)%nat then
      if negb (j =? t)%nat then Z.b2z (m t j w && p (home_entry (w, t, j))) else 0
    else 0) +
   (if (j =? t)%nat then
      if negb (i =? t)%nat then Z.b2z (m i t w && p (away_entry (w, i, t))) else 0
    else 0))%Z.
Proof.
  unfold selected.
  destruct (i =? t) eqn:Eit; destruct (j =? t) eqn:Ejt;
    try (apply Nat.eqb_eq in Eit; subst i); try (apply Nat.eqb_eq in Ejt; subst j);
    cbn [negb].
  - rewrite Nat.eqb_refl. reflexivity.
  - rewrite Nat.eqb_sym, Ejt. cbn [negb andb].
    destruct (m t j w); cbn [sumZ andb Z.b2z]; [|reflexivity].
    cbn [entries_for]. rewrite Nat.eqb_refl, Ejt. cbn [app].
    rewrite how_many_one. lia.
  - rewrite Eit. cbn [negb andb].
    destruct (m i t w); cbn [sumZ andb Z.b2z]; [|reflexivity].
    cbn [entries_for]. rewrite Nat.eqb_refl, Eit. cbn [app].
    rewrite how_many_one. lia.
  - destruct (negb (i =? j) && m i j w); cbn [sumZ]; [|reflexivity].
    cbn [entries_for]. rewrite Eit, Ejt. reflexivity.
Qed.

(** The master count: entries of team [t] in week [w] with property [p],
    as a sum over the opponents of [t]. *)
Lemma how_many_week_entries (m : assignment) (p : team_game -> bool) (t w : nat) :
  t < T ->
  how_many p (week_entries m t w) =
  sumZ (fun j => (Z.b2z (m t j w && p (home_entry (w, t, j))) +
                  Z.b2z (m j t w && p (away_entry (w, j, t))))%Z) (others t).
Proof.
  intros Ht. unfold week_entries, games_in.
  rewrite how_many_flat_map, !sumZ_flat_map.
  rewrite (sumZ_ext _ (fun i =>
             ((if (i =? t)%nat then
                 sumZ (fun j => if negb (j =? t)%nat
                                then Z.b2z (m t j w && p (home_entry (w, t, j)))
                                else 0) (range T)
               else 0) +
              (if negb (i =? t)%nat
               then Z.b2z (m i t w && p (away_entry (w, i, t))) else 0))%Z)).
  - rewrite sumZ_plus, (sumZ_pick_range _ t T Ht), <- !sumZ_others, <- sumZ_plus.
    reflexivity.
  - intros i _. rewrite sumZ_flat_map.
    rewrite (sumZ_ext _ _ _ (fun j _ => how_many_selected m p t w i j)).
    rewrite sumZ_plus. f_equal.
    + destruct (i =? t); [reflexivity | apply sumZ_zero].
    + apply (sumZ_pick_range
               (fun _ => if negb (i =? t)
                         then Z.b2z (m i t w && p (away_entry (w, i, t))) else 0%Z)
               t T Ht).
Qed.

Lemma how_many_team_schedule (m : assignment) (p : team_game -> bool) (t : nat) :
  how_many p (team_schedule m t) =
  sumZ (fun w => how_many p (week_entries m t w)) (range W).
Proof. rewrite team_schedule_by_week. apply how_many_flat_map. Qed.

Lemma sched_dict_get (f : nat -> list team_game) (t : nat) :
  t < T -> sdict_get (sched_dict f) (team_name t) = Ok (f t).
Proof.
  intros Ht. rewrite T_eq in Ht.
  do 16 (destruct t as [|t]; [vm_compute; reflexivity|]). lia.
Qed.

Lemma teams_by_name : teams = map team_name (range T).
Proof. vm_compute. reflexivity. Qed.

(* ===================================================================== *)
(** ** Game types and the division tables                                 *)
(* ===================================================================== *)

Lemma kind_week (w i j : nat) : kind w i j = if w =? 9 then kind 9 i j else kind 0 i j.
Proof.
  destruct (w =? 9) eqn:E.
  - apply Nat.eqb_eq in E. subst w. reflexivity.
  - unfold kind, game_type_of. rewrite E. reflexivity.
Qed.

Lemma kind_table :
  for_all2 T T (fun i j => if kind_agrees 0 i j then kind_agrees 9 i j else false) = true.
Proof. vm_compute. reflexivity. Qed.

Lemma kind_agrees_all (w i j : nat) : i < T -> j < T -> kind_agrees w i j = true.
Proof.
  intros Hi Hj.
  pose proof (for_all2_spec T T
                (fun i j => if kind_agrees 0 i j then kind_agrees 9 i j else false)
                kind_table i j Hi Hj) as H.
  cbv beta in H. destruct (kind_agrees 0 i j) eqn:E0; [|discriminate].
  unfold kind_agrees in *. rewrite (kind_week w i j).
  destruct (w =? 9); assumption.
Qed.

Lemma kind_division (w i j : nat) :
  i < T -> j < T -> game_type_eqb (kind w i j) Division = same_division i j.
Proof.
  intros Hi Hj. pose proof (kind_agrees_all w i j Hi Hj) as H.
  unfold kind_agrees in H. rewrite !andb_true_iff in H.
  destruct H as [[H _] _]. apply eqb_prop in H. exact H.
Qed.

Lemma kind_opposite (w i j : nat) :
  i < T -> j < T ->
  game_type_eqb (kind w i j) Opposite = negb (same_division i j) && opposite_division i j.
Proof.
  intros Hi Hj. pose proof (kind_agrees_all w i j Hi Hj) as H.
  unfold kind_agrees in H. rewrite !andb_true_iff in H.
  destruct H as [[_ H] _]. apply eqb_prop in H. exact H.
Qed.

Lemma kind_cross (w i j : nat) :
  i < T -> j < T ->
  existsb (game_type_eqb (kind w i j)) [CrossDivision; Rivalry]
  = negb (same_division i j) && negb (opposite_division i j).
Proof.
  intros Hi Hj. pose proof (kind_agrees_all w i j Hi Hj) as H.
  unfold kind_agrees in H. rewrite !andb_true_iff in H.
  destruct H as [_ H]. apply eqb_prop in H. exact H.
Qed.

Lemma opposite_division_sym_table :
  for_all2 T T (fun i j => Bool.eqb (opposite_division i j) (opposite_division j i)) = true.
Proof. vm_compute. reflexivity. Qed.

Lemma opposite_division_sym (i j : nat) :
  i < T -> j < T -> opposite_division i j = opposite_division j i.
Proof.
  intros Hi Hj. apply eqb_prop.
  exact (for_all2_spec T T
           (fun i j => Bool.eqb (opposite_division i j) (opposite_division j i))
           opposite_division_sym_table i j Hi Hj).
Qed.

(** Entries of team [t] in week [w] whose type satisfies [q], where [q]
    agrees with a symmetric relation [r] on pairs of teams: the games of
    that week against the opponents related by [r]. *)
Lemma how_many_week_by_relation (m : assignment) (q : game_type -> bool)
  (r : nat -> nat -> bool) (t w : nat) :
  t < T ->
  (forall i j, i < T -> j < T -> q (kind w i j) = r i j) ->
  (forall j, j < T -> r j t = r t j) ->
  how_many (fun g => q (t_Type g)) (week_entries m t w) =
  sumZ (fun j => played m t j w) (filter (r t) (others t)).
Proof.
  intros Ht Hq Hr. rewrite how_many_week_entries by exact Ht.
  rewrite sumZ_filter_if. apply sumZ_ext. intros j Hj.
  apply others_In in Hj. destruct Hj as [Hj _].
  cbn [home_entry away_entry t_Type].
  rewrite (Hq t j Ht Hj), (Hq j t Hj Ht), (Hr j Hj).
  unfold played. destruct (r t j); rewrite ?andb_true_r, ?andb_false_r; cbn [Z.b2z]; lia.
Qed.

Lemma how_many_week_division (m : assignment) (t w : nat) :
  t < T -> how_many (is_type Division) (week_entries m t w) = division_games m t w.
Proof.
  intros Ht. unfold division_games, div_opps.
  apply (how_many_week_by_relation m (fun ty => game_type_eqb ty Division)
           same_division t w Ht).
  - intros i j Hi Hj. apply kind_division; assumption.
  - intros j _. apply same_division_sym.
Qed.

(* ===================================================================== *)
(** ** The schedule extracted from a satisfying assignment                *)
(* ===================================================================== *)

Lemma filter_filter_andb {A} (p q : A -> bool) (l : list A) :
  filter q (filter p l) = filter (fun x => p x && q x) l.
Proof.
  induction l as [|a l IH]; [reflexivity|].
  cbn [filter]. destruct (p a); cbn [filter andb]; [destruct (q a)|]; rewrite IH; reflexivity.
Qed.

Lemma length_how_many {A} (p : A -> bool) (l : list A) (n : nat) :
  how_many p l = Z.of_nat n -> List.length (filter p l) = n.
Proof. unfold how_many. intros H. apply Nat2Z.inj. exact H. Qed.

Lemma how_many_ext {A} (p q : A -> bool) (l : list A) :
  (forall x, In x l -> p x = q x) -> how_many p l = how_many q l.
Proof.
  intros H. unfold how_many. rewrite (filter_ext_in p q l H). reflexivity.
Qed.

Lemma meetings_by_kind (m : assignment) (i : nat) :
  satisfies m -> i < T ->
  sumZ (fun j => meetings m i j) (div_opps i) = 6%Z /\
  sumZ (fun j => meetings m i j) (opp_opps i) = 4%Z /\
  sumZ (fun j => meetings m i j) (cross_opps i) = 4%Z.
Proof.
  intros Hm Hi. destruct (opponents_counts i Hi) as [Ld [Lo _]].
  assert (H14 : season_games m i = 14%Z).
  { unfold season_games. rewrite (sumZ_const (fun w => games_of m i w) 1%Z).
    - reflexivity.
    - intros w Hw. apply one_game_per_week; [exact Hm | exact Hi |].
      apply range_In. exact Hw. }
  assert (Hdiv : sumZ (fun j => meetings m i j) (div_opps i) = 6%Z).
  { rewrite (sumZ_const (fun j => meetings m i j) 2%Z), Ld; [reflexivity|].
    intros j Hj. apply div_opps_In in Hj. destruct Hj as [[Hj Hne] Hd].
    apply division_pair_twice; try assumption. congruence. }
  assert (Hopp : sumZ (fun j => meetings m i j) (opp_opps i) = 4%Z).
  { rewrite (sumZ_const (fun j => meetings m i j) 1%Z), Lo; [reflexivity|].
    intros j Hj. apply opp_opps_In in Hj. destruct Hj as [[[Hj Hne] Hd] Ho].
    apply opposite_pair_once; assumption. }
  repeat split; try assumption.
  pose proof (season_games_by_opponent m i) as E.
  rewrite opponents_split in E. lia.
Qed.

(** Entries of one type over the whole season, by opponent. *)
Lemma how_many_season_by_relation (m : assignment) (q : game_type -> bool)
  (r : nat -> nat -> bool) (t : nat) :
  t < T ->
  (forall w i j, i < T -> j < T -> q (kind w i j) = r i j) ->
  (forall j, j < T -> r j t = r t j) ->
  how_many (fun g => q (t_Type g)) (team_schedule m t) =
  sumZ (fun j => meetings m t j) (filter (r t) (others t)).
Proof.
  intros Ht Hq Hr. rewrite how_many_team_schedule.
  rewrite (sumZ_ext _ (fun w => sumZ (fun j => played m t j w) (filter (r t) (others t)))).
  - unfold meetings. apply (sumZ_swap (fun w j => played m t j w)).
  - intros w _. apply how_many_week_by_relation; [exact Ht | apply Hq | exact Hr].
Qed.

Lemma division_entries (m : assignment) (t : nat) :
  satisfies m -> t < T ->
  List.length (filter (is_type Division) (team_schedule m t)) = 6.
Proof.
  intros Hm Ht. apply length_how_many. unfold is_type.
  rewrite (how_many_season_by_relation m (fun ty => game_type_eqb ty Division)
             same_division t Ht).
  - exact (proj1 (meetings_by_kind m t Hm Ht)).
  - intros w i j. apply kind_division.
  - intros j _. apply same_division_sym.
Qed.

Lemma opposite_entries (m : assignment) (t : nat) :
  satisfies m -> t < T ->
  List.length (filter (is_type Opposite) (team_schedule m t)) = 4.
Proof.
  intros Hm Ht. apply length_how_many. unfold is_type.
  rewrite (how_many_season_by_relation m (fun ty => game_type_eqb ty Opposite)
             (fun i j => negb (same_division i j) && opposite_division i j) t Ht).
  - rewrite <- (filter_filter_andb (fun j => negb (same_division t j))
                  (opposite_division t) (others t)).
    exact (proj1 (proj2 (meetings_by_kind m t Hm Ht))).
  - intros w i j. apply kind_opposite.
  - intros j Hj. rewrite same_division_sym, (opposite_division_sym j t Hj Ht). reflexivity.
Qed.

Lemma cross_entries (m : assignment) (t : nat) :
  satisfies m -> t < T ->
  List.length (filter (fun g => existsb (game_type_eqb (t_Type g))
                                  [CrossDivision; Rivalry]) (team_schedule m t)) = 4.
Proof.
  intros Hm Ht. apply length_how_many. unfold is_type.
  rewrite (how_many_season_by_relation m
             (fun ty => existsb (game_type_eqb ty) [CrossDivision; Rivalry])
             (fun i j => negb (same_division i j) && negb (opposite_division i j)) t Ht).
  - rewrite <- (filter_filter_andb (fun j => negb (same_division t j))
                  (fun j => negb (opposite_division t j)) (others t)).
    exact (proj2 (proj2 (meetings_by_kind m t Hm Ht))).
  - intros w i j. apply kind_cross.
  - intros j Hj. rewrite same_division_sym, (opposite_division_sym j t Hj Ht). reflexivity.
Qed.

(** Entries at one venue satisfying [q] on the type, for a relation [r]. *)
Lemma home_entries_by_relation (m : assignment) (q : game_type -> bool)
  (r : nat -> nat -> bool) (t : nat) :
  t < T ->
  (forall w i j, i < T -> j < T -> q (kind w i j) = r i j) ->
  how_many (fun g => is_home g && q (t_Type g)) (team_schedule m t) =
  sumZ (fun j => hosted m t j) (filter (r t) (others t)).
Proof.
  intros Ht Hq. rewrite how_many_team_schedule.
  rewrite (sumZ_ext _ (fun w => sumZ (fun j => Z.b2z (m t j w)) (filter (r t) (others t)))).
  - unfold hosted. apply (sumZ_swap (fun w j => Z.b2z (m t j w))).
  - intros w _. rewrite how_many_week_entries by exact Ht.
    rewrite sumZ_filter_if. apply sumZ_ext. intros j Hj.
    apply others_In in Hj. destruct Hj as [Hj _].
    cbn [home_entry away_entry t_Type t_Venue is_home venue_eqb andb].
    rewrite (Hq w t j Ht Hj), andb_false_r.
    destruct (r t j); rewrite ?andb_true_r, ?andb_false_r; cbn [Z.b2z]; lia.
Qed.

Lemma away_entries_by_relation (m : assignment) (q : game_type -> bool)
  (r : nat -> nat -> bool) (t : nat) :
  t < T ->
  (forall w i j, i < T -> j < T -> q (kind w i j) = r i j) ->
  (forall j, j < T -> r j t = r t j) ->
  how_many (fun g => is_away g && q (t_Type g)) (team_schedule m t) =
  sumZ (fun j => hosted m j t) (filter (r t) (others t)).
Proof.
  intros Ht Hq Hr. rewrite how_many_team_schedule.
  rewrite (sumZ_ext _ (fun w => sumZ (fun j => Z.b2z (m j t w)) (filter (r t) (others t)))).
  - unfold hosted. apply (sumZ_swap (fun w j => Z.b2z (m j t w))).
  - intros w _. rewrite how_many_week_entries by exact Ht.
    rewrite sumZ_filter_if. apply sumZ_ext. intros j Hj.
    apply others_In in Hj. destruct Hj as [Hj _].
    cbn [home_entry away_entry t_Type t_Venue is_away venue_eqb andb].
    rewrite (Hq w j t Hj Ht), (Hr j Hj), andb_false_r.
    destruct (r t j); rewrite ?andb_true_r, ?andb_false_r; cbn [Z.b2z]; lia.
Qed.

Lemma filter_true {A} (l : list A) : filter (fun _ => true) l = l.
Proof. induction l as [|a l IH]; [reflexivity | cbn [filter]; rewrite IH; reflexivity]. Qed.

Lemma home_entries (m : assignment) (t : nat) :
  satisfies m -> t < T -> List.length (filter is_home (team_schedule m t)) = 7.
Proof.
  intros Hm Ht. apply length_how_many.
  rewrite (how_many_ext is_home (fun g => is_home g && (fun _ => true) (t_Type g)))
    by (intros x _; rewrite andb_true_r; reflexivity).
  rewrite (home_entries_by_relation m (fun _ => true) (fun _ _ => true) t Ht)
    by reflexivity.
  rewrite filter_true. change (Z.of_nat 7) with 7%Z.
  rewrite <- (proj1 (home_away_balance m Hm t Ht)). unfold home_games, hosted.
  apply (sumZ_swap (fun j w => Z.b2z (m t j w))).
Qed.

Lemma away_entries (m : assignment) (t : nat) :
  satisfies m -> t < T -> List.length (filter is_away (team_schedule m t)) = 7.
Proof.
  intros Hm Ht. apply length_how_many.
  rewrite (how_many_ext is_away (fun g => is_away g && (fun _ => true) (t_Type g)))
    by (intros x _; rewrite andb_true_r; reflexivity).
  rewrite (away_entries_by_relation m (fun _ => true) (fun _ _ => true) t Ht)
    by reflexivity.
  rewrite filter_true. change (Z.of_nat 7) with 7%Z.
  rewrite <- (proj2 (home_away_balance m Hm t Ht)). unfold away_games, hosted.
  apply (sumZ_swap (fun j w => Z.b2z (m j t w))).
Qed.

Lemma division_home_entries (m : assignment) (t : nat) :
  satisfies m -> t < T ->
  List.length (filter (fun g => is_home g && is_type Division g) (team_schedule m t)) = 3.
Proof.
  intros Hm Ht. apply length_how_many. unfold is_type.
  rewrite (home_entries_by_relation m (fun ty => game_type_eqb ty Division)
             same_division t Ht) by (intros w i j; apply kind_division).
  fold (div_opps t). rewrite (sumZ_const _ 1%Z).
  - rewrite (proj1 (opponents_counts t Ht)). reflexivity.
  - intros j Hj. apply div_opps_In in Hj. destruct Hj as [[Hj Hne] Hd].
    apply (division_pair_host_once m Hm); try assumption. congruence.
Qed.

Lemma division_away_entries (m : assignment) (t : nat) :
  satisfies m -> t < T ->
  List.length (filter (fun g => is_away g && is_type Division g) (team_schedule m t)) = 3.
Proof.
  intros Hm Ht. apply length_how_many. unfold is_type.
  rewrite (away_entries_by_relation m (fun ty => game_type_eqb ty Division)
             same_division t Ht);
    [|intros w i j; apply kind_division | intros j _; apply same_division_sym].
  fold (div_opps t). rewrite (sumZ_const _ 1%Z).
  - rewrite (proj1 (opponents_counts t Ht)). reflexivity.
  - intros j Hj. apply div_opps_In in Hj. destruct Hj as [[Hj Hne] Hd].
    apply (division_pair_host_once m Hm); try assumption.
    rewrite same_division_sym. exact Hd.
Qed.

(* ===================================================================== *)
(** ** The validation summary of a satisfying assignment                  *)
(* ===================================================================== *)

Lemma for_map_singletons {A B C} (f : A -> C) (body : C -> result (list B))
  (g : A -> B) (l : list A) :
  (forall x, In x l -> body (f x) = Ok [g x]) ->
  for_ (map f l) body = Ok (map g l).
Proof.
  induction l as [|a l IH]; intros H; [reflexivity|].
  cbn [map for_]. rewrite (H a (or_introl eq_refl)). cbn [bind].
  rewrite IH by (intros x Hx; apply H; right; exact Hx). reflexivity.
Qed.

(** A check that prints one line per team, on the extracted schedule. *)
Lemma for_teams_lines {B} (body : string -> result (list B))
  (g : string -> B) :
  (forall t, t < T -> body (team_name t) = Ok [g (team_name t)]) ->
  for_ teams body = Ok (map g teams).
Proof.
  intros H. rewrite teams_by_name, map_map.
  apply for_map_singletons. intros t Ht. apply H. apply range_In. exact Ht.
Qed.

Lemma extracted_schedule (m : assignment) :
  snd (extraction_of (games_played m)) = sched_dict (team_schedule m).
Proof. reflexivity. Qed.

(** The first check of the summary: for every schedule the solver can
    return, each team is reported with 7 home and 7 away games, 14 in all,
    and a pass mark. *)
Theorem total_balance_check_passes (m : assignment) :
  satisfies m ->
  exists st, extract m = Ok st /\
    check_total_balance (snd st) =
    Ok (map (fun team => TotalBalance team 7 7 14 Pass) teams).
Proof.
  intros Hm. exists (extraction_of (games_played m)).
  split; [apply extract_spec|]. rewrite extracted_schedule.
  unfold check_total_balance. apply for_teams_lines. intros t Ht.
  rewrite (sched_dict_get _ t Ht). cbn [bind].
  rewrite (home_entries m t Hm Ht), (away_entries m t Hm Ht). reflexivity.
Qed.

Lemma total_balance_check_passes_witness :
  satisfies m0 /\
  exists st, extract m0 = Ok st /\
    check_total_balance (snd st) =
    Ok (map (fun team => TotalBalance team 7 7 14 Pass) teams).
Proof.
  split; [exact m0_satisfies|].
  exact (total_balance_check_passes m0 m0_satisfies).
Defined.

(** The divisional balance check: each team is reported with 3 home and 3
    away division games and a pass mark. *)
Theorem divisional_balance_check_passes (m : assignment) :
  satisfies m ->
  exists st, extract m = Ok st /\
    check_divisional_balance (snd st) =
    Ok (map (fun team => DivisionalBalance team 3 3 6 Pass) teams).
Proof.
  intros Hm. exists (extraction_of (games_played m)).
  split; [apply extract_spec|]. rewrite extracted_schedule.
  unfold check_divisional_balance. apply for_teams_lines. intros t Ht.
  rewrite (sched_dict_get _ t Ht). cbn [bind].
  rewrite (division_home_entries m t Hm Ht), (division_away_entries m t Hm Ht).
  reflexivity.
Qed.

Lemma divisional_balance_check_passes_witness :
  satisfies m0 /\
  exists st, extract m0 = Ok st /\
    check_divisional_balance (snd st) =
    Ok (map (fun team => DivisionalBalance team 3 3 6 Pass) teams).
Proof.
  split; [exact m0_satisfies|].
  exact (divisional_balance_check_passes m0 m0_satisfies).
Defined.

(** The last check: each team is reported with 6 division, 4 opposite and 4
    cross-division or rivalry games, 14 in all, and a pass mark. *)
Theorem breakdown_check_passes (m : assignment) :
  satisfies m ->
  exists st, extract m = Ok st /\
    check_breakdown (snd st) =
    Ok (map (fun team => Breakdown team 6 4 4 14 Pass) teams).
Proof.
  intros Hm. exists (extraction_of (games_played m)).
  split; [apply extract_spec|]. rewrite extracted_schedule.
  unfold check_breakdown. apply for_teams_lines. intros t Ht.
  rewrite (sched_dict_get _ t Ht). cbn [bind].
  rewrite (division_entries m t Hm Ht), (opposite_entries m t Hm Ht),
          (cross_entries m t Hm Ht).
  reflexivity.
Qed.

Lemma breakdown_check_passes_witness :
  satisfies m0 /\
  exists st, extract m0 = Ok st /\
    check_breakdown (snd st) =
    Ok (map (fun team => Breakdown team 6 4 4 14 Pass) teams).
Proof.
  split; [exact m0_satisfies|].
  exact (breakdown_check_passes m0 m0_satisfies).
Defined.

Lemma selected_In (m : assignment) (w i j : nat) (g : game) :
  In g (selected m w i j) -> g = (w, i, j) /\ i <> j /\ m i j w = true.
Proof.
  unfold selected. destruct (i =? j) eqn:E; cbn [negb andb]; [intros []|].
  destruct (m i j w); [|intros []].
  intros [<- | []]. apply Nat.eqb_neq in E. repeat split. exact E.
Qed.

Lemma games_in_In (m : assignment) (w : nat) (g : game) :
  In g (games_in m w) ->
  exists i j, g = (w, i, j) /\ i < T /\ j < T /\ i <> j /\ m i j w = true.
Proof.
  unfold games_in. intros H.
  apply in_flat_map in H. destruct H as [i [Hi H]].
  apply in_flat_map in H. destruct H as [j [Hj H]].
  apply range_In in Hi, Hj. apply selected_In in H. destruct H as [-> [Hne Hm]].
  exists i, j. repeat split; assumption.
Qed.

Lemma entries_for_In (t : nat) (g : game) (e : team_game) :
  In e (entries_for t g) ->
  (fst (fst g) + 1 = t_Week e) /\
  ((snd (fst g) = t /\ e = home_entry g) \/ (snd g = t /\ e = away_entry g)).
Proof.
  destruct g as [[w i] j]. cbn [entries_for fst snd]. intros H.
  apply in_app_or in H. destruct H as [H | H].
  - destruct (i =? t) eqn:E; [|contradiction]. destruct H as [<- | []].
    apply Nat.eqb_eq in E. split; [reflexivity | left; split; [exact E | reflexivity]].
  - destruct (j =? t) eqn:E; [|contradiction]. destruct H as [<- | []].
    apply Nat.eqb_eq in E. split; [reflexivity | right; split; [exact E | reflexivity]].
Qed.

Lemma week_entries_week (m : assignment) (t w : nat) (e : team_game) :
  In e (week_entries m t w) -> t_Week e = w + 1.
Proof.
  unfold week_entries. intros H. apply in_flat_map in H. destruct H as [g [Hg He]].
  apply games_in_In in Hg. destruct Hg as [i [j [-> _]]].
  apply entries_for_In in He. cbn [fst snd] in He. symmetry. exact (proj1 He).
Qed.

Lemma how_many_false {A} (p : A -> bool) (l : list A) :
  (forall x, In x l -> p x = false) -> how_many p l = 0%Z.
Proof.
  intros H. rewrite (how_many_ext p (fun _ => false) l H).
  unfold how_many. induction l as [|a l IH]; [reflexivity|].
  cbn [filter]. apply IH. intros x Hx. apply H. right. exact Hx.
Qed.

(** Entries of a given type in the weeks selected by [c] (on the printed,
    1-based week number). *)
Lemma how_many_in_weeks (m : assignment) (p : team_game -> bool) (c : nat -> bool)
  (t : nat) :
  how_many (fun g => p g && c (t_Week g)) (team_schedule m t) =
  sumZ (fun w => how_many p (week_entries m t w)) (filter (fun w => c (w + 1)) (range W)).
Proof.
  rewrite how_many_team_schedule, sumZ_filter_if. apply sumZ_ext. intros w _.
  destruct (c (w + 1)) eqn:E.
  - apply how_many_ext. intros e He.
    rewrite (week_entries_week m t w e He), E. apply andb_true_r.
  - apply how_many_false. intros e He.
    rewrite (week_entries_week m t w e He), E. apply andb_false_r.
Qed.

Lemma for_teams_Forall2 {B} (body : string -> result (list B))
  (P : string -> B -> Prop) :
  (forall t, t < T -> exists b, body (team_name t) = Ok [b] /\ P (team_name t) b) ->
  exists c, for_ teams body = Ok c /\ Forall2 P teams c.
Proof.
  intros H. rewrite teams_by_name.
  assert (G : forall l, (forall t, In t l -> t < T) ->
                exists c, for_ (map team_name l) body = Ok c /\
                          Forall2 P (map team_name l) c).
  { induction l as [|t l IH]; intros Hl.
    - exists []. split; [reflexivity | constructor].
    - destruct (H t (Hl t (or_introl eq_refl))) as [b [Eb Pb]].
      destruct IH as [c [Ec Pc]]; [intros x Hx; apply Hl; right; exact Hx|].
      exists (b :: c). split.
      + cbn [map for_]. rewrite Eb. cbn [bind]. rewrite Ec. reflexivity.
      + constructor; assumption. }
  apply G. intros t Ht. apply range_In. exact Ht.
Qed.

Lemma last_eight_entries (m : assignment) (t : nat) :
  satisfies m -> t < T ->
  3 <= List.length (filter (fun g => is_type Division g && (7 <=? t_Week g))
                      (team_schedule m t)).
Proof.
  intros Hm Ht.
  pose proof (how_many_in_weeks m (is_type Division) (fun w => 7 <=? w) t) as H.
  cbv beta in H.
  rewrite (sumZ_ext _ (fun w => division_games m t w)) in H
    by (intros w _; apply how_many_week_division; exact Ht).
  change (filter (fun w => 7 <=? w + 1) (range W)) with last_8_weeks in H.
  pose proof (division_density_floor m Hm t Ht) as F.
  unfold how_many in H. lia.
Qed.

(** The last-eight-weeks check: each team is reported with at least 3
    division games in weeks 7 to 14 and a pass mark. *)
Theorem last_eight_check_passes (m : assignment) :
  satisfies m ->
  exists st c, extract m = Ok st /\ check_last_eight (snd st) = Ok c /\
    Forall2 (fun team l => exists n, 3 <= n /\ l = LastEight team n Pass) teams c.
Proof.
  intros Hm. exists (extraction_of (games_played m)).
  rewrite extracted_schedule. unfold check_last_eight.
  destruct (for_teams_Forall2
              (fun team =>
                 sched <- sdict_get (sched_dict (team_schedule m)) team ;;
                 let last_8_div_games :=
                   List.length (filter (fun g => is_type Division g && (7 <=? t_Week g))
                                  sched) in
                 Ok [LastEight team last_8_div_games (status_of (3 <=? last_8_div_games))])
              (fun team l => exists n, 3 <= n /\ l = LastEight team n Pass))
    as [c [Ec Hc]].
  - intros t Ht. rewrite (sched_dict_get _ t Ht). cbn [bind]. cbv zeta.
    pose proof (last_eight_entries m t Hm Ht) as H.
    eexists. split; [reflexivity|]. eexists. split; [exact H|].
    rewrite (proj2 (Nat.leb_le _ _) H). reflexivity.
  - exists c. split; [apply extract_spec|]. split; [exact Ec | exact Hc].
Qed.

Lemma last_eight_check_passes_witness :
  satisfies m0 /\
  exists st c, extract m0 = Ok st /\ check_last_eight (snd st) = Ok c /\
    Forall2 (fun team l => exists n, 3 <= n /\ l = LastEight team n Pass) teams c.
Proof.
  split; [exact m0_satisfies|].
  exact (last_eight_check_passes m0 m0_satisfies).
Defined.

Lemma insert_sorted_filter {A} (key : A -> nat) (p : A -> bool) (x : A) (l : list A) :
  List.length (filter p (insert_sorted key x l)) = List.length (filter p (x :: l)).
Proof.
  induction l as [|y l IH]; [reflexivity|].
  cbn [insert_sorted]. destruct (key x <=? key y); [reflexivity|].
  cbn [filter] in *. destruct (p y), (p x); cbn [List.length] in *; rewrite IH; reflexivity.
Qed.

Lemma sorted_filter {A} (key : A -> nat) (p : A -> bool) (l : list A) :
  List.length (filter p (sorted key l)) = List.length (filter p l).
Proof.
  induction l as [|x l IH]; [reflexivity|].
  unfold sorted in *. cbn [fold_right]. rewrite insert_sorted_filter.
  cbn [filter]. destruct (p x); cbn [List.length]; rewrite IH; reflexivity.
Qed.

Lemma filter_map_length {A B} (f : A -> B) (p : B -> bool) (l : list A) :
  List.length (filter p (map f l)) = List.length (filter (fun x => p (f x)) l).
Proof.
  induction l as [|x l IH]; [reflexivity|].
  cbn [map filter]. destruct (p (f x)); cbn [List.length]; rewrite IH; reflexivity.
Qed.

Lemma window_weeks (k : nat) :
  k + 2 < W ->
  filter (fun w => existsb (Nat.eqb (w + 1)) [k + 1; k + 1 + 1; k + 1 + 2]) (range W)
  = [k; k + 1; k + 2].
Proof.
  intros Hk. unfold W in Hk.
  do 12 (destruct k as [|k]; [reflexivity|]). lia.
Qed.

Lemma window_division_entries (m : assignment) (t k : nat) :
  satisfies m -> t < T -> k + 2 < W ->
  List.length
    (filter (fun w => existsb (Nat.eqb w) [k + 1; k + 1 + 1; k + 1 + 2])
       (sorted (fun w => w)
          (map t_Week (filter (is_type Division) (team_schedule m t))))) <= 2.
Proof.
  intros Hm Ht Hk.
  rewrite sorted_filter, filter_map_length, filter_filter_andb.
  pose proof (how_many_in_weeks m (is_type Division)
                (fun w => existsb (Nat.eqb w) [k + 1; k + 1 + 1; k + 1 + 2]) t) as H.
  cbv beta in H. rewrite (window_weeks k Hk) in H. cbn [sumZ] in H.
  rewrite !how_many_week_division in H by exact Ht.
  pose proof (division_density_cap m Hm t k Ht Hk) as C.
  unfold how_many in H. lia.
Qed.

Lemma fold_max_le {A} (f : A -> nat) (b : nat) (l : list A) :
  (forall c, In c l -> f c <= b) ->
  forall acc, acc <= b -> fold_left (fun acc c => Nat.max acc (f c)) l acc <= b.
Proof.
  induction l as [|c l IH]; intros H acc Hacc; [exact Hacc|].
  cbn [fold_left]. apply IH.
  - intros c' Hc'. apply H. right. exact Hc'.
  - apply Nat.max_lub; [exact Hacc | apply H; left; reflexivity].
Qed.

Lemma filter_none {A} (p : A -> bool) (l : list A) :
  (forall x, In x l -> p x = false) -> filter p l = [].
Proof.
  induction l as [|a l IH]; intros H; [reflexivity|].
  cbn [filter]. rewrite (H a (or_introl eq_refl)).
  apply IH. intros x Hx. apply H. right. exact Hx.
Qed.

(** The 3-week-window check: each team is reported with at most 2 division
    games in any window, a pass mark and no violation. *)
Theorem density_check_passes (m : assignment) :
  satisfies m ->
  exists st c, extract m = Ok st /\ check_density (snd st) = Ok c /\
    Forall2 (fun team l => exists n, n <= 2 /\ l = Density team n Pass []) teams c.
Proof.
  intros Hm. exists (extraction_of (games_played m)).
  rewrite extracted_schedule. unfold check_density.
  destruct (for_teams_Forall2
              (fun team =>
                 sched <- sdict_get (sched_dict (team_schedule m)) team ;;
                 let div_games := filter (is_type Division) sched in
                 let div_weeks := sorted (fun w => w) (map t_Week div_games) in
                 let windows :=
                   map (fun w1 =>
                          let window_weeks := [w1; w1 + 1; w1 + 2] in
                          (w1, List.length (filter (fun w => existsb (Nat.eqb w) window_weeks)
                                              div_weeks)))
                       (range2 1 13) in
                 let max_consecutive :=
                   fold_left (fun acc c => Nat.max acc (snd c)) windows 0 in
                 let violations :=
                   map (fun c => (fst c, fst c + 2)) (filter (fun c => 2 <? snd c) windows) in
                 Ok [Density team max_consecutive (status_of (max_consecutive <=? 2))
                       violations])
              (fun team l => exists n, n <= 2 /\ l = Density team n Pass []))
    as [c [Ec Hc]].
  - intros t Ht. rewrite (sched_dict_get _ t Ht). cbn [bind]. cbv zeta.
    set (windows := map _ (range2 1 13)).
    assert (Hw : forall c, In c windows -> snd c <= 2).
    { intros c Hin. unfold windows in Hin. apply in_map_iff in Hin.
      destruct Hin as [w1 [<- Hw1]]. cbn [snd].
      unfold range2 in Hw1. apply in_seq in Hw1.
      replace w1 with ((w1 - 1) + 1) by lia.
      apply window_division_entries; [exact Hm | exact Ht | unfold W; lia]. }
    pose proof (fold_max_le snd 2 windows Hw 0 (Nat.le_0_l 2)) as Hmax.
    eexists. split; [reflexivity|]. eexists. split; [exact Hmax|].
    rewrite (proj2 (Nat.leb_le _ _) Hmax).
    rewrite (filter_none (fun c => 2 <? snd c) windows); [reflexivity|].
    intros c Hin. apply Nat.ltb_ge. exact (Hw c Hin).
  - exists c. split; [apply extract_spec|]. split; [exact Ec | exact Hc].
Qed.

Lemma density_check_passes_witness :
  satisfies m0 /\
  exists st c, extract m0 = Ok st /\ check_density (snd st) = Ok c /\
    Forall2 (fun team l => exists n, n <= 2 /\ l = Density team n Pass []) teams c.
Proof.
  split; [exact m0_satisfies|].
  exact (density_check_passes m0 m0_satisfies).
Defined.

(* ===================================================================== *)
(** ** One entry per team and week                                        *)
(* ===================================================================== *)

Lemma week_entries_length (m : assignment) (t w : nat) :
  satisfies m -> t < T -> w < W -> List.length (week_entries m t w) = 1.
Proof.
  intros Hm Ht Hw.
  rewrite <- (filter_true (week_entries m t w)). apply length_how_many.
  rewrite how_many_week_entries by exact Ht. change (Z.of_nat 1) with 1%Z.
  rewrite <- (one_game_per_week m Hm t w Ht Hw). unfold games_of, played.
  apply sumZ_ext. intros j _. rewrite !andb_true_r. reflexivity.
Qed.

Lemma week_entries_single (m : assignment) (t w : nat) :
  satisfies m -> t < T -> w < W -> week_entries m t w = [week_entry m t w].
Proof.
  intros Hm Ht Hw. pose proof (week_entries_length m t w Hm Ht Hw) as H.
  unfold week_entry. destruct (week_entries m t w) as [|e [|e' l]]; try discriminate.
  reflexivity.
Qed.

Lemma week_entry_In (m : assignment) (t w : nat) :
  satisfies m -> t < T -> w < W -> In (week_entry m t w) (week_entries m t w).
Proof.
  intros Hm Ht Hw. rewrite (week_entries_single m t w Hm Ht Hw).
  left. reflexivity.
Qed.

Lemma week_entry_week (m : assignment) (t w : nat) :
  satisfies m -> t < T -> w < W -> t_Week (week_entry m t w) = w + 1.
Proof.
  intros Hm Ht Hw. apply (week_entries_week m t w). apply week_entry_In; assumption.
Qed.

Lemma flat_map_singletons {A B} (f : A -> B) (h : A -> list B) (l : list A) :
  (forall x, In x l -> h x = [f x]) -> flat_map h l = map f l.
Proof.
  induction l as [|a l IH]; intros H; [reflexivity|].
  cbn [flat_map map]. rewrite (H a (or_introl eq_refl)).
  rewrite IH by (intros x Hx; apply H; right; exact Hx). reflexivity.
Qed.

(** For a satisfying assignment, the schedule of a team is one entry per
    week, in week order. *)
Lemma team_schedule_weekly (m : assignment) (t : nat) :
  satisfies m -> t < T -> team_schedule m t = map (week_entry m t) (range W).
Proof.
  intros Hm Ht. rewrite team_schedule_by_week. apply flat_map_singletons.
  intros w Hw. apply week_entries_single; [exact Hm | exact Ht |].
  apply range_In. exact Hw.
Qed.

Lemma find_week (m : assignment) (t : nat) (l : list nat) (w : nat) :
  satisfies m -> t < T -> (forall x, In x l -> x < W) -> In w l ->
  exists e, find (fun g => t_Week g =? w + 1) (map (week_entry m t) l) = Some e.
Proof.
  intros Hm Ht. induction l as [|a l IH]; intros Hl Hin; [contradiction|].
  cbn [map find].
  destruct (t_Week (week_entry m t a) =? w + 1) eqn:E; [eexists; reflexivity|].
  destruct Hin as [-> | Hin].
  - rewrite (week_entry_week m t w Hm Ht (Hl w (or_introl eq_refl))) in E.
    rewrite Nat.eqb_refl in E. discriminate.
  - apply IH; [intros x Hx; apply Hl; right; exact Hx | exact Hin].
Qed.

Lemma grid_cell_plays (m : assignment) (t week : nat) :
  satisfies m -> t < T -> In week (range2 1 15) ->
  grid_cell (team_schedule m t) week <> "BYE".
Proof.
  intros Hm Ht Hweek. unfold range2 in Hweek. apply in_seq in Hweek.
  rewrite (team_schedule_weekly m t Hm Ht). unfold grid_cell.
  destruct (find_week m t (range W) (week - 1) Hm Ht) as [e He].
  - intros x Hx. apply range_In. exact Hx.
  - apply range_In. unfold W. lia.
  - replace (week - 1 + 1) with week in He by lia. rewrite He.
    destruct (venue_eqb (t_Venue e) Home); cbn; discriminate.
Qed.

Lemma comprehension_map {A B} (f : A -> result B) (g : A -> B) (l : list A) :
  (forall x, In x l -> f x = Ok (g x)) -> comprehension l f = Ok (map g l).
Proof.
  induction l as [|a l IH]; intros H; [reflexivity|].
  cbn [comprehension map]. rewrite (H a (or_introl eq_refl)). cbn [bind].
  rewrite IH by (intros x Hx; apply H; right; exact Hx). reflexivity.
Qed.

(** The team grid of a schedule the solver can return has one row per
    team, each with 14 week cells, and no cell says BYE. *)
Theorem team_grid_has_no_bye (m : assignment) :
  satisfies m ->
  exists st grid, extract m = Ok st /\ team_grid (snd st) = Ok grid /\
    Forall2 (fun team row =>
               grid_Team row = team /\ List.length (grid_Weeks row) = 14 /\
               ~ In "BYE" (grid_Weeks row)) teams grid.
Proof.
  intros Hm. exists (extraction_of (games_played m)).
  rewrite extracted_schedule. unfold team_grid.
  destruct (for_teams_Forall2
              (fun team =>
                 d <- sdict_get div_of team ;;
                 cells <- comprehension (range2 1 15) (fun week =>
                            sched <- sdict_get (sched_dict (team_schedule m)) team ;;
                            Ok (grid_cell sched week)) ;;
                 Ok [GridRow team d cells])
              (fun team row =>
                 grid_Team row = team /\ List.length (grid_Weeks row) = 14 /\
                 ~ In "BYE" (grid_Weeks row))) as [c [Ec Hc]].
  - intros t Ht.
    destruct (division_known _ (proj2 (team_name_ok t Ht))) as [d [o [Ed _]]].
    rewrite Ed. cbn [bind].
    rewrite (comprehension_map _ (fun week => grid_cell (team_schedule m t) week)).
    + cbn [bind]. eexists. split; [reflexivity|]. cbn [grid_Team grid_Weeks].
      split; [reflexivity|]. split; [rewrite length_map; reflexivity|].
      intros Hin. apply in_map_iff in Hin. destruct Hin as [week [E Hweek]].
      exact (grid_cell_plays m t week Hm Ht Hweek E).
    + intros week _. rewrite (sched_dict_get _ t Ht). reflexivity.
  - exists c. split; [apply extract_spec|]. split; [exact Ec | exact Hc].
Qed.

Lemma team_grid_has_no_bye_witness :
  satisfies m0 /\
  exists st grid, extract m0 = Ok st /\ team_grid (snd st) = Ok grid /\
    Forall2 (fun team row =>
               grid_Team row = team /\ List.length (grid_Weeks row) = 14 /\
               ~ In "BYE" (grid_Weeks row)) teams grid.
Proof.
  split; [exact m0_satisfies|].
  exact (team_grid_has_no_bye m0 m0_satisfies).
Defined.

(* ===================================================================== *)
(** ** The games of one week in [games_by_week]                           *)
(* ===================================================================== *)

Lemma filter_flat_map {A B} (p : B -> bool) (f : A -> list B) (l : list A) :
  filter p (flat_map f l) = flat_map (fun x => filter p (f x)) l.
Proof.
  induction l as [|a l IH]; [reflexivity|].
  cbn [flat_map]. rewrite filter_app, IH. reflexivity.
Qed.

Lemma map_of_flat_map {A B C} (g : B -> C) (f : A -> list B) (l : list A) :
  map g (flat_map f l) = flat_map (fun x => map g (f x)) l.
Proof.
  induction l as [|a l IH]; [reflexivity|].
  cbn [flat_map]. rewrite map_app, IH. reflexivity.
Qed.

Lemma filter_all {A} (p : A -> bool) (l : list A) :
  (forall x, In x l -> p x = true) -> filter p l = l.
Proof.
  induction l as [|a l IH]; intros H; [reflexivity|].
  cbn [filter]. rewrite (H a (or_introl eq_refl)). f_equal.
  apply IH. intros x Hx. apply H. right. exact Hx.
Qed.

Lemma flat_map_absent {A} (h : nat -> list A) (w : nat) (l : list nat) :
  ~ In w l -> (forall x, In x l -> x <> w -> h x = []) -> flat_map h l = [].
Proof.
  induction l as [|a l IH]; intros Hn H; [reflexivity|].
  cbn [flat_map]. rewrite (H a (or_introl eq_refl)).
  - apply IH; [intros Hin; apply Hn; right; exact Hin|].
    intros x Hx. apply H. right. exact Hx.
  - intros E. apply Hn. left. exact E.
Qed.

Lemma flat_map_pick {A} (h : nat -> list A) (w : nat) (l : list nat) :
  NoDup l -> In w l -> (forall x, In x l -> x <> w -> h x = []) -> flat_map h l = h w.
Proof.
  induction l as [|a l IH]; intros Hnd Hin H; [contradiction|].
  inversion Hnd as [|a' l' Hna Hnd']; subst. cbn [flat_map].
  destruct Hin as [-> | Hin].
  - rewrite (flat_map_absent h w l Hna); [apply app_nil_r|].
    intros x Hx. apply H. right. exact Hx.
  - rewrite (H a (or_introl eq_refl)) by (intros E; subst a; contradiction).
    apply IH; [exact Hnd' | exact Hin |]. intros x Hx. apply H. right. exact Hx.
Qed.

Lemma games_of_week (m : assignment) (week w : nat) :
  week = w + 1 -> w < W ->
  filter (fun g => g_Week g =? week) (map game_row (games_played m))
  = map game_row (games_in m w).
Proof.
  intros -> Hw. unfold games_played.
  rewrite map_of_flat_map, filter_flat_map.
  rewrite (flat_map_pick _ w (range W) (range_NoDup W) (proj2 (range_In W w) Hw)).
  - apply filter_all. intros g Hg. apply in_map_iff in Hg.
    destruct Hg as [x [<- Hx]]. apply games_in_In in Hx.
    destruct Hx as [i [j [-> _]]]. cbn [game_row g_Week]. apply Nat.eqb_refl.
  - intros x _ Hne. apply filter_none. intros g Hg. apply in_map_iff in Hg.
    destruct Hg as [y [<- Hy]]. apply games_in_In in Hy.
    destruct Hy as [i [j [-> _]]]. cbn [game_row g_Week]. apply Nat.eqb_neq. lia.
Qed.

Lemma length_flat_map_sum {A B} (f : A -> list B) (l : list A) :
  Z.of_nat (List.length (flat_map f l)) = sumZ (fun x => Z.of_nat (List.length (f x))) l.
Proof.
  induction l as [|a l IH]; [reflexivity|].
  cbn [flat_map sumZ]. rewrite length_app, Nat2Z.inj_add, IH. reflexivity.
Qed.

Lemma games_in_length (m : assignment) (w : nat) :
  Z.of_nat (List.length (games_in m w)) = games_in_week m w.
Proof.
  unfold games_in, games_in_week. rewrite length_flat_map_sum.
  apply sumZ_ext. intros i _. rewrite length_flat_map_sum, sumZ_others.
  apply sumZ_ext. intros j _. unfold selected. rewrite (Nat.eqb_sym j i).
  destruct (i =? j); cbn [negb andb]; [reflexivity|].
  destruct (m i j w); reflexivity.
Qed.

Lemma week_has_eight_games (m : assignment) (w : nat) :
  satisfies m -> w < W -> List.length (games_in m w) = 8.
Proof.
  intros Hm Hw. apply Nat2Z.inj. rewrite games_in_length.
  exact (games_per_week m Hm w Hw).
Qed.

Lemma game_type_eqb_eq (a b : game_type) : game_type_eqb a b = true -> a = b.
Proof. destruct a, b; cbn; intros H; try discriminate; reflexivity. Qed.

Lemma final_week_games_divisional (m : assignment) (g : game) :
  satisfies m -> In g (games_in m 13) -> g_Type (game_row g) = Division.
Proof.
  intros Hm Hg. apply games_in_In in Hg.
  destruct Hg as [i [j [-> [Hi [Hj [Hne Hv]]]]]]. cbn [game_row g_Type].
  apply game_type_eqb_eq. rewrite (kind_division 13 i j Hi Hj).
  destruct (same_division i j) eqn:Hd; [reflexivity|].
  pose proof (final_week_no_cross m Hm i j Hi Hj Hne Hd) as H.
  change final_week with 13 in H. congruence.
Qed.

(** The week-14 check: all eight games of week 14 are reported as division
    games with a pass mark, followed by the all-divisional message. *)
Theorem final_week_check_passes (m : assignment) :
  satisfies m ->
  exists st games, extract m = Ok st /\ List.length games = 8 /\
    check_final_week (fst st) =
    map (fun g => FinalWeekGame (g_Away g) (g_Home g) Division Pass) games
    ++ [FinalWeekAll 8].
Proof.
  intros Hm. exists (extraction_of (games_played m)), (map game_row (games_in m 13)).
  split; [apply extract_spec|].
  assert (L : List.length (map game_row (games_in m 13)) = 8).
  { rewrite length_map. apply week_has_eight_games; [exact Hm | unfold W; lia]. }
  split; [exact L|].
  cbn [fst extraction_of]. unfold check_final_week.
  rewrite (games_of_week m 14 13 eq_refl) by (unfold W; lia).
  assert (D : forall g, In g (map game_row (games_in m 13)) ->
                game_type_eqb (g_Type g) Division = true).
  { intros g Hg. apply in_map_iff in Hg. destruct Hg as [x [<- Hx]].
    rewrite (final_week_games_divisional m x Hm Hx). reflexivity. }
  rewrite (filter_all _ _ D), L, (proj2 (forallb_forall _ _) D).
  f_equal. apply map_ext_in. intros g Hg.
  rewrite (D g Hg), (game_type_eqb_eq _ _ (D g Hg)). reflexivity.
Qed.

Lemma final_week_check_passes_witness :
  satisfies m0 /\
  exists st games, extract m0 = Ok st /\ List.length games = 8 /\
    check_final_week (fst st) =
    map (fun g => FinalWeekGame (g_Away g) (g_Home g) Division Pass) games
    ++ [FinalWeekAll 8].
Proof.
  split; [exact m0_satisfies|].
  exact (final_week_check_passes m0 m0_satisfies).
Defined.

(* ===================================================================== *)
(** ** Rivalry week                                                       *)
(* ===================================================================== *)

Lemma others_NoDup (i : nat) : NoDup (others i).
Proof. unfold others. apply NoDup_filter, range_NoDup. Qed.

(** In rivalry week a team plays nobody but its rival. *)
Lemma rivalry_week_opponent (m : assignment) (i j : nat) :
  satisfies m -> i < T -> j < T -> i <> j ->
  (1 <= played m i j rivalry_week)%Z -> is_rival i j = true.
Proof.
  intros Hm Hi Hj Hne Hp.
  destruct (opponents_counts i Hi) as [_ [_ [_ Hr]]].
  apply existsb_exists in Hr. destruct Hr as [r [Hin Hriv]].
  apply cross_opps_In in Hin. destruct Hin as [[[Hr Hri] _] _].
  destruct (Nat.eq_dec j r) as [-> | Hjr]; [exact Hriv|].
  pose proof (rivals_meet_in_rivalry_week m Hm i r Hi Hr Hriv) as H1.
  assert (Hw : rivalry_week < W) by (unfold rivalry_week, W; lia).
  pose proof (one_game_per_week m Hm i rivalry_week Hi Hw) as H2.
  unfold games_of in H2.
  pose proof (sumZ_ge_two (fun j => played m i j rivalry_week) (others i) j r
                (fun a _ => proj1 (played_range m i a rivalry_week))
                (others_NoDup i)
                (proj2 (others_In i j) (conj Hj (not_eq_sym Hne)))
                (proj2 (others_In i r) (conj Hr Hri)) Hjr) as H3.
  cbv beta in H3. lia.
Qed.

Lemma rivals_found :
  for_all2 T T (fun i j => if is_rival i j then rival_found i j else true) = true.
Proof. vm_compute. reflexivity. Qed.

Lemma rivalry_week_games_found (m : assignment) (g : game) :
  satisfies m -> In g (games_in m 9) ->
  exists rival_pair,
    find (fun rival_pair =>
            pair_eqb (g_Home (game_row g), g_Away (game_row g)) rival_pair
            || pair_eqb (g_Away (game_row g), g_Home (game_row g)) rival_pair) rivals
    = Some rival_pair.
Proof.
  intros Hm Hg. apply games_in_In in Hg.
  destruct Hg as [i [j [-> [Hi [Hj [Hne Hv]]]]]]. cbn [game_row g_Home g_Away].
  assert (Hr : is_rival i j = true).
  { apply (rivalry_week_opponent m i j Hm Hi Hj Hne).
    unfold played. change rivalry_week with 9. rewrite Hv.
    pose proof (b2z_range (m j i 9)). cbn [Z.b2z]. lia. }
  pose proof (for_all2_spec T T
                (fun i j => if is_rival i j then rival_found i j else true)
                rivals_found i j Hi Hj) as H.
  cbv beta in H. rewrite Hr in H. unfold rival_found in H.
  match goal with |- exists _, ?f = _ => destruct f as [rp|] end;
    [exists rp; reflexivity | discriminate].
Qed.

(** The rivalry-week check: each of the eight games of week 10 is reported
    as a rivalry game, followed by the message that all 8 were found. *)
Theorem rivalry_week_check_passes (m : assignment) :
  satisfies m ->
  exists st games, extract m = Ok st /\ List.length games = 8 /\
    check_rivalry_week (fst st) =
    map (fun g => RivalryGame (g_Home g) (g_Away g)) games ++ [RivalryAll 8].
Proof.
  intros Hm. exists (extraction_of (games_played m)), (map game_row (games_in m 9)).
  split; [apply extract_spec|].
  assert (L : List.length (map game_row (games_in m 9)) = 8).
  { rewrite length_map. apply week_has_eight_games; [exact Hm | unfold W; lia]. }
  split; [exact L|].
  cbn [fst extraction_of]. unfold check_rivalry_week.
  rewrite (games_of_week m 10 9 eq_refl) by (unfold W; lia).
  set (F := fun game : game_info =>
              match find (fun rival_pair =>
                            pair_eqb (g_Home game, g_Away game) rival_pair
                            || pair_eqb (g_Away game, g_Home game) rival_pair) rivals with
              | Some rival_pair => [(rival_pair, RivalryGame (g_Home game) (g_Away game))]
              | None => []
              end).
  assert (G : forall l,
             (forall g, In g l -> In g (games_in m 9)) ->
             map snd (flat_map F (map game_row l))
             = map (fun g => RivalryGame (g_Home g) (g_Away g)) (map game_row l) /\
             List.length (map fst (flat_map F (map game_row l)))
             = List.length (map game_row l)).
  { induction l as [|g l IH]; intros Hl; [split; reflexivity|].
    destruct IH as [IH1 IH2]; [intros x Hx; apply Hl; right; exact Hx|].
    destruct (rivalry_week_games_found m g Hm (Hl g (or_introl eq_refl))) as [rp E].
    cbn [map flat_map]. unfold F at 1 3. rewrite E. cbn [app map List.length].
    rewrite IH1, IH2. split; reflexivity. }
  destruct (G (games_in m 9) (fun g H => H)) as [G1 G2].
  change (flat_map _ (map game_row (games_in m 9)))
    with (flat_map F (map game_row (games_in m 9))).
  rewrite G1, G2, L. reflexivity.
Qed.

Lemma rivalry_week_check_passes_witness :
  satisfies m0 /\
  exists st games, extract m0 = Ok st /\ List.length games = 8 /\
    check_rivalry_week (fst st) =
    map (fun g => RivalryGame (g_Home g) (g_Away g)) games ++ [RivalryAll 8].
Proof.
  split; [exact m0_satisfies|].
  exact (rivalry_week_check_passes m0 m0_satisfies).
Defined.

(* ===================================================================== *)
(** ** Home and away streaks                                              *)
(* ===================================================================== *)

Lemma no_run_tail (a : venue) (l : list venue) :
  no_run_of_four (a :: l) = true -> no_run_of_four l = true.
Proof.
  destruct l as [|b [|c [|d l]]]; try reflexivity.
  cbn [no_run_of_four]. intros H. apply andb_true_iff in H. exact (proj2 H).
Qed.

Lemma no_run_suffix (l1 l2 : list venue) :
  no_run_of_four (l1 ++ l2) = true -> no_run_of_four l2 = true.
Proof.
  induction l1 as [|a l1 IH]; intros H; [exact H|].
  apply IH. exact (no_run_tail a _ H).
Qed.

Lemma venue_eqb_refl (v : venue) : venue_eqb v v = true.
Proof. destruct v; reflexivity. Qed.

Lemma venue_eqb_eq (a b : venue) : venue_eqb a b = true -> a = b.
Proof. destruct a, b; cbn; intros H; try discriminate; reflexivity. Qed.

Lemma no_run_repeat (v : venue) (n : nat) (l : list venue) :
  no_run_of_four (repeat v n ++ l) = true -> n <= 3.
Proof.
  intros H. destruct n as [|[|[|[|n]]]]; try lia.
  cbn [repeat app no_run_of_four] in H. unfold same4 in H.
  rewrite venue_eqb_refl in H. discriminate.
Qed.

Lemma streak_loop_clean (rest : list venue) :
  forall s,
    streak_violations s = [] ->
    no_run_of_four (repeat (current_venue s) (current_streak s) ++ rest) = true ->
    streak_violations (record_streak (fold_left streak_step rest s)) = [].
Proof.
  induction rest as [|v rest IH]; intros s Hv Hrun.
  - cbn [fold_left]. unfold record_streak. cbn [streak_violations].
    pose proof (no_run_repeat _ _ _ Hrun) as Hn.
    rewrite (proj2 (Nat.ltb_ge _ _) Hn). exact Hv.
  - cbn [fold_left]. apply IH; unfold streak_step.
    + destruct (venue_eqb v (current_venue s)); cbn [streak_violations]; [exact Hv|].
      unfold record_streak. cbn [streak_violations].
      pose proof (no_run_repeat _ _ _ Hrun) as Hn.
      rewrite (proj2 (Nat.ltb_ge _ _) Hn). exact Hv.
    + destruct (venue_eqb v (current_venue s)) eqn:E;
        cbn [current_venue current_streak].
      * apply venue_eqb_eq in E. subst v.
        rewrite repeat_app, <- app_assoc. exact Hrun.
      * exact (no_run_suffix _ _ Hrun).
Qed.

Lemma streaks_clean (venues : list venue) :
  no_run_of_four venues = true -> snd (streaks_of venues) = [].
Proof.
  intros H. destruct venues as [|v0 rest]; [reflexivity|].
  cbn [streaks_of snd]. apply streak_loop_clean; [reflexivity | exact H].
Qed.

Lemma no_run_map_seq (f : nat -> venue) (n : nat) :
  forall a,
    (forall w, a <= w -> w + 3 < a + n ->
       same4 (f w) (f (S w)) (f (S (S w))) (f (S (S (S w)))) = false) ->
    no_run_of_four (map f (seq a n)) = true.
Proof.
  induction n as [|n IH]; intros a H; [reflexivity|].
  assert (Ht : no_run_of_four (map f (seq (S a) n)) = true).
  { apply IH. intros w Hw1 Hw2. apply H; lia. }
  destruct n as [|[|[|n]]]; try reflexivity.
  cbn [seq map no_run_of_four] in *. rewrite (H a) by lia. exact Ht.
Qed.

Lemma week_entry_venue (m : assignment) (t w : nat) :
  satisfies m -> t < T -> w < W ->
  hosts_in_week m t w = Z.b2z (is_home (week_entry m t w)) /\
  visits_in_week m t w = Z.b2z (is_away (week_entry m t w)).
Proof.
  intros Hm Ht Hw. rewrite <- !how_many_one.
  rewrite <- (week_entries_single m t w Hm Ht Hw).
  rewrite !how_many_week_entries by exact Ht.
  unfold hosts_in_week, visits_in_week. split; apply sumZ_ext; intros j _;
    cbn [home_entry away_entry is_home is_away t_Venue venue_eqb];
    rewrite andb_true_r, andb_false_r; cbn [Z.b2z]; lia.
Qed.

Lemma season_has_no_run_of_four (m : assignment) (t : nat) :
  satisfies m -> t < T ->
  no_run_of_four (map (fun w => t_Venue (week_entry m t w)) (range W)) = true.
Proof.
  intros Hm Ht. unfold range. apply no_run_map_seq. intros w _ Hw.
  destruct (home_away_windows m t w Hm Ht) as [Hh Ha]; [lia|].
  assert (B : forall k, k < 4 ->
                hosts_in_week m t (w + k) = Z.b2z (is_home (week_entry m t (w + k))) /\
                visits_in_week m t (w + k) = Z.b2z (is_away (week_entry m t (w + k)))).
  { intros k Hk. apply week_entry_venue; [exact Hm | exact Ht | lia]. }
  pose proof (B 0) as B0. pose proof (B 1) as B1.
  pose proof (B 2) as B2. pose proof (B 3) as B3.
  rewrite Nat.add_0_r in B0.
  replace (S w) with (w + 1) by lia.
  replace (S (w + 1)) with (w + 2) by lia.
  replace (S (w + 2)) with (w + 3) by lia.
  destruct B0 as [B0h B0a]; [lia|]. destruct B1 as [B1h B1a]; [lia|].
  destruct B2 as [B2h B2a]; [lia|]. destruct B3 as [B3h B3a]; [lia|].
  rewrite B0h, B1h, B2h, B3h in Hh. rewrite B0a, B1a, B2a, B3a in Ha.
  unfold same4, is_home, is_away in *. revert Hh Ha.
  generalize (t_Venue (week_entry m t w)) (t_Venue (week_entry m t (w + 1)))
             (t_Venue (week_entry m t (w + 2))) (t_Venue (week_entry m t (w + 3))).
  clear. intros v0 v1 v2 v3.
  destruct v0, v1, v2, v3; cbn [venue_eqb Z.b2z andb]; intros Hh Ha;
    try reflexivity; lia.
Qed.

Lemma insert_sorted_head {A} (key : A -> nat) (x : A) (l : list A) :
  (forall y, In y l -> key x <= key y) -> insert_sorted key x l = x :: l.
Proof.
  destruct l as [|y l]; intros H; [reflexivity|].
  cbn [insert_sorted]. rewrite (proj2 (Nat.leb_le _ _) (H y (or_introl eq_refl))).
  reflexivity.
Qed.

Lemma sorted_map_seq {A} (key : A -> nat) (e : nat -> A) (n : nat) :
  forall a,
    (forall w, a <= w -> w < a + n -> key (e w) = w + 1) ->
    sorted key (map e (seq a n)) = map e (seq a n).
Proof.
  induction n as [|n IH]; intros a H; [reflexivity|].
  cbn [seq map]. unfold sorted in *. cbn [fold_right].
  rewrite IH by (intros w Hw1 Hw2; apply H; lia).
  apply insert_sorted_head. intros y Hy. apply in_map_iff in Hy.
  destruct Hy as [w [<- Hw]]. apply in_seq in Hw.
  rewrite (H a), (H w) by lia. lia.
Qed.

Lemma team_schedule_sorted (m : assignment) (t : nat) :
  satisfies m -> t < T -> sorted t_Week (team_schedule m t) = team_schedule m t.
Proof.
  intros Hm Ht. rewrite (team_schedule_weekly m t Hm Ht). unfold range.
  apply sorted_map_seq. intros w _ Hw. apply week_entry_week; [exact Hm | exact Ht | exact Hw].
Qed.

Lemma Forall2_flags {A} (P : A -> line -> Prop) (l : list A) (rows : list (bool * line)) :
  Forall2 (fun a r => fst r = true /\ P a (snd r)) l rows ->
  forallb fst rows = true /\ Forall2 P l (map snd rows).
Proof.
  induction 1 as [|a r l rows [Hf Hp] _ [IH1 IH2]]; [split; [reflexivity | constructor]|].
  cbn [forallb map]. rewrite Hf, IH1. split; [reflexivity | constructor; assumption].
Qed.

(** The streak check: each team is reported with a pass mark and no
    violation, followed by the message that all teams are fine. *)
Theorem streak_check_passes (m : assignment) :
  satisfies m ->
  exists st rows, extract m = Ok st /\
    check_streaks (snd st) = Ok (rows ++ [StreaksAll]) /\
    Forall2 (fun team l => exists h a, l = Streaks team h a Pass []) teams rows.
Proof.
  intros Hm. exists (extraction_of (games_played m)).
  rewrite extracted_schedule. unfold check_streaks.
  match goal with
  | |- context [for_ teams ?body] =>
      destruct (for_teams_Forall2 body
                  (fun team r => fst r = true /\
                                 exists h a, snd r = Streaks team h a Pass []))
        as [c [Ec Hc]]
  end.
  - intros t Ht. rewrite (sched_dict_get _ t Ht). cbn [bind]. cbv zeta.
    rewrite (team_schedule_sorted m t Hm Ht), (team_schedule_weekly m t Hm Ht), map_map.
    pose proof (streaks_clean _ (season_has_no_run_of_four m t Hm Ht)) as Hs.
    destruct (streaks_of _) as [[mh ma] vs]. cbn [snd] in Hs. subst vs.
    eexists. split; [reflexivity|]. cbn [fst snd is_empty status_of].
    split; [reflexivity|]. exists mh, ma. reflexivity.
  - destruct (Forall2_flags (fun team l => exists h a, l = Streaks team h a Pass [])
                teams c Hc) as [Hall Hrows].
    exists (map snd c). split; [apply extract_spec|].
    rewrite Ec. cbn [bind]. rewrite Hall. split; [reflexivity | exact Hrows].
Qed.

Lemma streak_check_passes_witness :
  satisfies m0 /\
  exists st rows, extract m0 = Ok st /\
    check_streaks (snd st) = Ok (rows ++ [StreaksAll]) /\
    Forall2 (fun team l => exists h a, l = Streaks team h a Pass []) teams rows.
Proof.
  split; [exact m0_satisfies|].
  exact (streak_check_passes m0 m0_satisfies).
Defined.

(* ===================================================================== *)
(** ** Who plays whom in the extracted schedule                           *)
(* ===================================================================== *)

Lemma names_indexed : for_all T index_of_name = true.
Proof. vm_compute. reflexivity. Qed.

Lemma team_name_inj (i j : nat) : i < T -> j < T -> team_name i = team_name j -> i = j.
Proof.
  intros Hi Hj E.
  pose proof (for_all_spec T index_of_name names_indexed i Hi) as Fi.
  pose proof (for_all_spec T index_of_name names_indexed j Hj) as Fj.
  unfold index_of_name in Fi, Fj. rewrite E in Fi.
  destruct (sdict_get idx (team_name j)) as [a|]; [|discriminate].
  apply Nat.eqb_eq in Fi, Fj. congruence.
Qed.

Lemma games_played_In (m : assignment) (w i j : nat) :
  w < W -> i < T -> j < T -> i <> j -> m i j w = true -> In (w, i, j) (games_played m).
Proof.
  intros Hw Hi Hj Hne Hv. unfold games_played, games_in.
  apply in_flat_map. exists w. split; [apply range_In; exact Hw|].
  apply in_flat_map. exists i. split; [apply range_In; exact Hi|].
  apply in_flat_map. exists j. split; [apply range_In; exact Hj|].
  unfold selected. rewrite (proj2 (Nat.eqb_neq i j) Hne), Hv. left. reflexivity.
Qed.

(** A game with value 1 appears in the schedules of both teams. *)
Lemma entries_of_game (m : assignment) (w i j : nat) :
  w < W -> i < T -> j < T -> i <> j -> m i j w = true ->
  In (home_entry (w, i, j)) (team_schedule m i) /\
  In (away_entry (w, i, j)) (team_schedule m j).
Proof.
  intros Hw Hi Hj Hne Hv.
  pose proof (games_played_In m w i j Hw Hi Hj Hne Hv) as Hg.
  unfold team_schedule. split; apply in_flat_map; exists (w, i, j);
    (split; [exact Hg|]); cbn [entries_for]; apply in_or_app.
  - left. rewrite Nat.eqb_refl. left. reflexivity.
  - right. rewrite Nat.eqb_refl. left. reflexivity.
Qed.

Lemma team_schedule_In (m : assignment) (t : nat) (e : team_game) :
  In e (team_schedule m t) ->
  exists w j, w < W /\ j < T /\ j <> t /\ t_Week e = w + 1 /\
              t_Opponent e = team_name j /\
              ((m t j w = true /\ t_Venue e = Home) \/
               (m j t w = true /\ t_Venue e = Away)).
Proof.
  unfold team_schedule, games_played. intros H.
  apply in_flat_map in H. destruct H as [g [Hg He]].
  apply in_flat_map in Hg. destruct Hg as [w [Hw Hg]]. apply range_In in Hw.
  apply games_in_In in Hg. destruct Hg as [i [j [-> [Hi [Hj [Hne Hv]]]]]].
  apply entries_for_In in He. cbn [fst snd] in He.
  destruct He as [Hwk [[<- ->] | [<- ->]]].
  - exists w, j. cbn [home_entry t_Week t_Opponent t_Venue].
    repeat split; try assumption; try lia. left. split; [exact Hv | reflexivity].
  - exists w, i. cbn [away_entry t_Week t_Opponent t_Venue].
    repeat split; try assumption; try lia. right. split; [exact Hv | reflexivity].
Qed.













(* ===================================================================== *)
(** ** Division game separation                                           *)
(* ===================================================================== *)




Lemma for_length_Forall {A B} (P : B -> Prop) (k : nat) (xs : list A)
  (body : A -> result (list B)) :
  (forall x, In x xs -> exists ys, body x = Ok ys /\ List.length ys = k /\ Forall P ys) ->
  exists zs, for_ xs body = Ok zs /\
             List.length zs = k * List.length xs /\ Forall P zs.
Proof.
  induction xs as [|a xs IH]; intros H.
  - exists []. split; [reflexivity|]. split; [cbn; lia | constructor].
  - destruct (H a (or_introl eq_refl)) as [ys [Ea [La Pa]]].
    destruct IH as [zs [Ez [Lz Pz]]]; [intros x Hx; apply H; right; exact Hx|].
    exists (ys ++ zs). split; [|split].
    + cbn [for_]. rewrite Ea, Ez. reflexivity.
    + rewrite length_app, La, Lz. cbn [List.length]. lia.
    + apply Forall_app. split; assumption.
Qed.





Lemma name_eqb (i j : nat) :
  i < T -> j < T -> String.eqb (team_name i) (team_name j) = (i =? j).
Proof.
  intros Hi Hj. destruct (i =? j) eqn:E.
  - apply Nat.eqb_eq in E. subst j. apply String.eqb_refl.
  - apply String.eqb_neq. intros H. apply Nat.eqb_neq in E.
    exact (E (team_name_inj i j Hi Hj H)).
Qed.

(** Entries of [a] against [b], counted: their meetings. *)
Lemma meetings_entries (m : assignment) (a b : nat) :
  a < T -> b < T -> a <> b ->
  how_many (fun g => String.eqb (t_Opponent g) (team_name b)) (team_schedule m a)
  = meetings m a b.
Proof.
  intros Ha Hb Hne. rewrite how_many_team_schedule. unfold meetings.
  apply sumZ_ext. intros w _. rewrite how_many_week_entries by exact Ha.
  rewrite (sumZ_ext _ (fun j => if j =? b then played m a j w else 0%Z)).
  - apply (sumZ_pick (fun j => played m a j w) b (others a) (others_NoDup a)).
    apply others_In. split; [exact Hb | congruence].
  - intros j Hj. apply others_In in Hj. destruct Hj as [Hj _].
    cbn [home_entry away_entry t_Opponent]. rewrite (name_eqb j b Hj Hb).
    unfold played. destruct (j =? b); rewrite ?andb_true_r, ?andb_false_r;
      cbn [Z.b2z]; lia.
Qed.




(* ===================================================================== *)
(** ** Non-division opponents                                             *)
(* ===================================================================== *)

Lemma sdict_get_Ok_pair {V} (d : list (string * V)) (k : string) (v : V) :
  sdict_get d k = Ok v -> exists k', String.eqb k k' = true /\ In (k', v) d.
Proof.
  unfold sdict_get. induction d as [|[k' v'] d IH]; cbn [dict_get In]; intros H.
  - discriminate.
  - destruct (String.eqb k k') eqn:E.
    + apply Ok_inj in H. subst v'. exists k'. split; [exact E | left; reflexivity].
    + destruct (IH H) as [k2 [E2 I2]]. exists k2. split; [exact E2 | right; exact I2].
Qed.

(** A count in [opponent_counts] never exceeds the number of games against
    that opponent. *)
Lemma count_opponents_bound (team_games : list team_game) :
  forall oc, In oc (count_opponents team_games) ->
    snd oc <= List.length (filter (fun g => String.eqb (t_Opponent g) (fst oc)) team_games).
Proof.
  unfold count_opponents.
  assert (G : forall l pre (acc : list (string * nat)),
             (forall oc, In oc acc ->
                snd oc <= List.length (filter (fun g => String.eqb (t_Opponent g) (fst oc)) pre)) ->
             forall oc,
               In oc (fold_left (fun opponent_counts game =>
                        let opponent := t_Opponent game in
                        dict_set String.eqb opponent_counts opponent
                          (sdict_get_or opponent_counts opponent 0 + 1)) l acc) ->
               snd oc <= List.length (filter (fun g => String.eqb (t_Opponent g) (fst oc))
                                        (pre ++ l))).
  { induction l as [|g l IH]; intros pre acc Hacc oc Hoc.
    - rewrite app_nil_r. exact (Hacc oc Hoc).
    - cbn [fold_left] in Hoc. cbv zeta in Hoc.
      replace (pre ++ g :: l) with ((pre ++ [g]) ++ l) by (rewrite <- app_assoc; reflexivity).
      revert oc Hoc. apply IH. intros [k c] H. cbn [fst snd].
      rewrite filter_app, length_app. cbn [filter].
      apply dict_set_In in H. destruct H as [H | [-> ->]].
      + pose proof (Hacc _ H) as B. cbn [fst snd] in B. lia.
      + rewrite String.eqb_refl. cbn [List.length].
        unfold sdict_get_or. destruct (sdict_get acc (t_Opponent g)) as [c0|] eqn:E.
        * apply sdict_get_Ok_pair in E. destruct E as [k' [Ek Hin]].
          apply String.eqb_eq in Ek. subst k'.
          pose proof (Hacc _ Hin) as B. cbn [fst snd] in B. lia.
        * lia. }
  intros oc Hoc. apply (G team_games [] []); [intros x [] | exact Hoc].
Qed.

Lemma division_of_name (j : nat) :
  j < T -> sdict_get div_of (team_name j) = division j.
Proof.
  intros Hj. unfold division. rewrite (proj1 (team_name_ok j Hj)). reflexivity.
Qed.

Lemma for_nil {A B} (xs : list A) (body : A -> result (list B)) :
  (forall x, In x xs -> body x = Ok []) -> for_ xs body = Ok [].
Proof.
  induction xs as [|a xs IH]; intros H; [reflexivity|].
  cbn [for_]. rewrite (H a (or_introl eq_refl)), IH; [reflexivity|].
  intros x Hx. apply H. right. exact Hx.
Qed.

Lemma no_repeated_outsider (m : assignment) (t : nat) (oc : string * nat) :
  satisfies m -> t < T ->
  In oc (count_opponents (team_schedule m t)) ->
  exists j, j < T /\ fst oc = team_name j /\
            (same_division t j = false -> snd oc <= 1).
Proof.
  intros Hm Ht Hoc.
  assert (Hk : exists j, j < T /\ j <> t /\ fst oc = team_name j).
  { apply (count_opponents_keys (team_schedule m t)
             (fun k => exists j, j < T /\ j <> t /\ k = team_name j)); [|exact Hoc].
    intros g Hg. apply team_schedule_In in Hg.
    destruct Hg as [w [j [_ [Hj [Hne [_ [E _]]]]]]]. exists j. repeat split; assumption. }
  destruct Hk as [j [Hj [Hne Ek]]]. exists j. split; [exact Hj|]. split; [exact Ek|].
  intros Hd. pose proof (count_opponents_bound _ oc Hoc) as B. rewrite Ek in B.
  pose proof (meetings_entries m t j Ht Hj (not_eq_sym Hne)) as E.
  pose proof (non_division_at_most_once m Hm t j Ht Hj (not_eq_sym Hne) Hd) as M.
  unfold how_many in E. lia.
Qed.

(** The non-division check: each team is reported with a pass mark and no
    violation, followed by the message that all teams are fine. *)
Theorem non_division_check_passes (m : assignment) :
  satisfies m ->
  exists st, extract m = Ok st /\
    check_non_division (snd st) =
    Ok (map (fun team => NonDivision team Pass []) teams ++ [NonDivisionAll]).
Proof.
  intros Hm. exists (extraction_of (games_played m)).
  split; [apply extract_spec|]. rewrite extracted_schedule.
  unfold check_non_division.
  rewrite (for_teams_lines _ (fun team => (true, NonDivision team Pass []))).
  - cbn [bind]. reflexivity.
  - intros t Ht. rewrite (sched_dict_get _ t Ht). cbn [bind]. cbv zeta.
    destruct (division_known _ (proj2 (team_name_ok t Ht))) as [d [o [Ed _]]].
    rewrite Ed. cbn [bind].
    rewrite for_nil; [reflexivity|].
    intros oc Hoc.
    destruct (no_repeated_outsider m t oc Hm Ht Hoc) as [j [Hj [Ek Hcount]]].
    rewrite Ek. destruct (division_known _ (proj2 (team_name_ok j Hj))) as [dj [oj [Edj _]]].
    rewrite Edj. cbn [bind].
    destruct (String.eqb dj d) eqn:Esame; cbn [negb]; [reflexivity|].
    assert (Hd : same_division t j = false).
    { unfold same_division. rewrite <- (division_of_name t Ht), <- (division_of_name j Hj).
      rewrite Ed, Edj. rewrite String.eqb_sym. exact Esame. }
    rewrite (proj2 (Nat.ltb_ge _ _) (Hcount Hd)). reflexivity.
Qed.

Lemma non_division_check_passes_witness :
  satisfies m0 /\
  exists st, extract m0 = Ok st /\
    check_non_division (snd st) =
    Ok (map (fun team => NonDivision team Pass []) teams ++ [NonDivisionAll]).
Proof.
  split; [exact m0_satisfies|].
  exact (non_division_check_passes m0 m0_satisfies).
Defined.

(* ===================================================================== *)
(** ** What the extraction records, for any values                        *)
(* ===================================================================== *)

(** Whatever values the solver returned, the extraction loop raises nothing
    and records exactly the games whose variable is 1: [games_by_week] holds
    a row for a game if and only if its variable is 1 (week numbers printed
    from 1), and the schedule of each team holds a home entry for each game
    it hosts and an away entry for each game it visits, and nothing else. *)
Theorem extraction_records_exactly_the_games (m : assignment) :
  exists st, extract m = Ok st /\
    (forall g, In g (fst st) <->
       exists w i j, w < W /\ i < T /\ j < T /\ i <> j /\ m i j w = true /\
                     g = GameInfo (w + 1) (team_name j) (team_name i) (kind w i j)) /\
    (forall t, t < T ->
       exists sched, sdict_get (snd st) (team_name t) = Ok sched /\
         forall e, In e sched <->
           exists w j, w < W /\ j < T /\ j <> t /\
             ((m t j w = true /\ e = TeamGame (w + 1) (team_name j) Home (kind w t j)) \/
              (m j t w = true /\ e = TeamGame (w + 1) (team_name j) Away (kind w j t)))).
Proof.
  exists (extraction_of (games_played m)). split; [apply extract_spec|]. split.
  - intros g. cbn [fst extraction_of]. split.
    + intros H. apply in_map_iff in H. destruct H as [x [<- Hx]].
      unfold games_played in Hx. apply in_flat_map in Hx.
      destruct Hx as [w [Hw Hx]]. apply range_In in Hw.
      apply games_in_In in Hx. destruct Hx as [i [j [-> [Hi [Hj [Hne Hv]]]]]].
      exists w, i, j. repeat split; assumption.
    + intros [w [i [j [Hw [Hi [Hj [Hne [Hv ->]]]]]]]].
      apply in_map_iff. exists (w, i, j).
      split; [reflexivity | apply games_played_In; assumption].
  - intros t Ht. rewrite extracted_schedule.
    exists (team_schedule m t). split; [apply sched_dict_get; exact Ht|].
    intros e. split.
    + intros H. unfold team_schedule in H. apply in_flat_map in H.
      destruct H as [g [Hg He]]. unfold games_played in Hg.
      apply in_flat_map in Hg. destruct Hg as [w [Hw Hg]]. apply range_In in Hw.
      apply games_in_In in Hg. destruct Hg as [i [j [-> [Hi [Hj [Hne Hv]]]]]].
      apply entries_for_In in He. cbn [fst snd] in He.
      destruct He as [_ [[<- ->] | [<- ->]]].
      * exists w, j. repeat split; try assumption; try congruence.
        left. split; [exact Hv | reflexivity].
      * exists w, i. repeat split; try assumption.
        right. split; [exact Hv | reflexivity].
    + intros [w [j [Hw [Hj [Hne [[Hv ->] | [Hv ->]]]]]]].
      * exact (proj1 (entries_of_game m w t j Hw Ht Hj (not_eq_sym Hne) Hv)).
      * exact (proj2 (entries_of_game m w j t Hw Hj Ht Hne Hv)).
Qed.

(** The two schedule files of a schedule the solver can return: 112 games
    by week (8 for each of the 14 weeks) and 224 rows by team (14 for each
    of the 16 teams). *)
Theorem schedule_files_sizes (m : assignment) :
  satisfies m ->
  exists o, solution_found m = Ok o /\
    List.length (schedule_by_week o) = 112 /\
    List.length (schedule_by_team o) = 224.
Proof.
  intros Hm.
  destruct (extract_ok m) as [st [Est Hwf]].
  pose proof Est as Est'. rewrite extract_spec in Est'. apply Ok_inj in Est'.
  destruct (team_grid_ok _ Hwf) as [grid Eg].
  destruct (validation_ok st Hwf) as [report [Ev _]].
  assert (Hrows : exists rows, team_rows (snd st) = Ok rows /\
                               List.length rows = 14 * List.length teams /\
                               Forall (fun _ => True) rows).
  { unfold team_rows. apply for_length_Forall. intros team Hteam.
    rewrite teams_by_name in Hteam. apply in_map_iff in Hteam.
    destruct Hteam as [t [<- Ht]]. apply range_In in Ht.
    rewrite <- Est', extracted_schedule, (sched_dict_get _ t Ht). cbn [bind].
    destruct (division_known _ (proj2 (team_name_ok t Ht))) as [d [o [Ed _]]].
    assert (Hopp : forall game, In game (team_schedule m t) ->
                     exists od, sdict_get div_of (t_Opponent game) = Ok od).
    { intros game Hg. apply team_schedule_In in Hg.
      destruct Hg as [w [j [_ [Hj [_ [_ [E _]]]]]]]. rewrite E.
      destruct (division_known _ (proj2 (team_name_ok j Hj))) as [od [_ [Eod _]]].
      exists od. exact Eod. }
    rewrite (comprehension_map _
               (fun game =>
                  TeamRow (team_name t) d (t_Week game) (t_Opponent game)
                    (match sdict_get div_of (t_Opponent game) with
                     | Ok od => od
                     | Raise _ => EmptyString
                     end)
                    (t_Venue game) (t_Type game))).
    - eexists. split; [reflexivity|]. split.
      + rewrite length_map, (team_schedule_weekly m t Hm Ht), length_map.
        reflexivity.
      + apply Forall_forall. intros x _. exact I.
    - intros game Hg. rewrite Ed. cbn [bind].
      destruct (Hopp game Hg) as [od Eod]. rewrite Eod. reflexivity. }
  destruct Hrows as [rows [Er [Lr _]]].
  exists (Output (fst st) rows grid report). split.
  - unfold solution_found. rewrite Est. cbn [bind]. rewrite Er, Eg, Ev. reflexivity.
  - cbn [schedule_by_week schedule_by_team]. split; [|exact Lr].
    rewrite <- Est'. cbn [fst extraction_of]. rewrite length_map.
    apply Nat2Z.inj. unfold games_played. rewrite length_flat_map_sum.
    rewrite (sumZ_const _ 8%Z); [reflexivity|].
    intros w Hw. apply range_In in Hw.
    rewrite (week_has_eight_games m w Hm Hw). reflexivity.
Qed.

Lemma schedule_files_sizes_witness :
  satisfies m0 /\
  exists o, solution_found m0 = Ok o /\
    List.length (schedule_by_week o) = 112 /\
    List.length (schedule_by_team o) = 224.
Proof.
  split; [exact m0_satisfies|].
  exact (schedule_files_sizes m0 m0_satisfies).
Defined.

(* ===================================================================== *)
(** ** The rivalry label                                                  *)
(* ===================================================================== *)

Lemma rivalry_labels :
  for_all2 T T (fun i j => if i =? j then true else rivalry_label_ok i j) = true.
Proof. vm_compute. reflexivity. Qed.

Lemma rivalry_label_spec (w i j : nat) :
  i < T -> j < T -> i <> j ->
  game_type_eqb (kind w i j) Rivalry = (w =? 9) && is_rival i j.
Proof.
  intros Hi Hj Hne.
  pose proof (for_all2_spec T T
                (fun i j => if i =? j then true else rivalry_label_ok i j)
                rivalry_labels i j Hi Hj) as H.
  cbv beta in H. rewrite (proj2 (Nat.eqb_neq i j) Hne) in H.
  unfold rivalry_label_ok in H. apply andb_true_iff in H. destruct H as [H9 H0].
  apply eqb_prop in H9. apply negb_true_iff in H0.
  rewrite (kind_week w i j). destruct (w =? 9); cbn [andb]; assumption.
Qed.

(** In a schedule the solver can return, the games labelled "Rivalry" are
    exactly the games of week 10. *)
Theorem rivalry_label_marks_week_ten (m : assignment) :
  satisfies m ->
  exists st, extract m = Ok st /\
    forall g, In g (fst st) -> (g_Type g = Rivalry <-> g_Week g = 10).
Proof.
  intros Hm. exists (extraction_of (games_played m)). split; [apply extract_spec|].
  intros g Hg. cbn [fst extraction_of] in Hg. apply in_map_iff in Hg.
  destruct Hg as [x [<- Hx]]. unfold games_played in Hx. apply in_flat_map in Hx.
  destruct Hx as [w [Hw Hx]]. apply range_In in Hw.
  apply games_in_In in Hx. destruct Hx as [i [j [-> [Hi [Hj [Hne Hv]]]]]].
  cbn [game_row g_Type g_Week].
  pose proof (rivalry_label_spec w i j Hi Hj Hne) as L.
  destruct (w =? 9) eqn:E9.
  - apply Nat.eqb_eq in E9. subst w. cbn [andb] in L.
    assert (Hr : is_rival i j = true).
    { apply (rivalry_week_opponent m i j Hm Hi Hj Hne).
      unfold played. change rivalry_week with 9. rewrite Hv.
      pose proof (b2z_range (m j i 9)). cbn [Z.b2z]. lia. }
    rewrite Hr in L. apply game_type_eqb_eq in L. rewrite L.
    split; reflexivity.
  - cbn [andb] in L. apply Nat.eqb_neq in E9. split.
    + intros H. rewrite H in L. discriminate.
    + intros H. lia.
Qed.

Lemma rivalry_label_marks_week_ten_witness :
  satisfies m0 /\
  exists st, extract m0 = Ok st /\
    forall g, In g (fst st) -> (g_Type g = Rivalry <-> g_Week g = 10).
Proof.
  split; [exact m0_satisfies|].
  exact (rivalry_label_marks_week_ten m0 m0_satisfies).
Defined.

(* ===================================================================== *)
(** ** The balance check recomputes the true counts                       *)
(* ===================================================================== *)

Lemma home_count (m : assignment) (t : nat) :
  t < T -> how_many is_home (team_schedule m t) = home_games m t.
Proof.
  intros Ht.
  rewrite (how_many_ext is_home (fun g => is_home g && (fun _ => true) (t_Type g)))
    by (intros x _; rewrite andb_true_r; reflexivity).
  rewrite (home_entries_by_relation m (fun _ => true) (fun _ _ => true) t Ht)
    by reflexivity.
  rewrite filter_true. unfold home_games, hosted.
  apply (sumZ_swap (fun j w => Z.b2z (m t j w))).
Qed.

Lemma away_count (m : assignment) (t : nat) :
  t < T -> how_many is_away (team_schedule m t) = away_games m t.
Proof.
  intros Ht.
  rewrite (how_many_ext is_away (fun g => is_away g && (fun _ => true) (t_Type g)))
    by (intros x _; rewrite andb_true_r; reflexivity).
  rewrite (away_entries_by_relation m (fun _ => true) (fun _ _ => true) t Ht)
    by reflexivity.
  rewrite filter_true. unfold away_games, hosted.
  apply (sumZ_swap (fun j w => Z.b2z (m j t w))).
Qed.

Lemma nat_Z_eqb (n k : nat) : (n =? k) = (Z.of_nat n =? Z.of_nat k)%Z.
Proof.
  destruct (Nat.eqb_spec n k) as [E | E].
  - subst k. symmetry. apply Z.eqb_refl.
  - symmetry. apply Z.eqb_neq. lia.
Qed.

(** Whatever values the solver returned, the total balance check prints for
    each team the numbers of its home and away variables set to 1, and the
    pass mark exactly when both numbers are 7. *)
Theorem total_balance_check_recomputes (m : assignment) :
  exists st, extract m = Ok st /\
    check_total_balance (snd st) =
    Ok (map (fun t =>
               let h := Z.to_nat (home_games m t) in
               let a := Z.to_nat (away_games m t) in
               TotalBalance (team_name t) h a (h + a)
                 (status_of ((home_games m t =? 7)%Z && (away_games m t =? 7)%Z)))
            (range T)).
Proof.
  exists (extraction_of (games_played m)).
  split; [apply extract_spec|]. rewrite extracted_schedule.
  unfold check_total_balance. rewrite teams_by_name.
  apply for_map_singletons. intros t Ht. apply range_In in Ht.
  rewrite (sched_dict_get _ t Ht). cbn [bind]. cbv zeta.
  pose proof (home_count m t Ht) as Hh. pose proof (away_count m t Ht) as Ha.
  unfold how_many in Hh, Ha. rewrite <- Hh, <- Ha, !Nat2Z.id.
  rewrite !(nat_Z_eqb _ 7). reflexivity.
Qed.

(* ===================================================================== *)
(** ** The summary is computed from what was extracted                    *)
(* ===================================================================== *)

Lemma for_lines {A B} (xs : list A) (body : A -> result (list B)) (g : A -> list B) :
  (forall x, In x xs -> body x = Ok (g x)) -> for_ xs body = Ok (flat_map g xs).
Proof.
  induction xs as [|a xs IH]; intros H.
  - reflexivity.
  - cbn [for_ flat_map]. rewrite (H a (or_introl eq_refl)). cbn [bind].
    rewrite IH; [reflexivity|]. intros x Hx. apply H. right. exact Hx.
Qed.

Lemma for_rows {A B} (xs : list A) (body : A -> result (list B)) (g : A -> B) :
  (forall x, In x xs -> body x = Ok [g x]) -> for_ xs body = Ok (map g xs).
Proof.
  intros H. rewrite (for_lines xs body (fun x => [g x]) H).
  apply f_equal. apply flat_map_singletons. intros x _. reflexivity.
Qed.

Lemma flat_map_nested {A B C} (f : A -> list B) (g : B -> list C) (l : list A) :
  flat_map g (flat_map f l) = flat_map (fun x => flat_map g (f x)) l.
Proof.
  induction l as [|a l IH]; cbn [flat_map]; [reflexivity|].
  rewrite flat_map_app, IH. reflexivity.
Qed.

Lemma flat_map_of_map {A B C} (f : A -> B) (g : B -> list C) (l : list A) :
  flat_map g (map f l) = flat_map (fun x => g (f x)) l.
Proof.
  induction l as [|a l IH]; cbn [flat_map map]; [reflexivity|].
  rewrite IH. reflexivity.
Qed.

Lemma flat_map_keeps {A} (p : A -> bool) (l : list A) :
  flat_map (fun x => if p x then [x] else []) l = filter p l.
Proof.
  induction l as [|a l IH]; cbn [flat_map filter]; [reflexivity|].
  rewrite IH. destruct (p a); reflexivity.
Qed.

Lemma forallb_of_map {A B} (f : A -> B) (p : B -> bool) (l : list A) :
  forallb p (map f l) = forallb (fun x => p (f x)) l.
Proof.
  induction l as [|a l IH]; cbn [forallb map]; [reflexivity|].
  rewrite IH. reflexivity.
Qed.

(** On a well-formed dictionary the lookups of the checks never miss. *)
Lemma schedule_in_ok (ts : schedules) (team : string) :
  well_formed ts -> In team teams -> sdict_get ts team = Ok (schedule_in ts team).
Proof.
  intros Hwf Hin. destruct (schedule_of ts team Hwf Hin) as [sched [E _]].
  unfold schedule_in. rewrite E. reflexivity.
Qed.

Lemma division_name_ok (team : string) :
  In team teams -> sdict_get div_of team = Ok (division_name team).
Proof.
  intros Hin. destruct (division_known team Hin) as [d [o [E _]]].
  unfold division_name. rewrite E. reflexivity.
Qed.

Lemma division_member (item : string * list string) (i : nat) :
  In item teams_by_div -> i < 4 ->
  index (snd item) i = Ok (nth i (snd item) EmptyString) /\
  In (nth i (snd item) EmptyString) teams.
Proof.
  intros Hitem Hi. destruct (division_position item i Hitem Hi) as [t [E Ht]].
  assert (N : nth i (snd item) EmptyString = t).
  { unfold index in E. destruct (nth_error (snd item) i) as [a|] eqn:En; [|discriminate].
    apply Ok_inj in E. subst a. apply nth_error_nth. exact En. }
  rewrite N. split; assumption.
Qed.

Lemma for_pairs_of_lines {B} (item : string * list string)
  (body : string -> string -> result (list B)) (g : string * string -> list B) :
  In item teams_by_div ->
  (forall team1 team2, In team1 teams -> In team2 teams ->
     body team1 team2 = Ok (g (team1, team2))) ->
  for_pairs_of (snd item) body = Ok (flat_map g (pairs_of (snd item))).
Proof.
  intros Hitem Hb. unfold for_pairs_of, pairs_of.
  rewrite flat_map_nested.
  apply for_lines. intros i Hi. cbv beta. apply range_In in Hi.
  rewrite flat_map_of_map. apply for_lines. intros j Hj. cbv beta.
  assert (Hj4 : j < 4). { unfold range2 in Hj. apply in_seq in Hj. lia. }
  destruct (division_member item i Hitem Hi) as [Ei Hti].
  destruct (division_member item j Hitem Hj4) as [Ej Htj].
  rewrite Ei, Ej. cbn [bind]. apply Hb; assumption.
Qed.

Lemma check_total_balance_lines (ts : schedules) :
  well_formed ts ->
  check_total_balance ts =
  Ok (map (fun team => total_balance_line team (schedule_in ts team)) teams).
Proof.
  intros Hwf. unfold check_total_balance. apply for_rows. intros team Hin.
  lookup (schedule_in_ok ts team Hwf Hin). reflexivity.
Qed.

Lemma check_divisional_balance_lines (ts : schedules) :
  well_formed ts ->
  check_divisional_balance ts =
  Ok (map (fun team => divisional_balance_line team (schedule_in ts team)) teams).
Proof.
  intros Hwf. unfold check_divisional_balance. apply for_rows. intros team Hin.
  lookup (schedule_in_ok ts team Hwf Hin). reflexivity.
Qed.

Lemma check_matchup_balance_lines (ts : schedules) :
  well_formed ts ->
  check_matchup_balance ts = Ok (flat_map (matchup_lines (schedule_in ts)) teams_by_div).
Proof.
  intros Hwf. unfold check_matchup_balance. apply for_lines. intros item Hitem.
  cbv beta zeta.
  rewrite (for_pairs_of_lines item _
             (fun pair => [matchup_row (schedule_in ts) pair]) Hitem).
  - cbn [bind]. unfold matchup_lines. cbv zeta.
    rewrite (flat_map_singletons (matchup_row (schedule_in ts))); reflexivity.
  - intros team1 team2 H1 _. rewrite (schedule_in_ok ts team1 Hwf H1). cbn [bind].
    unfold matchup_row. cbv zeta. cbn [fst snd].
    destruct (truthy (fst (host_weeks (schedule_in ts team1) team2))
              && truthy (snd (host_weeks (schedule_in ts team1) team2))); reflexivity.
Qed.

Lemma check_separation_lines (ts : schedules) :
  well_formed ts ->
  check_separation ts = Ok (flat_map (separation_lines (schedule_in ts)) teams_by_div).
Proof.
  intros Hwf. unfold check_separation. apply for_lines. intros item Hitem.
  cbv beta zeta. unfold separation_lines.
  apply for_pairs_of_lines; [exact Hitem|].
  intros team1 team2 H1 _. rewrite (schedule_in_ok ts team1 Hwf H1). cbn [bind].
  unfold separation_line. cbn [fst snd].
  destruct (sorted (fun w => w)
              (map t_Week (filter (fun game => String.eqb (t_Opponent game) team2)
                             (schedule_in ts team1)))) as [|? [|? [|? ?]]];
    reflexivity.
Qed.

Lemma check_density_lines (ts : schedules) :
  well_formed ts ->
  check_density ts = Ok (map (fun team => density_line team (schedule_in ts team)) teams).
Proof.
  intros Hwf. unfold check_density. apply for_rows. intros team Hin.
  lookup (schedule_in_ok ts team Hwf Hin). reflexivity.
Qed.

Lemma check_last_eight_lines (ts : schedules) :
  well_formed ts ->
  check_last_eight ts =
  Ok (map (fun team => last_eight_line team (schedule_in ts team)) teams).
Proof.
  intros Hwf. unfold check_last_eight. apply for_rows. intros team Hin.
  lookup (schedule_in_ok ts team Hwf Hin). reflexivity.
Qed.

Lemma check_streaks_lines (ts : schedules) :
  well_formed ts ->
  check_streaks ts =
  Ok (map (fun team => streak_line team (schedule_in ts team)) teams ++
      (if forallb (fun team => is_empty (long_streaks (schedule_in ts team))) teams
       then [StreaksAll] else [])).
Proof.
  intros Hwf. unfold check_streaks.
  rewrite (for_rows teams _
             (fun team => (is_empty (long_streaks (schedule_in ts team)),
                           streak_line team (schedule_in ts team)))).
  - cbn [bind]. cbv zeta. rewrite map_map, forallb_of_map. cbn [fst snd]. reflexivity.
  - intros team Hin. lookup (schedule_in_ok ts team Hwf Hin).
    unfold streak_line, long_streaks. cbv zeta.
    destruct (streaks_of (map t_Venue (sorted t_Week (schedule_in ts team))))
      as [[mh ma] vs].
    reflexivity.
Qed.

Lemma check_non_division_lines (ts : schedules) :
  well_formed ts ->
  check_non_division ts =
  Ok (map (fun team => non_division_line team (schedule_in ts team)) teams ++
      (if forallb (fun team => is_empty (repeated_outsiders team (schedule_in ts team)))
                  teams
       then [NonDivisionAll] else [])).
Proof.
  intros Hwf. unfold check_non_division.
  rewrite (for_rows teams _
             (fun team => (is_empty (repeated_outsiders team (schedule_in ts team)),
                           non_division_line team (schedule_in ts team)))).
  - cbn [bind]. cbv zeta. rewrite map_map, forallb_of_map. cbn [fst snd]. reflexivity.
  - intros team Hin. destruct (schedule_of ts team Hwf Hin) as [sched [E Hs]].
    assert (Es : schedule_in ts team = sched) by (unfold schedule_in; rewrite E; reflexivity).
    rewrite Es. lookup E.
    rewrite (division_name_ok team Hin). cbn [bind].
    rewrite (for_lines (count_opponents sched) _
               (fun oc => if negb (String.eqb (division_name (fst oc)) (division_name team))
                             && (1 <? snd oc)
                          then [oc] else [])).
    + cbn [bind]. rewrite flat_map_keeps. reflexivity.
    + intros oc Hoc. cbv beta.
      assert (Hopp : In (fst oc) teams).
      { apply (count_opponents_keys sched (fun t => In t teams)); [|exact Hoc].
        intros game Hg. destruct Hwf as [_ O]. exact (O team sched game Hs Hg). }
      rewrite (division_name_ok _ Hopp). cbn [bind].
      destruct oc as [opponent count]. cbn [fst snd].
      destruct (negb (String.eqb (division_name opponent) (division_name team)));
        cbn [andb]; [destruct (1 <? count)|]; reflexivity.
Qed.

Lemma check_breakdown_lines (ts : schedules) :
  well_formed ts ->
  check_breakdown ts =
  Ok (map (fun team => breakdown_line team (schedule_in ts team)) teams).
Proof.
  intros Hwf. unfold check_breakdown. apply for_rows. intros team Hin.
  lookup (schedule_in_ok ts team Hwf Hin). reflexivity.
Qed.

(** The eleven checks together: no lookup fails and every line is the one
    computed from the games and the team schedules handed over. *)
Lemma validation_lines (st : extraction) :
  well_formed (snd st) ->
  validation st = Ok (summary_lines (fst st) (schedule_in (snd st))).
Proof.
  intros Hwf. unfold validation. cbv zeta.
  rewrite (check_total_balance_lines _ Hwf), (check_divisional_balance_lines _ Hwf),
          (check_matchup_balance_lines _ Hwf), (check_separation_lines _ Hwf),
          (check_density_lines _ Hwf), (check_last_eight_lines _ Hwf),
          (check_streaks_lines _ Hwf), (check_non_division_lines _ Hwf),
          (check_breakdown_lines _ Hwf).
  cbn [bind]. reflexivity.
Qed.

(** C2, amended: after the values are extracted, the validation summary
    recomputes all eleven of its checks from the extracted games and team
    schedules and only prints them; it raises nothing.  Whatever the values,
    the extraction succeeds, every team has its entry in the extracted
    schedules, and the run returns normally with a summary that is, line for
    line and in order, total balance, divisional balance, rivalry week,
    matchup balance, separation, density, last eight weeks, final week,
    streaks, non-division repeats and opponent breakdown, each computed from
    what was extracted; a failed check shows as a fail mark, a missing
    congratulation line or a count, never as an exception. *)
Theorem C2_validation_reports_and_never_raises (m : assignment) :
  exists st o,
    extract m = Ok st /\
    (forall team, In team teams ->
       sdict_get (snd st) team = Ok (schedule_in (snd st) team)) /\
    solution_found m = Ok o /\
    schedule_by_week o = fst st /\
    summary o = summary_lines (fst st) (schedule_in (snd st)).
Proof.
  destruct (extract_ok m) as [st [Est Hwf]].
  destruct (team_rows_ok _ Hwf) as [rows Er].
  destruct (team_grid_ok _ Hwf) as [grid Eg].
  exists st, (Output (fst st) rows grid (summary_lines (fst st) (schedule_in (snd st)))).
  split; [exact Est|]. split; [|split; [|split; reflexivity]].
  - intros team Hin. apply schedule_in_ok; assumption.
  - unfold solution_found. rewrite Est. cbn [bind].
    rewrite Er, Eg, (validation_lines st Hwf). reflexivity.
Qed.

(* ===================================================================== *)
(** ** The live draft optimizer: bookkeeping of picks                     *)
(* ===================================================================== *)

Module DraftFacts.
Import Draft.

Lemma sdict_get_set_same {V} (d : list (string * V)) (k : string) (v : V) :
  sdict_get (dict_set String.eqb d k v) k = Ok v.
Proof.
  unfold sdict_get. induction d as [|[k' v'] d IH]; cbn [dict_set dict_get].
  - rewrite String.eqb_refl. reflexivity.
  - destruct (String.eqb k k') eqn:E; cbn [dict_get]; rewrite E; [reflexivity | exact IH].
Qed.

Lemma sdict_get_set_other {V} (d : list (string * V)) (k k' : string) (v : V) :
  k' <> k -> sdict_get (dict_set String.eqb d k v) k' = sdict_get d k'.
Proof.
  intros Hne. unfold sdict_get. induction d as [|[k0 v0] d IH]; cbn [dict_set dict_get].
  - rewrite (proj2 (String.eqb_neq k' k) Hne). reflexivity.
  - destruct (String.eqb k k0) eqn:E; cbn [dict_get].
    + apply String.eqb_eq in E. subst k0.
      rewrite (proj2 (String.eqb_neq k' k) Hne). reflexivity.
    + destruct (String.eqb k' k0); [reflexivity | exact IH].
Qed.

Lemma name_of_named (p : player) : named p -> sdict_get p "name" = Ok (name_of p).
Proof. intros [n E]. unfold name_of. rewrite E. reflexivity. Qed.

Lemma remaining_players (x : string) (l : list player) :
  (forall p, In p l -> named p) ->
  comprehension_if l (other_name x)
  = Ok (filter (fun p => negb (String.eqb (name_of p) x)) l).
Proof.
  induction l as [|p l IH]; intros H; [reflexivity|].
  cbn [comprehension_if filter]. unfold other_name at 1.
  rewrite (name_of_named p (H p (or_introl eq_refl))). cbn [bind].
  rewrite IH by (intros q Hq; apply H; right; exact Hq). reflexivity.
Qed.

Lemma set_add_In (x y : string) (s : list string) :
  In y (set_add x s) <-> y = x \/ In y s.
Proof.
  unfold set_add. destruct (existsb (String.eqb x) s) eqn:E.
  - split; [intros H; right; exact H|]. intros [-> | H]; [|exact H].
    apply existsb_exists in E. destruct E as [z [Hz Ez]].
    apply String.eqb_eq in Ez. subst z. exact Hz.
  - rewrite in_app_iff. cbn [In]. split; [intros [H | [<- | []]]; auto|].
    intros [-> | H]; [right; left; reflexivity | left; exact H].
Qed.

(** One call of [record_pick] on an initialised draft. *)
Lemma record_pick_ok (x owner : string) (o : optimizer) :
  draft_order (draft o) <> [] ->
  (forall p, In p (available_players (draft o)) -> named p) ->
  exists o',
    record_pick x owner o = (o', None) /\
    current_pick (draft o') = (current_pick (draft o) + 1)%Z /\
    current_round (draft o') =
      (current_pick (draft o) / Z.of_nat (List.length (draft_order (draft o))) + 1)%Z /\
    draft_order (draft o') = draft_order (draft o) /\
    available_players (draft o') =
      filter (fun p => negb (String.eqb (name_of p) x)) (available_players (draft o)) /\
    picked_players (draft o') = set_add x (picked_players (draft o)) /\
    player_rankings o' = player_rankings o.
Proof.
  intros Horder Hnamed. unfold record_pick.
  destruct (sdict_get (other_rosters _) owner) as [roster|e];
    cbn [available_players set_other_rosters set_picked_players];
    rewrite (remaining_players x _ Hnamed);
    unfold advance_draft_position;
    cbn [draft draft_order set_available_players set_other_rosters set_picked_players
         set_current_pick set_current_round current_pick player_rankings];
    (destruct (Z.of_nat (List.length (draft_order (draft o))) =? 0)%Z eqn:E;
     [apply Z.eqb_eq in E; destruct (draft_order (draft o)); [contradiction | discriminate]|]);
    eexists; (split; [reflexivity|]);
    cbn [draft current_pick current_round draft_order available_players picked_players
         player_rankings set_current_round set_current_pick set_available_players
         set_other_rosters set_picked_players];
    repeat split; f_equal; f_equal; lia.
Qed.

Lemma record_picks_ok (picks : list (string * string)) :
  forall o,
    draft_order (draft o) <> [] ->
    (forall p, In p (available_players (draft o)) -> named p) ->
    exists o',
      record_picks picks o = (o', None) /\
      current_pick (draft o') = (current_pick (draft o) + Z.of_nat (List.length picks))%Z /\
      (picks <> [] ->
       current_round (draft o') =
         ((current_pick (draft o') - 1)
          / Z.of_nat (List.length (draft_order (draft o))) + 1)%Z) /\
      (picks = [] -> o' = o) /\
      draft_order (draft o') = draft_order (draft o) /\
      available_players (draft o') =
        filter (fun p => negb (existsb (String.eqb (name_of p)) (map fst picks)))
               (available_players (draft o)) /\
      (forall y, In y (picked_players (draft o')) <->
                 In y (map fst picks) \/ In y (picked_players (draft o))) /\
      player_rankings o' = player_rankings o.
Proof.
  induction picks as [|[x owner] rest IH]; intros o Horder Hnamed.
  - exists o. cbn [record_picks List.length map existsb negb].
    rewrite filter_true, Z.add_0_r.
    repeat split; try reflexivity; try tauto. intros [[] | H]; exact H.
  - destruct (record_pick_ok x owner o Horder Hnamed)
      as [o1 [E1 [P1 [R1 [O1 [A1 [S1 K1]]]]]]].
    destruct (IH o1) as [o2 [E2 [P2 [R2 [N2 [O2 [A2 [S2 K2]]]]]]]].
    + rewrite O1. exact Horder.
    + intros p Hp. rewrite A1 in Hp. apply filter_In in Hp. apply Hnamed. exact (proj1 Hp).
    + exists o2. cbn [record_picks]. rewrite E1.
      split; [exact E2|]. split; [|split; [|split; [|split; [|split; [|split]]]]].
      * rewrite P2, P1. cbn [List.length]. lia.
      * intros _. destruct rest as [|pick rest'].
        -- rewrite (N2 eq_refl), R1, P1. f_equal. f_equal. lia.
        -- rewrite R2 by discriminate. rewrite O1. reflexivity.
      * discriminate.
      * rewrite O2. exact O1.
      * rewrite A2, A1, filter_filter_andb. apply filter_ext. intros p.
        cbn [map fst existsb]. rewrite negb_orb. reflexivity.
      * intros y. rewrite S2, S1, set_add_In. cbn [map fst In]. intuition auto.
      * rewrite K2. exact K1.
Qed.

Lemma rank_players_ok (l : list (nat * player)) :
  forall o,
    (forall ip, In ip l -> named (snd ip)) ->
    exists o', rank_players l o = (o', None) /\ draft o' = draft o.
Proof.
  induction l as [|[i p] l IH]; intros o H.
  - exists o. split; reflexivity.
  - cbn [rank_players].
    rewrite (name_of_named p (H (i, p) (or_introl eq_refl))).
    destruct (IH (Optimizer (draft o)
                    (dict_set String.eqb (player_rankings o) (name_of p)
                       (Z.of_nat i + 1)%Z))) as [o' [E D]].
    + intros ip Hip. apply H. right. exact Hip.
    + exists o'. split; [exact E | exact D].
Qed.

Lemma enumerate_from_snd {A} (l : list A) :
  forall k ip, In ip (enumerate_from k l) -> In (snd ip) l.
Proof.
  induction l as [|a l IH]; intros k ip H; [contradiction|].
  cbn [enumerate_from] in H. destruct H as [<- | H]; [left; reflexivity|].
  right. exact (IH (S k) ip H).
Qed.

Lemma initialize_draft_ok (order : list string) (pool : list player) :
  (forall p, In p pool -> named p) ->
  exists o1,
    initialize_draft order (Some pool) new = (o1, None) /\
    draft_order (draft o1) = order /\
    available_players (draft o1) = pool /\
    current_pick (draft o1) = 1%Z /\ current_round (draft o1) = 1%Z /\
    picked_players (draft o1) = [].
Proof.
  intros H. unfold initialize_draft. destruct pool as [|p pool].
  - eexists. split; [reflexivity|]. repeat split.
  - match goal with
    | |- context [rank_players ?l ?o] => destruct (rank_players_ok l o) as [o1 [E D]]
    end.
    + intros ip Hip. apply H. exact (enumerate_from_snd _ _ _ Hip).
    + exists o1. split; [exact E|]. rewrite D. repeat split.
Qed.

(** After a draft is initialised with a non-empty order, any run of
    [record_pick] calls succeeds and keeps the counters in step: after [k]
    picks among [n] owners the pick number is [k + 1] and the round is
    [k // n + 1]. *)
Theorem draft_position_after_picks (order : list string) (pool : list player)
  (picks : list (string * string)) :
  order <> [] -> (forall p, In p pool -> named p) ->
  exists o1 o2,
    initialize_draft order (Some pool) new = (o1, None) /\
    record_picks picks o1 = (o2, None) /\
    current_pick (draft o2) = (Z.of_nat (List.length picks) + 1)%Z /\
    current_round (draft o2) =
      (Z.of_nat (List.length picks) / Z.of_nat (List.length order) + 1)%Z.
Proof.
  intros Horder Hnamed.
  destruct (initialize_draft_ok order pool Hnamed)
    as [o1 [E1 [O1 [A1 [P1 [R1 _]]]]]].
  destruct (record_picks_ok picks o1) as [o2 [E2 [P2 [R2 [N2 _]]]]].
  - rewrite O1. exact Horder.
  - rewrite A1. exact Hnamed.
  - exists o1, o2. split; [exact E1|]. split; [exact E2|].
    rewrite P2, P1. split; [lia|].
    destruct picks as [|pick rest].
    + rewrite (N2 eq_refl), R1. cbn [List.length]. rewrite Z.div_0_l; [reflexivity|].
      destruct order; [contradiction | cbn [List.length]; lia].
    + rewrite R2 by discriminate. rewrite P2, P1, O1. f_equal. f_equal. lia.
Qed.

Lemma sample_pool_named : forall p, In p sample_pool -> named p.
Proof. intros p [<- | [<- | [<- | []]]]; eexists; reflexivity. Qed.

Lemma draft_position_after_picks_witness :
  sample_order <> [] /\ (forall p, In p sample_pool -> named p) /\
  exists o1 o2,
    initialize_draft sample_order (Some sample_pool) new = (o1, None) /\
    record_picks sample_picks o1 = (o2, None) /\
    current_pick (draft o2) = (Z.of_nat (List.length sample_picks) + 1)%Z /\
    current_round (draft o2) =
      (Z.of_nat (List.length sample_picks) / Z.of_nat (List.length sample_order) + 1)%Z.
Proof.
  assert (H1 : sample_order <> []) by discriminate.
  split; [exact H1|]. split; [exact sample_pool_named|].
  exact (draft_position_after_picks sample_order sample_pool sample_picks
           H1 sample_pool_named).
Defined.

(** On a fresh optimizer initialised with a non-empty draft order and a pool
    whose players all have a name, every run of picks is recorded without an
    error, and afterwards the pool holds the players whose name was not
    picked, in their order, and the picked set holds exactly the picked
    names. *)
Theorem picked_players_leave_the_pool (order : list string) (pool : list player)
  (picks : list (string * string)) :
  order <> [] -> (forall p, In p pool -> named p) ->
  exists o1 o2,
    initialize_draft order (Some pool) new = (o1, None) /\
    record_picks picks o1 = (o2, None) /\
    available_players (draft o2) =
      filter (fun p => negb (existsb (String.eqb (name_of p)) (map fst picks))) pool /\
    forall y, In y (picked_players (draft o2)) <-> In y (map fst picks).
Proof.
  intros Horder Hnamed.
  destruct (initialize_draft_ok order pool Hnamed)
    as [o1 [E1 [O1 [A1 [_ [_ S1]]]]]].
  destruct (record_picks_ok picks o1) as [o2 [E2 [_ [_ [_ [_ [A2 [S2 _]]]]]]]].
  - rewrite O1. exact Horder.
  - rewrite A1. exact Hnamed.
  - exists o1, o2. split; [exact E1|]. split; [exact E2|].
    rewrite A2, A1. split; [reflexivity|].
    intros y. rewrite S2, S1. cbn [In]. tauto.
Qed.

Lemma picked_players_leave_the_pool_witness :
  sample_order <> [] /\ (forall p, In p sample_pool -> named p) /\
  exists o1 o2,
    initialize_draft sample_order (Some sample_pool) new = (o1, None) /\
    record_picks sample_picks o1 = (o2, None) /\
    available_players (draft o2) =
      filter (fun p => negb (existsb (String.eqb (name_of p)) (map fst sample_picks)))
             sample_pool /\
    forall y, In y (picked_players (draft o2)) <-> In y (map fst sample_picks).
Proof.
  assert (H1 : sample_order <> []) by discriminate.
  split; [exact H1|]. split; [exact sample_pool_named|].
  exact (picked_players_leave_the_pool sample_order sample_pool sample_picks
           H1 sample_pool_named).
Defined.

(** A pick recorded while the draft order is empty (before
    [initialize_draft], or after initialising with no owner) and every
    available player has a name raises [ZeroDivisionError], but only after
    the pick was booked: the name is in the picked set, the player has left
    the pool and the pick number has advanced, while the round keeps its old
    value. *)
Theorem record_pick_without_order (x owner : string) (o : optimizer) :
  draft_order (draft o) = [] ->
  (forall p, In p (available_players (draft o)) -> named p) ->
  exists o',
    record_pick x owner o = (o', Some ZeroDivisionError) /\
    In x (picked_players (draft o')) /\
    available_players (draft o') =
      filter (fun p => negb (String.eqb (name_of p) x)) (available_players (draft o)) /\
    current_pick (draft o') = (current_pick (draft o) + 1)%Z /\
    current_round (draft o') = current_round (draft o).
Proof.
  intros Horder Hnamed. unfold record_pick.
  destruct (sdict_get (other_rosters _) owner) as [roster|e];
    cbn [available_players set_other_rosters set_picked_players];
    rewrite (remaining_players x _ Hnamed);
    unfold advance_draft_position;
    cbn [draft draft_order set_available_players set_other_rosters set_picked_players
         set_current_pick set_current_round current_pick player_rankings];
    rewrite Horder; cbn [List.length Z.of_nat Z.eqb];
    eexists; (split; [reflexivity|]);
    cbn [draft current_pick current_round draft_order available_players picked_players
         set_current_round set_current_pick set_available_players
         set_other_rosters set_picked_players];
    (split; [apply set_add_In; left; reflexivity|]); repeat split.
Qed.

Lemma record_pick_without_order_witness :
  draft_order (draft new) = [] /\
  (forall p, In p (available_players (draft new)) -> named p) /\
  exists o',
    record_pick "P1" "Ann" new = (o', Some ZeroDivisionError) /\
    In "P1" (picked_players (draft o')) /\
    available_players (draft o') =
      filter (fun p => negb (String.eqb (name_of p) "P1")) (available_players (draft new)) /\
    current_pick (draft o') = (current_pick (draft new) + 1)%Z /\
    current_round (draft o') = current_round (draft new).
Proof.
  assert (H1 : draft_order (draft new) = []) by reflexivity.
  assert (H2 : forall p, In p (available_players (draft new)) -> named p)
    by (intros p []).
  split; [exact H1|]. split; [exact H2|].
  exact (record_pick_without_order "P1" "Ann" new H1 H2).
Defined.

(** [get_next_pick_strategy] always announces between 1 and 32 picks, the
    number that brings the pick count to the next multiple of 32, and picks
    its message by the thresholds 5 and 10. *)
Theorem next_pick_distance (current_pick : Z) :
  (1 <= fst (get_next_pick_strategy current_pick) <= 32)%Z /\
  ((current_pick + fst (get_next_pick_strategy current_pick)) mod 32 = 0)%Z /\
  snd (get_next_pick_strategy current_pick)
  = (if (fst (get_next_pick_strategy current_pick) <=? 5)%Z then ConsiderRuns
     else if (fst (get_next_pick_strategy current_pick) <=? 10)%Z then Moderate
     else Patient).
Proof.
  unfold get_next_pick_strategy.
  pose proof (Z.mod_pos_bound current_pick 32 ltac:(lia)) as B.
  set (r := (current_pick mod 32)%Z) in *.
  assert (D : (current_pick = 32 * (current_pick / 32) + r)%Z)
    by (apply Z.div_mod; lia).
  cbv zeta. destruct (r =? 0)%Z eqn:E; cbn [negb].
  - apply Z.eqb_eq in E. cbn [fst snd Z.leb Z.compare Pos.compare Pos.compare_cont].
    split; [lia|]. split; [|reflexivity].
    rewrite D, E. replace (32 * (current_pick / 32) + 0 + 32)%Z
      with ((current_pick / 32 + 1) * 32)%Z by lia.
    apply Z.mod_mul. lia.
  - apply Z.eqb_neq in E.
    destruct (32 - r <=? 5)%Z eqn:E5; [|destruct (32 - r <=? 10)%Z eqn:E10];
      cbn [fst snd]; rewrite ?E5, ?E10;
      (split; [lia|]); (split; [|reflexivity]);
      rewrite D; replace (32 * (current_pick / 32) + r + (32 - r))%Z
        with ((current_pick / 32 + 1) * 32)%Z by lia;
      apply Z.mod_mul; lia.
Qed.

Lemma rank_players_spec (l : list player) :
  forall k o,
    (forall p, In p l -> named p) -> NoDup (map name_of l) ->
    exists o',
      rank_players (enumerate_from k l) o = (o', None) /\
      (forall i p, nth_error l i = Some p ->
         sdict_get (player_rankings o') (name_of p) = Ok (Z.of_nat (k + i) + 1)%Z) /\
      (forall y, ~ In y (map name_of l) ->
         sdict_get (player_rankings o') y = sdict_get (player_rankings o) y).
Proof.
  induction l as [|p l IH]; intros k o Hnamed Hnd.
  - exists o. split; [reflexivity|]. split; [|reflexivity].
    intros i q H. destruct i; discriminate.
  - cbn [map] in Hnd. inversion Hnd as [|n ns Hnotin Hnd']; subst.
    cbn [enumerate_from rank_players].
    rewrite (name_of_named p (Hnamed p (or_introl eq_refl))).
    destruct (IH (S k)
                (Optimizer (draft o)
                   (dict_set String.eqb (player_rankings o) (name_of p)
                      (Z.of_nat k + 1)%Z)))
      as [o' [E [Hpos Hother]]];
      [intros q Hq; apply Hnamed; right; exact Hq | exact Hnd' |].
    exists o'. split; [exact E|]. split.
    + intros i q H. destruct i as [|i].
      * cbn [nth_error] in H. inversion H; subst q.
        rewrite (Hother _ Hnotin). cbn [player_rankings].
        rewrite sdict_get_set_same, Nat.add_0_r. reflexivity.
      * cbn [nth_error] in H. rewrite (Hpos i q H).
        replace (S k + i) with (k + S i) by lia. reflexivity.
    + intros y Hy. cbn [map In] in Hy.
      rewrite (Hother y) by (intros H; apply Hy; right; exact H).
      cbn [player_rankings]. apply sdict_get_set_other.
      intros H. apply Hy. left. symmetry. exact H.
Qed.

(** [initialize_draft] ranks the pool by position: with distinct names,
    looking a player up in the rankings gives its 1-based position in the
    pool. *)
Theorem player_rankings_by_position (order : list string) (pool : list player) :
  (forall p, In p pool -> named p) -> NoDup (map name_of pool) ->
  exists o1,
    initialize_draft order (Some pool) new = (o1, None) /\
    forall i p, nth_error pool i = Some p ->
      sdict_get (player_rankings o1) (name_of p) = Ok (Z.of_nat i + 1)%Z.
Proof.
  intros Hnamed Hnd. unfold initialize_draft. destruct pool as [|p pool].
  - eexists. split; [reflexivity|]. intros i q H. destruct i; discriminate.
  - unfold enumerate.
    match goal with
    | |- context [rank_players (enumerate_from 0 ?l) ?o] =>
        destruct (rank_players_spec l 0 o Hnamed Hnd) as [o1 [E [Hpos _]]]
    end.
    exists o1. split; [exact E|]. intros i q H. exact (Hpos i q H).
Qed.

Lemma player_rankings_by_position_witness :
  (forall p, In p sample_pool -> named p) /\ NoDup (map name_of sample_pool) /\
  exists o1,
    initialize_draft sample_order (Some sample_pool) new = (o1, None) /\
    forall i p, nth_error sample_pool i = Some p ->
      sdict_get (player_rankings o1) (name_of p) = Ok (Z.of_nat i + 1)%Z.
Proof.
  assert (H2 : NoDup (map name_of sample_pool)).
  { repeat constructor; cbn; intuition discriminate. }
  split; [exact sample_pool_named|]. split; [exact H2|].
  exact (player_rankings_by_position sample_order sample_pool sample_pool_named H2).
Defined.

Lemma rank_players_draft (l : list (nat * player)) :
  forall o o' r, rank_players l o = (o', r) -> draft o' = draft o.
Proof.
  induction l as [|[i p] l IH]; intros o o' r H.
  - inversion H. reflexivity.
  - cbn [rank_players] in H. destruct (sdict_get p "name") as [n|e].
    + rewrite (IH _ _ _ H). reflexivity.
    + inversion H. reflexivity.
Qed.

Lemma initialize_draft_rosters (order : list string) (pool : option (list player))
  (o o' : optimizer) (r : option error) :
  initialize_draft order pool o = (o', r) ->
  other_rosters (draft o') = sdict_of (map (fun owner => (owner, [])) order).
Proof.
  unfold initialize_draft. intros H. destruct pool as [[|p pool]|].
  - inversion H. reflexivity.
  - rewrite (rank_players_draft _ _ _ _ H). reflexivity.
  - inversion H. reflexivity.
Qed.

Lemma empty_rosters (order : list string) (owner : string) :
  forall d : list (string * list string),
    sdict_get (fold_left (fun d kv => dict_set String.eqb d (fst kv) (snd kv))
                 (map (fun owner => (owner, @nil string)) order) d) owner
    = if existsb (String.eqb owner) order then Ok [] else sdict_get d owner.
Proof.
  induction order as [|a order IH]; intros d; [reflexivity|].
  cbn [map fold_left fst snd existsb]. rewrite IH.
  destruct (existsb (String.eqb owner) order); [rewrite orb_true_r; reflexivity|].
  rewrite orb_false_r. destruct (String.eqb owner a) eqn:E.
  - apply String.eqb_eq in E. subst a. apply sdict_get_set_same.
  - apply sdict_get_set_other. apply String.eqb_neq. exact E.
Qed.

Lemma record_pick_rosters (x owner : string) (o o' : optimizer) :
  record_pick x owner o = (o', None) ->
  other_rosters (draft o') =
    match sdict_get (other_rosters (draft o)) owner with
    | Ok roster => dict_set String.eqb (other_rosters (draft o)) owner (roster ++ [x])
    | Raise _ => other_rosters (draft o)
    end.
Proof.
  unfold record_pick. cbn [other_rosters set_picked_players].
  destruct (sdict_get (other_rosters (draft o)) owner) as [roster|e];
    (match goal with
     | |- context [comprehension_if ?l ?c] => destruct (comprehension_if l c) as [rem|e']
     end; [|discriminate]);
    unfold advance_draft_position;
    match goal with |- context [if ?b then _ else _] => destruct b end;
    intros H; inversion H; reflexivity.
Qed.

Lemma record_picks_rosters (picks : list (string * string)) :
  forall o o', record_picks picks o = (o', None) ->
    forall w,
      sdict_get (other_rosters (draft o')) w =
      match sdict_get (other_rosters (draft o)) w with
      | Ok roster =>
          Ok (roster ++ map fst (filter (fun pk => String.eqb (snd pk) w) picks))
      | Raise e => Raise e
      end.
Proof.
  induction picks as [|[x owner] rest IH]; intros o o' H w.
  - inversion H. cbn [filter map].
    destruct (sdict_get (other_rosters (draft o')) w); [rewrite app_nil_r|]; reflexivity.
  - cbn [record_picks] in H.
    destruct (record_pick x owner o) as [o1 [e|]] eqn:E1; [discriminate|].
    rewrite (IH o1 o' H w), (record_pick_rosters x owner o o1 E1).
    cbn [filter snd]. destruct (String.eqb owner w) eqn:Ew.
    + apply String.eqb_eq in Ew. subst w.
      destruct (sdict_get (other_rosters (draft o)) owner) as [roster|e] eqn:El.
      * rewrite sdict_get_set_same. cbn [map fst]. rewrite <- app_assoc. reflexivity.
      * rewrite El. reflexivity.
    + assert (Hne : w <> owner) by (intros ->; rewrite String.eqb_refl in Ew; discriminate).
      destruct (sdict_get (other_rosters (draft o)) owner) as [roster|e];
        [rewrite (sdict_get_set_other _ _ _ _ Hne)|]; reflexivity.
Qed.

(** On a fresh optimizer initialised with a non-empty draft order and a pool
    whose players all have a name, every run of picks is recorded without an
    error, and afterwards each owner of the draft order has the names picked
    for that owner, in pick order; a pick for somebody outside the draft
    order is in nobody's roster, and that name is no key. *)
Theorem rosters_hold_the_picks_by_owner (order : list string) (pool : list player)
  (picks : list (string * string)) :
  order <> [] -> (forall p, In p pool -> named p) ->
  exists o1 o2,
    initialize_draft order (Some pool) new = (o1, None) /\
    record_picks picks o1 = (o2, None) /\
    (forall owner, In owner order ->
       sdict_get (other_rosters (draft o2)) owner =
       Ok (map fst (filter (fun pk => String.eqb (snd pk) owner) picks))) /\
    (forall owner, ~ In owner order ->
       sdict_get (other_rosters (draft o2)) owner = Raise (KeyError (KStr owner))).
Proof.
  intros Horder Hnamed.
  destruct (initialize_draft_ok order pool Hnamed) as [o1 [E1 [O1 [A1 _]]]].
  destruct (record_picks_ok picks o1) as [o2 [E2 _]].
  - rewrite O1. exact Horder.
  - rewrite A1. exact Hnamed.
  - exists o1, o2. split; [exact E1|]. split; [exact E2|].
    pose proof (record_picks_rosters picks o1 o2 E2) as R.
    pose proof (initialize_draft_rosters _ _ _ _ _ E1) as I.
    assert (L : forall owner,
              sdict_get (other_rosters (draft o1)) owner =
              if existsb (String.eqb owner) order then Ok []
              else Raise (KeyError (KStr owner))).
    { intros owner. rewrite I. unfold sdict_of, dict_of. rewrite empty_rosters.
      reflexivity. }
    split; intros owner Hin; rewrite R, L.
    + assert (Ex : existsb (String.eqb owner) order = true).
      { apply existsb_exists. exists owner. split; [exact Hin | apply String.eqb_refl]. }
      rewrite Ex. reflexivity.
    + destruct (existsb (String.eqb owner) order) eqn:Ex; [|reflexivity].
      apply existsb_exists in Ex. destruct Ex as [z [Hz Ez]].
      apply String.eqb_eq in Ez. subst z. contradiction.
Qed.

Lemma rosters_hold_the_picks_by_owner_witness :
  sample_order <> [] /\ (forall p, In p sample_pool -> named p) /\
  exists o1 o2,
    initialize_draft sample_order (Some sample_pool) new = (o1, None) /\
    record_picks sample_picks o1 = (o2, None) /\
    (forall owner, In owner sample_order ->
       sdict_get (other_rosters (draft o2)) owner =
       Ok (map fst (filter (fun pk => String.eqb (snd pk) owner) sample_picks))) /\
    (forall owner, ~ In owner sample_order ->
       sdict_get (other_rosters (draft o2)) owner = Raise (KeyError (KStr owner))).
Proof.
  assert (H1 : sample_order <> []) by discriminate.
  split; [exact H1|]. split; [exact sample_pool_named|].
  exact (rosters_hold_the_picks_by_owner sample_order sample_pool sample_picks
           H1 sample_pool_named).
Defined.

End DraftFacts.
